(** * duck-duck-scrape-mcp: a shallow embedding of the search handlers

    The repository ships three generations of one serverless handler:

    - [Simple]   : first document of [src/api/mcp-tool.ts] (global rate
                   counter, direct library search);
    - [McpTool]  : second document of [src/api/mcp-tool.ts] (per-IP rate
                   limiter, cookie session, cookie-less retry, proxy relay);
    - [HumanLike]: [src/unnamed/part_000] (per-IP rate limiter, session with
                   user agent, own HTML result extractor).

    JavaScript strings are sequences of UTF-16 code units, modelled as
    [list N].  Mutable module-level maps are [gmap]s inside an explicit
    world that every operation threads; a thrown [Error] is the left
    injection of the result, and the world survives a throw, as it does in
    JavaScript.  The network, the search library, [Math.random] and the
    clock are inputs: oracles of an environment record, or arguments. *)

From Stdlib Require Import ZArith QArith Qround Ascii String List Lia.
From stdpp Require Import base option list gmap pretty.

Local Open Scope Z_scope.

(** ** JavaScript strings *)

Module JS.

Abbreviation jsstring := (list N).

(** An ASCII literal as code units. *)
Definition lit (s : string) : jsstring :=
  map N_of_ascii (list_ascii_of_string s).
#[global] Arguments lit : simpl never.

(** The double quote, which literals of this file never contain. *)
Definition dq : jsstring := [34%N].

Definition char_eqb (a b : N) : bool := N.eqb a b.

(** [s.startsWith(p)] *)
Fixpoint startsWith (s p : jsstring) : bool :=
  match p, s with
  | [], _ => true
  | _ :: _, [] => false
  | a :: p', b :: s' => char_eqb a b && startsWith s' p'
  end.

(** [s.includes(sub)] *)
Fixpoint includes (s sub : jsstring) : bool :=
  startsWith s sub ||
  match s with
  | [] => false
  | _ :: s' => includes s' sub
  end.

(** [s.split(sep)] for a non-empty separator: pieces between the
    non-overlapping occurrences of [sep], scanned left to right.  [skip]
    counts the code units of a matched separator still to jump over. *)
Fixpoint split_go (sep : jsstring) (skip : nat) (s : jsstring) : list jsstring :=
  match s with
  | [] => [[]]
  | c :: s' =>
      match skip with
      | S k => split_go sep k s'
      | O =>
          if startsWith s sep then [] :: split_go sep (length sep - 1) s'
          else match split_go sep 0 s' with
               | p :: ps => (c :: p) :: ps
               | [] => [[c]]
               end
      end
  end.

Definition split (s sep : jsstring) : list jsstring := split_go sep 0 s.

(** [l.join(sep)] *)
Fixpoint join (l : list jsstring) (sep : jsstring) : jsstring :=
  match l with
  | [] => []
  | [x] => x
  | x :: rest => x ++ sep ++ join rest sep
  end.

(** ECMAScript WhiteSpace and LineTerminator code units, the set that
    [String.prototype.trim] removes. *)
Definition is_line_terminator (c : N) : bool :=
  (N.eqb c 10 || N.eqb c 13 || N.eqb c 8232 || N.eqb c 8233)%N.

Definition is_space (c : N) : bool :=
  (N.eqb c 9 || N.eqb c 11 || N.eqb c 12 || N.eqb c 32 || N.eqb c 160
   || N.eqb c 5760 || (N.leb 8192 c && N.leb c 8202)
   || N.eqb c 8239 || N.eqb c 8287 || N.eqb c 12288 || N.eqb c 65279
   || is_line_terminator c)%N.

Fixpoint trimStart (s : jsstring) : jsstring :=
  match s with
  | c :: s' => if is_space c then trimStart s' else s
  | [] => []
  end.

Definition trimEnd (s : jsstring) : jsstring := rev (trimStart (rev s)).

(** [s.trim()] *)
Definition trim (s : jsstring) : jsstring := trimEnd (trimStart s).

(** The rest of [s] after the prefix [p], when [p] is a prefix. *)
Fixpoint strip_prefix (p s : jsstring) : option jsstring :=
  match p, s with
  | [], _ => Some s
  | _ :: _, [] => None
  | a :: p', b :: s' => if char_eqb a b then strip_prefix p' s' else None
  end.

(** The longest prefix free of the code unit [c], and what follows it:
    a greedy negated class such as [[^>]*]. *)
Fixpoint span_not (c : N) (s : jsstring) : jsstring * jsstring :=
  match s with
  | [] => ([], [])
  | x :: s' =>
      if char_eqb x c then ([], s)
      else let '(a, b) := span_not c s' in (x :: a, b)
  end.

(** A lazy [(.*?)] followed by the literal [close]: the dot refuses line
    terminators, and the first place where [close] begins ends the group. *)
Fixpoint lazy_dot_until (close s : jsstring) : option jsstring :=
  if startsWith s close then Some []
  else match s with
       | [] => None
       | c :: s' =>
           if is_line_terminator c then None
           else cons c <$> lazy_dot_until close s'
       end.

(** [s.match(re)] without the g flag: the match of the leftmost position
    at which the pattern, given as a matcher of a suffix, succeeds. *)
Fixpoint first_match {A} (at_pos : jsstring -> option A) (s : jsstring) : option A :=
  match at_pos s with
  | Some r => Some r
  | None =>
      match s with
      | [] => None
      | _ :: s' => first_match at_pos s'
      end
  end.

(** [s.replace(re, rep)] with the g flag.  [match_len] gives the length of
    the (non-empty) match that starts at the head of its argument. *)
Fixpoint replace_go (match_len : jsstring -> option nat) (rep : jsstring)
    (skip : nat) (s : jsstring) : jsstring :=
  match s with
  | [] => []
  | c :: s' =>
      match skip with
      | S k => replace_go match_len rep k s'
      | O =>
          match match_len s with
          | Some (S n) => rep ++ replace_go match_len rep n s'
          | _ => c :: replace_go match_len rep 0 s'
          end
      end
  end.

Definition replaceAll (match_len : jsstring -> option nat) (rep s : jsstring) : jsstring :=
  replace_go match_len rep 0 s.

Definition literal_len (p : jsstring) (s : jsstring) : option nat :=
  if startsWith s p then Some (length p) else None.

(** Canonicalisation of the i flag, restricted to what an ASCII pattern can
    meet: only a-z and A-Z fold together. *)
Definition upper (c : N) : N :=
  (if N.leb 97 c && N.leb c 122 then c - 32 else c)%N.

Fixpoint startsWith_ci (s p : jsstring) : bool :=
  match p, s with
  | [], _ => true
  | _ :: _, [] => false
  | a :: p', b :: s' => char_eqb (upper a) (upper b) && startsWith_ci s' p'
  end.

(** Decimal rendering of a natural number, as a template literal prints an
    array length or a status code. *)
Definition digits (n : N) : jsstring := lit (pretty n).

End JS.

Import JS.


(** ** JavaScript numbers and JSON values *)

(** A number is NaN, an infinity or a finite value.  Only comparisons and
    the choice of one operand ([Math.min], [Math.max], [||]) are applied to
    numbers here, so a finite double is represented exactly by the rational
    it denotes; the two zeros are one value (both are falsy). *)
Inductive jsnum : Type :=
  | NaN
  | PosInf
  | NegInf
  | Fin (q : Q).

Definition num_of_Z (z : Z) : jsnum := Fin (inject_Z z).
Definition num_of_nat (n : nat) : jsnum := num_of_Z (Z.of_nat n).

(** [a <= b]; false as soon as one side is NaN. *)
Definition num_leb (a b : jsnum) : bool :=
  match a, b with
  | NaN, _ | _, NaN => false
  | NegInf, _ => true
  | _, PosInf => true
  | Fin x, Fin y => Qle_bool x y
  | _, _ => false
  end.

(** [a >= b] *)
Definition num_geb (a b : jsnum) : bool := num_leb b a.

Definition Math_max (a b : jsnum) : jsnum :=
  match a, b with
  | NaN, _ | _, NaN => NaN
  | _, _ => if num_leb a b then b else a
  end.

Definition Math_min (a b : jsnum) : jsnum :=
  match a, b with
  | NaN, _ | _, NaN => NaN
  | _, _ => if num_leb a b then a else b
  end.

Definition num_truthy (a : jsnum) : bool :=
  match a with
  | NaN => false
  | Fin q => negb (Qeq_bool q 0)
  | _ => true
  end.

(** What [JSON.parse] can put in a request body, with [undefined] for an
    absent property. *)
#[warnings="-register-all"] Inductive jsval : Type :=
  | VUndefined
  | VNull
  | VBool (b : bool)
  | VNum (n : jsnum)
  | VStr (s : jsstring)
  | VArr (items : list jsval)
  | VObj (fields : list (jsstring * jsval)).

Definition truthy (v : jsval) : bool :=
  match v with
  | VUndefined | VNull => false
  | VBool b => b
  | VNum n => num_truthy n
  | VStr s => match s with [] => false | _ => true end
  | VArr _ | VObj _ => true
  end.

Definition is_nullish (v : jsval) : bool :=
  match v with
  | VUndefined | VNull => true
  | _ => false
  end.

Fixpoint assoc {A} (k : jsstring) (l : list (jsstring * A)) : option A :=
  match l with
  | [] => None
  | (k', v) :: l' => if decide (k = k') then Some v else assoc k l'
  end.

(** [v.key] for one of the keys this program reads ([name], [arguments],
    [query], [count]); none of them is a built-in property of a string, a
    number, a boolean or an array, so only objects answer. *)
Definition get_prop (v : jsval) (key : jsstring) : jsval :=
  match v with
  | VObj fields => default VUndefined (assoc key fields)
  | _ => VUndefined
  end.

(** [typeof v === 'string'] *)
Definition is_string (v : jsval) : option jsstring :=
  match v with
  | VStr s => Some s
  | _ => None
  end.

(** Built-ins of the language whose full definition is outside the
    repository: the numeric value of a string or of an object, the string
    form of a value inside a template literal, and URI encoding (which
    throws a URIError on a lone surrogate). *)
Record builtins : Type := {
  ToNumber_other : jsval -> jsnum;
  ToString : jsval -> jsstring;
  encodeURIComponent : jsstring -> option jsstring
}.

(** [Number(v)] *)
Definition Number (B : builtins) (v : jsval) : jsnum :=
  match v with
  | VUndefined => NaN
  | VNull => Fin 0
  | VBool b => if b then Fin 1 else Fin 0
  | VNum n => n
  | _ => ToNumber_other B v
  end.

(** ** Exceptions and mutable state *)

(** A computation over the world [W]: it returns the world it leaves and
    either the message of the [Error] it threw or its value. *)
Definition result (A : Type) : Type := (jsstring + A)%type.
Definition M (W A : Type) : Type := W -> W * result A.

Definition ret {W A} (a : A) : M W A := fun w => (w, inr a).
Definition throw {W A} (msg : jsstring) : M W A := fun w => (w, inl msg).
Definition bind {W A B} (m : M W A) (k : A -> M W B) : M W B :=
  fun w =>
    match m w with
    | (w', inr a) => k a w'
    | (w', inl e) => (w', inl e)
    end.
Definition try_catch {W A} (m : M W A) (handler : jsstring -> M W A) : M W A :=
  fun w =>
    match m w with
    | (w', inl e) => handler e w'
    | r => r
    end.
Definition gets {W A} (f : W -> A) : M W A := fun w => (w, inr (f w)).
Definition modify {W} (f : W -> W) : M W unit := fun w => (f w, inr tt).

Declare Scope js_scope.
Delimit Scope js_scope with js.
Notation "x <- c1 ;; c2" := (bind c1 (fun x => c2))
  (at level 100, c1 at next level, right associativity) : js_scope.
Notation "c1 ;; c2" := (bind c1 (fun _ => c2))
  (at level 100, c2 at level 200, right associativity) : js_scope.
Open Scope js_scope.

(** HTTP exchange with an upstream server. *)
Record request : Type := {
  req_url : jsstring;
  req_headers : list (jsstring * jsstring)
}.

Record response : Type := {
  res_status : Z;
  res_set_cookie : option jsstring;   (* headers.get('set-cookie') *)
  res_text : result jsstring          (* await res.text() *)
}.

(** [res.ok] *)
Definition res_ok (r : response) : bool :=
  (200 <=? res_status r) && (res_status r <=? 299).

(** What the handler sends back. *)
Inductive payload : Type :=
  | EmptyBody                                     (* res.end() *)
  | ErrorJson (error : jsstring)                  (* { error } *)
  | ToolResult (text : jsstring) (isError : bool) (* { content: [{type:'text', text}], isError } *).

Record http_response : Type := {
  status : Z;
  body : payload
}.

Definition isError (r : http_response) : bool :=
  match body r with
  | ToolResult _ e => e
  | _ => false
  end.

(** An inbound request: method, the x-forwarded-for header, parsed body. *)
Record http_request : Type := {
  method : jsstring;
  x_forwarded_for : option jsstring;
  req_body : jsval
}.

Definition TOOL_NAME : jsstring := lit "duckduckgo_web_search".

(** [name === 'duckduckgo_web_search'] *)
Definition is_tool_name (name : jsval) : bool :=
  match name with
  | VStr s => bool_decide (s = TOOL_NAME)
  | _ => false
  end.

(** The message of the TypeError that [const { name, arguments: args } = body]
    raises when [body] is [null] or [undefined]: it names which of the two. *)
Definition NULL_BODY (b : jsval) : jsstring :=
  lit "Cannot destructure property 'name' of 'body' as it is "
  ++ match b with VNull => lit "null" | _ => lit "undefined" end ++ lit ".".

(** [req.headers['x-forwarded-for']?.split(',')[0]?.trim() || fallback] *)
Definition clientIP_of (req : http_request) (fallback : jsstring) : jsstring :=
  match x_forwarded_for req with
  | None => fallback
  | Some h =>
      match head (split h (lit ",")) with
      | None => fallback
      | Some first => match trim first with [] => fallback | ip => ip end
      end
  end.

(** [Math.min(Math.max(Number(args.count) || 10, 1), 20)] *)
Definition effective_count (B : builtins) (count_arg : jsval) : jsnum :=
  let n := Number B count_arg in
  Math_min (Math_max (if num_truthy n then n else Fin 10) (Fin 1)) (Fin 20).

(** ** The outside world *)

(** One record of the rate-limit maps: [{ count, reset }]. *)
Record rate_record : Type := {
  count : Z;
  reset : Z
}.

(** What a user of the search library gets back in [results]. *)
Record ddg_result : Type := {
  ddg_title : jsstring;
  ddg_description : option jsstring;
  ddg_url : jsstring
}.

(** Observable actions, oldest first in the trace. *)
Inductive event : Type :=
  | EvSleep (ms : Q)                                            (* setTimeout *)
  | EvFetch (r : request)                                       (* fetch *)
  | EvSearch (query : jsstring) (headers : list (jsstring * jsstring)) (* DDG.search *)
  | EvConsole (msg : jsstring).                                 (* console.error / warn *)

(** The oracles: answers depend on the request and on how many events
    happened before it, so the same request may be answered differently
    later on. *)
Record env : Type := {
  builtin : builtins;
  random : nat -> Q;                                  (* successive Math.random() *)
  network : nat -> request -> result response;        (* fetch: inl = rejected *)
  library : nat -> jsstring -> list (jsstring * jsstring) -> result (list ddg_result)
}.

(** Module-level variables [H] of a handler file, with the trace of its
    actions and the number of random draws so far. *)
Record world (H : Type) : Type := {
  heap : H;
  trace : list event;
  rand_calls : nat
}.
Arguments heap {H} _.
Arguments trace {H} _.
Arguments rand_calls {H} _.

Definition init_world {H} (h : H) : world H :=
  {| heap := h; trace := []; rand_calls := 0 |}.

Definition emit {H} (e : event) : M (world H) unit :=
  modify (fun w => {| heap := heap w; trace := trace w ++ [e]; rand_calls := rand_calls w |}).

Definition update_heap {H} (f : H -> H) : M (world H) unit :=
  modify (fun w => {| heap := f (heap w); trace := trace w; rand_calls := rand_calls w |}).

Section Effects.
Context (E : env) {H : Type}.

(** [await fetch(url, { headers })] *)
Definition fetch (r : request) : M (world H) response :=
  fun w =>
    let w' := {| heap := heap w; trace := trace w ++ [EvFetch r]; rand_calls := rand_calls w |} in
    (w', network E (length (trace w)) r).

(** [await DDG.search(query, { safeSearch: OFF, headers })] *)
Definition DDG_search (query : jsstring) (headers : list (jsstring * jsstring))
  : M (world H) (list ddg_result) :=
  fun w =>
    let w' := {| heap := heap w; trace := trace w ++ [EvSearch query headers];
                 rand_calls := rand_calls w |} in
    (w', library E (length (trace w)) query headers).

(** [Math.random()] *)
Definition Math_random : M (world H) Q :=
  fun w =>
    ({| heap := heap w; trace := trace w; rand_calls := S (rand_calls w) |},
     inr (random E (rand_calls w))).

(** [await new Promise(r => setTimeout(r, ms))] *)
Definition sleep (ms : Q) : M (world H) unit := emit (EvSleep ms).

Definition console (msg : jsstring) : M (world H) unit := emit (EvConsole msg).

(** [await res.text()] *)
Definition text_of (r : response) : M (world H) jsstring :=
  fun w => (w, res_text r).

Definition encodeURI_or_throw (s : jsstring) : M (world H) jsstring :=
  match encodeURIComponent (builtin E) s with
  | Some u => ret u
  | None => throw (lit "URI malformed")
  end.
End Effects.

Definition nl : jsstring := [10%N].
Definition POST : jsstring := lit "POST".

(** [l.map(f)] where [f] may throw. *)
Fixpoint map_result {A B} (f : A -> result B) (l : list A) : result (list B) :=
  match l with
  | [] => inr []
  | x :: l' =>
      match f x with
      | inl e => inl e
      | inr y =>
          match map_result f l' with
          | inl e => inl e
          | inr ys => inr (y :: ys)
          end
      end
  end.

(** ** [src/unnamed/part_000]: the human-like scraper *)

Module HumanLike.

Record session : Type := {
  cookies : jsstring;
  userAgent : jsstring;
  timestamp : Z
}.

Record globals : Type := {
  SESSION_STORE : gmap jsstring session;
  RATE_LIMITS : gmap jsstring rate_record
}.

Definition no_globals : globals :=
  {| SESSION_STORE := ∅; RATE_LIMITS := ∅ |}.

Definition USER_AGENTS : list jsstring := [
  lit "Mozilla/5.0 (Windows NT 10.0; Win64; x64) AppleWebKit/537.36 (KHTML, like Gecko) Chrome/120.0.0.0 Safari/537.36";
  lit "Mozilla/5.0 (Macintosh; Intel Mac OS X 10_15_7) AppleWebKit/537.36 (KHTML, like Gecko) Chrome/120.0.0.0 Safari/537.36";
  lit "Mozilla/5.0 (X11; Linux x86_64) AppleWebKit/537.36 (KHTML, like Gecko) Chrome/120.0.0.0 Safari/537.36";
  lit "Mozilla/5.0 (Windows NT 10.0; Win64; x64; rv:134.0) Gecko/20100101 Firefox/134.0"
].

Definition nonempty_opt (o : option jsstring) : option jsstring :=
  match o with
  | Some ((_ :: _) as s) => Some s
  | _ => None
  end.

Definition buildHeaders (cookies userAgent : jsstring) (referer : option jsstring)
  : list (jsstring * jsstring) :=
  [ (lit "User-Agent", userAgent);
    (lit "Accept", lit "text/html,application/xhtml+xml,application/xml;q=0.9,image/webp,*/*;q=0.8");
    (lit "Accept-Language", lit "en-US,en;q=0.9");
    (lit "Accept-Encoding", lit "gzip, deflate, br");
    (lit "DNT", lit "1");
    (lit "Sec-GPC", lit "1");
    (lit "Connection", lit "keep-alive");
    (lit "Upgrade-Insecure-Requests", lit "1");
    (lit "Sec-Fetch-Dest", lit "document");
    (lit "Sec-Fetch-Mode", lit "navigate");
    (lit "Sec-Fetch-Site",
       match nonempty_opt referer with Some _ => lit "same-origin" | None => lit "none" end);
    (lit "Sec-Fetch-User", lit "?1");
    (lit "Cache-Control", lit "max-age=0") ]
  ++ match nonempty_opt referer with Some r => [(lit "Referer", r)] | None => [] end
  ++ match cookies with _ :: _ => [(lit "Cookie", cookies)] | [] => [] end.

(** The filter of [extractCookies]:
    [c && !c.startsWith('path') && !c.startsWith('expires') && !c.startsWith('HttpOnly')] *)
Definition keep_cookie (c : jsstring) : bool :=
  match c with [] => false | _ => true end
  && negb (startsWith c (lit "path"))
  && negb (startsWith c (lit "expires"))
  && negb (startsWith c (lit "HttpOnly")).

(** The mapper of [extractCookies]: [c.split(';')[0].trim()]; reading
    [trim] of an absent first element would be a TypeError. *)
Definition name_value (c : jsstring) : result jsstring :=
  match head (split c (lit ";")) with
  | Some first => inr (trim first)
  | None => inl (lit "Cannot read properties of undefined (reading 'trim')")
  end.

Definition extractCookies (setCookie : option jsstring) : result jsstring :=
  match setCookie with
  | None | Some [] => inr []
  | Some s =>
      match map_result name_value (split s (lit ",")) with
      | inl e => inl e
      | inr parts => inr (join (List.filter keep_cookie parts) (lit "; "))
      end
  end.

Record search_result : Type := {
  title : jsstring;
  url : jsstring;
  description : jsstring
}.

(** The block marker [<div class='result__body'>]; in the comments of this
    module a double quote of the source is written ['] . *)
Definition RESULT_BODY : jsstring :=
  lit "<div class=" ++ dq ++ lit "result__body" ++ dq ++ lit ">".

(** [/<a class='result__a' href='([^']+)'[^>]*>/] tried at one position.
    Both classes are greedy and each is followed by the one code unit it
    excludes, so backtracking cannot find a second way to match: the group
    is the whole run up to the next quote, it must be non-empty, and a [>]
    must occur after the quote. *)
Definition url_at (s : jsstring) : option jsstring :=
  match strip_prefix (lit "<a class=" ++ dq ++ lit "result__a" ++ dq ++ lit " href=" ++ dq) s with
  | None => None
  | Some rest =>
      match span_not 34 rest with
      | ((_ :: _) as u, q :: after) =>
          match snd (span_not 62 after) with
          | _ :: _ => Some u
          | [] => None
          end
      | _ => None
      end
  end.

(** [/<a class='result__a'[^>]*>(.*?)<\/a>/] tried at one position: the
    class stops at the first [>], the lazy group at the first [</a>]. *)
Definition title_at (s : jsstring) : option jsstring :=
  match strip_prefix (lit "<a class=" ++ dq ++ lit "result__a" ++ dq) s with
  | None => None
  | Some rest =>
      match snd (span_not 62 rest) with
      | _ :: inner => lazy_dot_until (lit "</a>") inner
      | [] => None
      end
  end.

(** [/<div class='result__snippet'>(.*?)<\/div>/] tried at one position. *)
Definition snippet_at (s : jsstring) : option jsstring :=
  match strip_prefix (lit "<div class=" ++ dq ++ lit "result__snippet" ++ dq ++ lit ">") s with
  | None => None
  | Some inner => lazy_dot_until (lit "</div>") inner
  end.

(** [/<b>|<\/b>/gi] at one position. *)
Definition bold_tag_len (s : jsstring) : option nat :=
  if startsWith_ci s (lit "<b>") then Some 3%nat
  else if startsWith_ci s (lit "</b>") then Some 4%nat
  else None.

Definition clean (s : jsstring) : jsstring :=
  trim
    (replaceAll (literal_len (lit "&gt;")) (lit ">")
      (replaceAll (literal_len (lit "&lt;")) (lit "<")
        (replaceAll (literal_len (lit "&amp;")) (lit "&")
          (replaceAll (literal_len (lit "&quot;")) dq
            (replaceAll bold_tag_len [] s))))).

(** One turn of the loop body after the length test: [None] is [continue]. *)
Definition parse_block (block : jsstring) : option search_result :=
  match first_match url_at block with
  | None => None
  | Some u =>
      if negb (startsWith u (lit "http")) then None
      else if includes u (lit "duckduckgo.com") then None
      else
        let title :=
          match first_match title_at block with
          | Some ((_ :: _) as t) => t
          | _ => lit "No title"
          end in
        let desc := default [] (first_match snippet_at block) in
        Some {| title := clean title; url := u; description := clean desc |}
  end.

(** [for (const block of blocks) { if (results.length >= max) break; ... }] *)
Fixpoint parse_loop (max : jsnum) (blocks : list jsstring)
    (results : list search_result) : list search_result :=
  match blocks with
  | [] => results
  | block :: rest =>
      if num_geb (num_of_nat (length results)) max then results
      else
        match parse_block block with
        | None => parse_loop max rest results
        | Some r => parse_loop max rest (results ++ [r])
        end
  end.

(** [html.split(RESULT_BODY).slice(1)] *)
Definition candidate_blocks (html : jsstring) : list jsstring :=
  tail (split html RESULT_BODY).

Definition parseResults (html : jsstring) (max : jsnum) : list search_result :=
  parse_loop max (candidate_blocks html) [].

Abbreviation W := (world globals).

Definition set_session (ip : jsstring) (s : session) : M W unit :=
  update_heap (fun g => {| SESSION_STORE := <[ip := s]> (SESSION_STORE g);
                           RATE_LIMITS := RATE_LIMITS g |}).

Definition delete_session (ip : jsstring) : M W unit :=
  update_heap (fun g => {| SESSION_STORE := delete ip (SESSION_STORE g);
                           RATE_LIMITS := RATE_LIMITS g |}).

Definition set_rate (ip : jsstring) (r : rate_record) : M W unit :=
  update_heap (fun g => {| SESSION_STORE := SESSION_STORE g;
                           RATE_LIMITS := <[ip := r]> (RATE_LIMITS g) |}).

Definition delete_rate (ip : jsstring) : M W unit :=
  update_heap (fun g => {| SESSION_STORE := SESSION_STORE g;
                           RATE_LIMITS := delete ip (RATE_LIMITS g) |}).

Definition MAX_PER_MIN : Z := 3.

(** Session time to live, [12 * 60 * 1000] ms. *)
Definition SESSION_TTL : Z := 12 * 60 * 1000.

Definition HOME : jsstring := lit "https://duckduckgo.com".

(** [USER_AGENTS[Math.floor(r * USER_AGENTS.length)]] for a draw [r] of
    [Math.random()], which lies in [0, 1). *)
Definition pick_user_agent (r : Q) : jsstring :=
  default [] (USER_AGENTS !! Z.to_nat (Qfloor (r * inject_Z (Z.of_nat (length USER_AGENTS))))).

Section Handler.
Context (E : env).

Definition landing_request (userAgent : jsstring) : request :=
  {| req_url := HOME; req_headers := buildHeaders [] userAgent None |}.

Definition establishSession : M W (jsstring * jsstring) :=
  r <- Math_random E ;;
  let userAgent := pick_user_agent r in
  homeRes <- fetch E (landing_request userAgent) ;;
  match extractCookies (res_set_cookie homeRes) with
  | inl e => throw e
  | inr cookies => ret (cookies, userAgent)
  end.

Definition search_request (query_enc cookies userAgent : jsstring) : request :=
  {| req_url := lit "https://duckduckgo.com/html/?q=" ++ query_enc ++ lit "&kl=wt-wt";
     req_headers := buildHeaders cookies userAgent (Some (lit "https://duckduckgo.com/")) |}.

(** [humanLikeSearch], lines 100-119: reuse the stored session or create
    one -- the get-or-create of the session manager.  [now] is the value of
    [Date.now()] read on entry; the result is [(cookies, userAgent)]. *)
Definition getOrCreate (clientIP : jsstring) (now : Z) : M W (jsstring * jsstring) :=
  stored <- gets (fun w => SESSION_STORE (heap w) !! clientIP) ;;
  session <-
    match stored with
    | Some s =>
        if SESSION_TTL <? now - timestamp s
        then (delete_session clientIP ;; ret None)
        else ret (Some s)
    | None => ret None
    end ;;
  match session with
  | Some s => ret (cookies s, userAgent s)
  | None =>
      r <- Math_random E ;;
      sleep (r * 1000 + 300) ;;
      fresh <- establishSession ;;
      set_session clientIP
        {| cookies := fst fresh; userAgent := snd fresh; timestamp := now |} ;;
      ret fresh
  end.

(** [humanLikeSearch], lines 121-141: the typing delay, the one search
    request, the block detection and the extraction. *)
Definition fetchResults (query : jsstring) (count : jsnum) (cookies userAgent : jsstring)
  : M W (list search_result) :=
  r <- Math_random E ;;
  sleep (r * 1200 + 400) ;;
  q <- encodeURI_or_throw E query ;;
  searchRes <- fetch E (search_request q cookies userAgent) ;;
  if negb (res_ok searchRes)
  then throw (lit "HTTP " ++ digits (Z.to_N (res_status searchRes)))
  else
    html <- text_of searchRes ;;
    if includes html (lit "blocked your request") || includes html (lit "captcha")
    then throw (lit "Blocked by anti-bot system")
    else ret (parseResults html count).

Definition humanLikeSearch (query : jsstring) (count : jsnum) (clientIP : jsstring)
    (now : Z) : M W (list search_result) :=
  cu <- getOrCreate clientIP now ;;
  fetchResults query count (fst cu) (snd cu).

Definition RATE_LIMITED : jsstring := lit "Rate limit: 3 requests/minute/IP".

Definition enforceRateLimit (ip : jsstring) (now : Z) : M W unit :=
  rec <- gets (fun w => RATE_LIMITS (heap w) !! ip) ;;
  match rec with
  | Some r => if reset r <? now then delete_rate ip else ret tt
  | None => ret tt
  end ;;
  stored <- gets (fun w => RATE_LIMITS (heap w) !! ip) ;;
  let current := default {| count := 0; reset := now + 60000 |} stored in
  if MAX_PER_MIN <=? count current
  then throw RATE_LIMITED
  else set_rate ip {| count := count current + 1; reset := reset current |}.

Definition render (r : search_result) : jsstring :=
  lit "### " ++ title r ++ nl ++ description r ++ nl
  ++ [55357; 56599]%N ++ lit " [Read more](" ++ url r ++ lit ")".

Definition markdown (query : jsstring) (results : list search_result) : jsstring :=
  match results with
  | [] => lit "# DuckDuckGo Search Results" ++ nl ++ lit "No results for " ++ dq ++ query ++ dq ++ lit "."
  | _ =>
      lit "# DuckDuckGo Search Results" ++ nl ++ lit "Query: " ++ query ++ lit " ("
      ++ digits (N.of_nat (length results)) ++ lit " found)" ++ nl ++ nl ++ lit "---" ++ nl ++ nl
      ++ join (map render results) (nl ++ nl)
  end.

Definition unavailable (message : jsstring) : jsstring :=
  [9888; 65039]%N ++ lit " Search unavailable." ++ nl ++ lit "Reason: " ++ message ++ nl ++ nl
  ++ [55357; 56481]%N
  ++ lit " DDG blocks cloud scrapers aggressively. Try simpler queries or local hosting.".

(** [t_rate] and [t_search] are the two readings of [Date.now()], the
    first inside [enforceRateLimit], the second inside [humanLikeSearch]. *)
Definition handler (req : http_request) (t_rate t_search : Z) : M W http_response :=
  if negb (bool_decide (method req = POST))
  then ret {| status := 405; body := EmptyBody |}
  else
    let clientIP := clientIP_of req (lit "127.0.0.1") in
    try_catch
      (enforceRateLimit clientIP t_rate ;;
       let b := if truthy (req_body req) then req_body req else VObj [] in
       let name := get_prop b (lit "name") in
       let args := get_prop b (lit "arguments") in
       let query := if is_nullish args then VUndefined else get_prop args (lit "query") in
       match is_tool_name name, truthy query, is_string query with
       | true, true, Some q =>
           let count := effective_count (builtin E) (get_prop args (lit "count")) in
           results <- humanLikeSearch q count clientIP t_search ;;
           ret {| status := 200; body := ToolResult (markdown q results) false |}
       | _, _, _ =>
           ret {| status := 400; body := ToolResult (lit "Invalid request format") true |}
       end)
      (fun message =>
         console (lit "[DDG-SCRAPER] IP=" ++ clientIP ++ lit " ERROR: " ++ message) ;;
         ret {| status := 200; body := ToolResult (unavailable message) true |}).
End Handler.

End HumanLike.

(** [l.slice(0, end)]: the end is truncated to an integer, counted from the
    back when negative, and clipped to the length. *)
Definition slice_to {A} (l : list A) (stop : jsnum) : list A :=
  match stop with
  | NaN | NegInf => []
  | PosInf => l
  | Fin q =>
      let k := Z.quot (Qnum q) (Zpos (Qden q)) in
      if k <? 0 then take (Z.to_nat (Z.max (Z.of_nat (length l) + k) 0)) l
      else take (Z.to_nat k) l
  end.

(** ** [src/api/mcp-tool.ts], second document: session, retry, relay *)

Module McpTool.

Record session : Type := {
  cookies : jsstring;
  timestamp : Z
}.

Record globals : Type := {
  SESSION_STORE : gmap jsstring session;
  RATE_LIMITS : gmap jsstring rate_record
}.

Definition no_globals : globals :=
  {| SESSION_STORE := ∅; RATE_LIMITS := ∅ |}.

Abbreviation W := (world globals).

Definition BASE_HEADERS : list (jsstring * jsstring) :=
  [ (lit "Accept", lit "text/html,application/xhtml+xml,application/xml;q=0.9,image/avif,image/webp,*/*;q=0.8");
    (lit "Accept-Language", lit "en-US,en;q=0.5");
    (lit "Accept-Encoding", lit "gzip, deflate, br");
    (lit "DNT", lit "1");
    (lit "Sec-GPC", lit "1");
    (lit "Connection", lit "keep-alive");
    (lit "Upgrade-Insecure-Requests", lit "1");
    (lit "Sec-Fetch-Dest", lit "document");
    (lit "Sec-Fetch-Mode", lit "navigate");
    (lit "Sec-Fetch-Site", lit "none");
    (lit "Sec-Fetch-User", lit "?1") ].

(** [getRealisticHeaders(cookies?)]; an absent argument is the empty string
    here, both being falsy. *)
Definition getRealisticHeaders (cookies : jsstring) : list (jsstring * jsstring) :=
  BASE_HEADERS
  ++ [(lit "User-Agent", lit "Mozilla/5.0 (Windows NT 10.0; Win64; x64; rv:134.0) Gecko/20100101 Firefox/134.0")]
  ++ match cookies with _ :: _ => [(lit "Cookie", cookies)] | [] => [] end.

Definition set_session (ip : jsstring) (s : session) : M W unit :=
  update_heap (fun g => {| SESSION_STORE := <[ip := s]> (SESSION_STORE g);
                           RATE_LIMITS := RATE_LIMITS g |}).

Definition delete_session (ip : jsstring) : M W unit :=
  update_heap (fun g => {| SESSION_STORE := delete ip (SESSION_STORE g);
                           RATE_LIMITS := RATE_LIMITS g |}).

Definition set_rate (ip : jsstring) (r : rate_record) : M W unit :=
  update_heap (fun g => {| SESSION_STORE := SESSION_STORE g;
                           RATE_LIMITS := <[ip := r]> (RATE_LIMITS g) |}).

Definition delete_rate (ip : jsstring) : M W unit :=
  update_heap (fun g => {| SESSION_STORE := SESSION_STORE g;
                           RATE_LIMITS := delete ip (RATE_LIMITS g) |}).

Definition MAX_REQ_PER_MIN : Z := 5.

(** Session time to live, [10 * 60 * 1000] ms. *)
Definition SESSION_TTL : Z := 10 * 60 * 1000.

Definition HOME : jsstring := lit "https://duckduckgo.com".

(** The simplified extraction inside [getInitialCookies]:
    [cookieHeader.split(',').map(c => c.split(';')[0]).join('; ')];
    [join] prints an absent element as the empty string. *)
Definition simple_cookies (cookieHeader : jsstring) : jsstring :=
  join (map (fun c => default [] (head (split c (lit ";")))) (split cookieHeader (lit ",")))
       (lit "; ").

(** [/<a class='result__a' href='([^']+)'>([^<]+)<\/a>/] tried at one
    position (['] stands for the double quote): the two groups and the
    length of the match. *)
Definition anchor_at (s : jsstring) : option ((jsstring * jsstring) * nat) :=
  let opening := lit "<a class=" ++ dq ++ lit "result__a" ++ dq ++ lit " href=" ++ dq in
  match strip_prefix opening s with
  | None => None
  | Some rest =>
      match span_not 34 rest with
      | ((_ :: _) as u, after) =>
          match strip_prefix (dq ++ lit ">") after with
          | None => None
          | Some inner =>
              match span_not 60 inner with
              | ((_ :: _) as t, closing) =>
                  if startsWith closing (lit "</a>")
                  then Some ((u, t), (length opening + length u + 2 + length t + 4)%nat)
                  else None
              | _ => None
              end
          end
      | _ => None
      end
  end.

(** [[...s.matchAll(re)]]: successive non-overlapping matches. *)
Fixpoint match_all_go {A} (at_pos : jsstring -> option (A * nat)) (skip : nat)
    (s : jsstring) : list A :=
  match s with
  | [] => []
  | _ :: s' =>
      match skip with
      | S k => match_all_go at_pos k s'
      | O =>
          match at_pos s with
          | Some (r, S n) => r :: match_all_go at_pos n s'
          | _ => match_all_go at_pos 0 s'
          end
      end
  end.

Definition matchAll {A} (at_pos : jsstring -> option (A * nat)) (s : jsstring) : list A :=
  match_all_go at_pos 0 s.

Section Handler.
Context (E : env).

Definition landing_request : request :=
  {| req_url := HOME; req_headers := getRealisticHeaders [] |}.

(** The abort after 8000 ms is one of the ways the fetch is rejected. *)
Definition getInitialCookies : M W jsstring :=
  try_catch
    (res <- fetch E landing_request ;;
     match res_set_cookie res with
     | None | Some [] => ret []
     | Some cookieHeader => ret (simple_cookies cookieHeader)
     end)
    (fun message =>
       console (lit "Failed to fetch initial cookies: " ++ message) ;;
       ret []).

(** [performSearchWithSession], lines 145-162: reuse the stored cookies or
    fetch new ones -- the get-or-create of the session manager.  [now] is
    the value of [Date.now()]. *)
Definition getOrCreate (clientIP : jsstring) (now : Z) : M W jsstring :=
  stored <- gets (fun w => SESSION_STORE (heap w) !! clientIP) ;;
  session <-
    match stored with
    | Some s =>
        if SESSION_TTL <? now - timestamp s
        then (delete_session clientIP ;; ret None)
        else ret (Some s)
    | None => ret None
    end ;;
  let cookies0 := match session with Some s => cookies s | None => [] end in
  match cookies0 with
  | _ :: _ => ret cookies0
  | [] =>
      fresh <- getInitialCookies ;;
      match fresh with
      | _ :: _ => set_session clientIP {| cookies := fresh; timestamp := now |}
      | [] => ret tt
      end ;;
      ret fresh
  end.

(** [performSearchWithSession], lines 164-190: the delay, the search with
    the cookies, and the retry without them. *)
Definition searchWithFallback (query cookies : jsstring) : M W (list ddg_result) :=
  r <- Math_random E ;;
  sleep (r * 1000 + 500) ;;
  try_catch
    (DDG_search E query (getRealisticHeaders cookies))
    (fun e =>
       match cookies with
       | _ :: _ =>
           try_catch
             (DDG_search E query (getRealisticHeaders []))
             (fun e2 => throw e)
       | [] => throw e
       end).

Definition performSearchWithSession (query : jsstring) (count : jsnum)
    (clientIP : jsstring) (now : Z) : M W (list ddg_result) :=
  cookies <- getOrCreate clientIP now ;;
  searchWithFallback query cookies.

Definition RATE_LIMITED : jsstring := lit "Rate limit exceeded. Try again in 1 minute.".

Definition checkRateLimit (ip : jsstring) (now : Z) : M W unit :=
  record <- gets (fun w => RATE_LIMITS (heap w) !! ip) ;;
  match record with
  | Some r => if reset r <? now then delete_rate ip else ret tt
  | None => ret tt
  end ;;
  stored <- gets (fun w => RATE_LIMITS (heap w) !! ip) ;;
  let current := default {| count := 0; reset := now + 60000 |} stored in
  if MAX_REQ_PER_MIN <=? count current
  then throw RATE_LIMITED
  else set_rate ip {| count := count current + 1; reset := reset current |}.

(** The link glyph as the file stores it. *)
Definition LINK : jsstring := [63743; 252; 238; 243]%N.

Definition render (r : ddg_result) : jsstring :=
  lit "### " ++ ddg_title r ++ nl
  ++ match ddg_description r with Some ((_ :: _) as d) => d | _ => [] end ++ nl
  ++ LINK ++ lit " [Read more](" ++ ddg_url r ++ lit ")".

Definition markdown (query : jsstring) (limited : list ddg_result) : jsstring :=
  lit "# DuckDuckGo Search Results" ++ nl ++ query ++ lit " ("
  ++ digits (N.of_nat (length limited)) ++ lit " found)" ++ nl ++ nl ++ lit "---" ++ nl ++ nl
  ++ join (map render limited) (nl ++ nl).

Definition no_results (query : jsstring) : jsstring :=
  lit "# DuckDuckGo Search Results" ++ nl ++ lit "No results found for " ++ dq ++ query ++ dq ++ lit ".".

Definition render_proxy (m : jsstring * jsstring) : jsstring :=
  lit "### " ++ trim (snd m) ++ nl ++ LINK ++ lit " [Read more](" ++ fst m ++ lit ")".

Definition markdown_proxy (query : jsstring) (limited : list (jsstring * jsstring)) : jsstring :=
  lit "# DuckDuckGo (via proxy) Results" ++ nl ++ lit "Query: " ++ query ++ nl ++ nl
  ++ lit "---" ++ nl ++ nl ++ join (map render_proxy limited) (nl ++ nl).

Definition search_failed (message : jsstring) : jsstring :=
  [8218; 246; 8224; 212; 8719; 232]%N ++ lit " Search failed: " ++ message ++ nl ++ nl
  ++ [63743; 252; 237; 176]%N
  ++ lit " Tip: Try a simpler query, or wait and retry. Cloud scrapers are often blocked by DuckDuckGo.".

Definition proxy_request (query_enc : jsstring) : request :=
  {| req_url := lit "https://corsproxy.io/?https://duckduckgo.com/html/?q=" ++ query_enc;
     req_headers := [(lit "User-Agent", lit "Mozilla/5.0 (X11; Linux x86_64) AppleWebKit/537.36")] |}.

(** The relay attempt inside the inner [catch]: [Some] response when it
    produced matches, [None] when the handler goes on to rethrow. *)
Definition proxy_fallback (query : jsstring) (count : jsnum) : M W (option http_response) :=
  try_catch
    (q <- encodeURI_or_throw E query ;;
     htmlRes <- fetch E (proxy_request q) ;;
     html <- text_of htmlRes ;;
     match matchAll anchor_at html with
     | [] => ret None
     | matches =>
         ret (Some {| status := 200;
                      body := ToolResult (markdown_proxy query (slice_to matches count)) false |})
     end)
    (fun proxyErr =>
       console (lit "Proxy fallback failed: " ++ proxyErr) ;;
       ret None).

(** The inner [catch] of the handler up to its [throw e]: the relay is
    tried only when the message of [e] mentions VQD or blocked. *)
Definition relay_if_blocked (query : jsstring) (count : jsnum) (e : jsstring)
  : M W (option http_response) :=
  if includes e (lit "VQD") || includes e (lit "blocked")
  then proxy_fallback query count
  else ret None.

(** [t_rate] and [t_search] are the two readings of [Date.now()]. *)
Definition handler (req : http_request) (t_rate t_search : Z) : M W http_response :=
  if negb (bool_decide (method req = POST))
  then ret {| status := 405; body := ErrorJson (lit "Method not allowed") |}
  else
    let clientIP := clientIP_of req (lit "unknown") in
    try_catch
      (checkRateLimit clientIP t_rate ;;
       let b := req_body req in
       if is_nullish b
       then throw (NULL_BODY b)
       else
         let name := get_prop b (lit "name") in
         let args := get_prop b (lit "arguments") in
         if negb (is_tool_name name)
         then ret {| status := 400;
                     body := ToolResult (lit "Unknown tool: " ++ ToString (builtin E) name) true |}
         else
           let query := if is_nullish args then VUndefined else get_prop args (lit "query") in
           match truthy query, is_string query with
           | true, Some q =>
               let count := effective_count (builtin E) (get_prop args (lit "count")) in
               outcome <-
                 try_catch
                   (results <- performSearchWithSession q count clientIP t_search ;;
                    ret (inl results))
                   (fun e =>
                      relayed <- relay_if_blocked q count e ;;
                      match relayed with
                      | Some resp => ret (inr resp)
                      | None => throw e
                      end) ;;
               match outcome with
               | inr resp => ret resp
               | inl [] => ret {| status := 200; body := ToolResult (no_results q) false |}
               | inl results =>
                   ret {| status := 200;
                          body := ToolResult (markdown q (slice_to results count)) false |}
               end
           | _, _ =>
               ret {| status := 400;
                      body := ToolResult (lit "Missing or invalid " ++ dq ++ lit "query" ++ dq
                                          ++ lit " argument") true |}
           end)
      (fun message =>
         console (lit "Search error: " ++ message) ;;
         ret {| status := 200; body := ToolResult (search_failed message) true |}).
End Handler.

End McpTool.

(** ** [src/api/mcp-tool.ts], first document: the simple handler *)

Module Simple.

(** [let requestCount = 0; let lastReset = Date.now();] *)
Record globals : Type := {
  requestCount : Z;
  lastReset : Z
}.

(** The module as loaded at time [t0]. *)
Definition loaded_at (t0 : Z) : globals :=
  {| requestCount := 0; lastReset := t0 |}.

Abbreviation W := (world globals).

Definition RATE_LIMIT_PER_MINUTE : Z := 10.

Definition RATE_LIMITED : jsstring := lit "Rate limit exceeded: max 10 requests per minute".

(** [Math.min(Math.max(args.count || 10, 1), 20)]: no [Number] around the
    argument, [Math.max] converts the operand [||] selected. *)
Definition effective_count (B : builtins) (count_arg : jsval) : jsnum :=
  let x := if truthy count_arg then Number B count_arg else Fin 10 in
  Math_min (Math_max x (Fin 1)) (Fin 20).

Section Handler.
Context (E : env).

Definition checkRateLimit (now : Z) : M W unit :=
  g <- gets heap ;;
  (if 60000 <? now - lastReset g
   then update_heap (fun _ => {| requestCount := 0; lastReset := now |})
   else ret tt) ;;
  g <- gets heap ;;
  if RATE_LIMIT_PER_MINUTE <=? requestCount g
  then throw RATE_LIMITED
  else update_heap (fun g => {| requestCount := requestCount g + 1; lastReset := lastReset g |}).

Definition render (r : ddg_result) : jsstring :=
  lit "### " ++ ddg_title r ++ nl
  ++ match ddg_description r with Some ((_ :: _) as d) => d | _ => [] end ++ nl
  ++ [55357; 56599]%N ++ lit " [Read more](" ++ ddg_url r ++ lit ")".

Definition markdown (query : jsstring) (limited : list ddg_result) : jsstring :=
  lit "# DuckDuckGo Search Results" ++ nl ++ query ++ lit " search results ("
  ++ digits (N.of_nat (length limited)) ++ lit " found)" ++ nl ++ nl ++ lit "---" ++ nl ++ nl
  ++ join (map render limited) (nl ++ nl).

Definition no_results (query : jsstring) : jsstring :=
  lit "# DuckDuckGo Search Results" ++ nl ++ lit "No results found for " ++ dq ++ query ++ dq ++ lit ".".

(** [t_rate] is the reading of [Date.now()] inside [checkRateLimit]. *)
Definition handler (req : http_request) (t_rate : Z) : M W http_response :=
  if negb (bool_decide (method req = POST))
  then ret {| status := 405; body := ErrorJson (lit "Method not allowed") |}
  else
    try_catch
      (let b := req_body req in
       if is_nullish b
       then throw (NULL_BODY b)
       else
         let name := get_prop b (lit "name") in
         let args := get_prop b (lit "arguments") in
         if negb (is_tool_name name)
         then ret {| status := 400;
                     body := ToolResult (lit "Unknown tool: " ++ ToString (builtin E) name) true |}
         else
           let query := if is_nullish args then VUndefined else get_prop args (lit "query") in
           match truthy query, is_string query with
           | true, Some q =>
               let count := effective_count (builtin E) (get_prop args (lit "count")) in
               checkRateLimit t_rate ;;
               results <- DDG_search E q [] ;;
               match results with
               | [] => ret {| status := 200; body := ToolResult (no_results q) false |}
               | _ =>
                   ret {| status := 200;
                          body := ToolResult (markdown q (slice_to results count)) false |}
               end
           | _, _ =>
               ret {| status := 400;
                      body := ToolResult (lit "Missing or invalid 'query' argument") true |}
           end)
      (fun message =>
         console (lit "Tool execution error: " ++ message) ;;
         ret {| status := 500; body := ToolResult (lit "Error: " ++ message) true |}).
End Handler.

End Simple.

(** Headers, extraction and parsing are kept folded when a computation is
    simplified step by step. *)
#[global] Arguments HumanLike.buildHeaders : simpl never.
#[global] Arguments HumanLike.extractCookies : simpl never.
#[global] Arguments HumanLike.parseResults : simpl never.
#[global] Arguments HumanLike.pick_user_agent : simpl never.
#[global] Arguments HumanLike.landing_request : simpl never.
#[global] Arguments HumanLike.search_request : simpl never.
#[global] Arguments McpTool.getRealisticHeaders : simpl never.
#[global] Arguments McpTool.simple_cookies : simpl never.
#[global] Arguments McpTool.landing_request : simpl never.
#[global] Arguments McpTool.proxy_request : simpl never.
#[global] Arguments includes : simpl never.
#[global] Arguments digits : simpl never.
#[global] Arguments effective_count : simpl never.
#[global] Arguments clientIP_of : simpl never.

(** ** The rate limiter as the specification words it *)

Module RateLimiter.

Definition fresh_record (now : Z) : rate_record :=
  {| count := 0; reset := now + 60000 |}.

(** "If the stored record's windowResetAt has passed, the record is
    discarded first." *)
Definition discard_expired (ip : jsstring) (now : Z)
    (limits : gmap jsstring rate_record) : gmap jsstring rate_record :=
  match limits !! ip with
  | Some r => if reset r <? now then delete ip limits else limits
  | None => limits
  end.

(** The "possibly freshly initialized" record. *)
Definition current (ip : jsstring) (now : Z)
    (limits : gmap jsstring rate_record) : rate_record :=
  default (fresh_record now) (limits !! ip).

Definition bump (r : rate_record) : rate_record :=
  {| count := count r + 1; reset := reset r |}.

(** "If the record's count has reached the configured ceiling, the call
    fails [...]. Otherwise the record's count is incremented by one and the
    call succeeds."  The boolean tells success. *)
Definition acquire (ceiling : Z) (ip : jsstring) (now : Z)
    (limits : gmap jsstring rate_record) : gmap jsstring rate_record * bool :=
  let limits1 := discard_expired ip now limits in
  let rec := current ip now limits1 in
  if ceiling <=? count rec then (limits1, false)
  else (<[ip := bump rec]> limits1, true).

(** Every stored count lies between 0 and the ceiling. *)
Definition bounded (ceiling : Z) (limits : gmap jsstring rate_record) : Prop :=
  map_Forall (fun _ r => 0 <= count r <= ceiling) limits.

End RateLimiter.

(** The world [w] with another rate-limit map, or another session map. *)
Definition HumanLike_with_limits (w : HumanLike.W)
    (limits : gmap jsstring rate_record) : HumanLike.W :=
  {| heap := {| HumanLike.SESSION_STORE := HumanLike.SESSION_STORE (heap w);
                HumanLike.RATE_LIMITS := limits |};
     trace := trace w; rand_calls := rand_calls w |}.

Definition McpTool_with_limits (w : McpTool.W)
    (limits : gmap jsstring rate_record) : McpTool.W :=
  {| heap := {| McpTool.SESSION_STORE := McpTool.SESSION_STORE (heap w);
                McpTool.RATE_LIMITS := limits |};
     trace := trace w; rand_calls := rand_calls w |}.

Definition HumanLike_with_sessions (w : HumanLike.W)
    (sessions : gmap jsstring HumanLike.session) : HumanLike.W :=
  {| heap := {| HumanLike.SESSION_STORE := sessions;
                HumanLike.RATE_LIMITS := HumanLike.RATE_LIMITS (heap w) |};
     trace := trace w; rand_calls := rand_calls w |}.

Definition McpTool_with_sessions (w : McpTool.W)
    (sessions : gmap jsstring McpTool.session) : McpTool.W :=
  {| heap := {| McpTool.SESSION_STORE := sessions;
                McpTool.RATE_LIMITS := McpTool.RATE_LIMITS (heap w) |};
     trace := trace w; rand_calls := rand_calls w |}.

(** The stored session that get-or-create will reuse at time [now], if
    any: present and not older than the time to live. *)
Definition HumanLike_reusable (w : HumanLike.W) (ip : jsstring) (now : Z)
  : option HumanLike.session :=
  match HumanLike.SESSION_STORE (heap w) !! ip with
  | Some s => if HumanLike.SESSION_TTL <? now - HumanLike.timestamp s then None else Some s
  | None => None
  end.

Definition McpTool_reusable (w : McpTool.W) (ip : jsstring) (now : Z)
  : option McpTool.session :=
  match McpTool.SESSION_STORE (heap w) !! ip with
  | Some s => if McpTool.SESSION_TTL <? now - McpTool.timestamp s then None else Some s
  | None => None
  end.

(** The query of a well-formed tool call: the name is the tool's and
    [arguments.query] is a non-empty string. *)
Definition call_query (b : jsval) : option jsstring :=
  if is_tool_name (get_prop b (lit "name"))
  then match get_prop (get_prop b (lit "arguments")) (lit "query") with
       | VStr ((_ :: _) as q) => Some q
       | _ => None
       end
  else None.



(** The world after running [m], whether [m] returned normally, and the
    world after running a list of computations one after the other. *)
Definition after {W A} (m : M W A) (w : W) : W := fst (m w).
Definition succeeds {W A} (m : M W A) (w : W) : bool :=
  match snd (m w) with inr _ => true | inl _ => false end.

Fixpoint run_all {W A} (ms : list (M W A)) (w : W) : W :=
  match ms with
  | [] => w
  | m :: rest => run_all rest (after m w)
  end.

(** ** Concrete requests and environments for the examples *)

Definition no_builtins : builtins :=
  {| ToNumber_other := fun _ => NaN;
     ToString := fun _ => lit "undefined";
     encodeURIComponent := fun s => Some s |}.

(** A tool call [{ name: 'duckduckgo_web_search', arguments: { query } }]
    posted from the address [ip]. *)
Definition search_body (query : jsstring) : jsval :=
  VObj [(lit "name", VStr TOOL_NAME);
        (lit "arguments", VObj [(lit "query", VStr query)])].

Definition post_from (ip : jsstring) (b : jsval) : http_request :=
  {| method := POST; x_forwarded_for := Some ip; req_body := b |}.

Definition has_cookie (headers : list (jsstring * jsstring)) : bool :=
  match assoc (lit "Cookie") headers with
  | Some _ => true
  | None => false
  end.

(** A well-formed result block of the search page. *)
Definition result_block (url title snippet : jsstring) : jsstring :=
  HumanLike.RESULT_BODY
  ++ lit "<a class=" ++ dq ++ lit "result__a" ++ dq ++ lit " href=" ++ dq ++ url ++ dq ++ lit ">"
  ++ title ++ lit "</a><div class=" ++ dq ++ lit "result__snippet" ++ dq ++ lit ">"
  ++ snippet ++ lit "</div>".

Definition two_results_page : jsstring :=
  lit "<html>"
  ++ result_block (lit "https://www.rust-lang.org/") (lit "Rust") (lit "A language")
  ++ result_block (lit "https://doc.rust-lang.org/book/") (lit "The Book") (lit "Learn Rust")
  ++ lit "</html>".

Definition two_library_results : list ddg_result :=
  [ {| ddg_title := lit "Rust"; ddg_description := Some (lit "A language");
       ddg_url := lit "https://www.rust-lang.org/" |};
    {| ddg_title := lit "The Book"; ddg_description := None;
       ddg_url := lit "https://doc.rust-lang.org/book/" |} ].

Definition page (html : jsstring) : response :=
  {| res_status := 200; res_set_cookie := None; res_text := inr html |}.

Definition landing_page : response :=
  {| res_status := 200;
     res_set_cookie := Some (lit "sid=fresh; Path=/; HttpOnly");
     res_text := inr [] |}.

(** The landing page sets a cookie and every search is answered. *)
Definition friendly_env : env :=
  {| builtin := no_builtins;
     random := fun _ => 0%Q;
     network := fun _ r =>
       if bool_decide (req_url r = HumanLike.HOME) then inr landing_page
       else inr (page two_results_page);
     library := fun _ _ _ => inr two_library_results |}.

(** The upstream blocks whatever carries a Cookie header and answers the
    rest. *)
Definition cookie_blocking_env : env :=
  {| builtin := no_builtins;
     random := fun _ => 0%Q;
     network := fun _ r =>
       if bool_decide (req_url r = HumanLike.HOME) then inr landing_page
       else if has_cookie (req_headers r)
            then inr (page (lit "Sorry, we blocked your request."))
            else inr (page two_results_page);
     library := fun _ _ headers =>
       if has_cookie headers then inl (lit "DDG detected an anomaly: blocked")
       else inr two_library_results |}.

(** Every library search fails, with one message when cookies are sent and
    another when they are not; the relay is down. *)
Definition failing_env : env :=
  {| builtin := no_builtins;
     random := fun _ => 0%Q;
     network := fun _ r =>
       if bool_decide (req_url r = HumanLike.HOME) then inr landing_page
       else inl (lit "fetch failed");
     library := fun _ _ headers =>
       if has_cookie headers then inl (lit "primary search failed")
       else inl (lit "retry failed") |}.

(** Worlds in which the client 1.1.1.1 has a session created at time 0. *)
Definition CLIENT : jsstring := lit "1.1.1.1".

Definition HumanLike_old_session : HumanLike.session :=
  {| HumanLike.cookies := lit "sid=old"; HumanLike.userAgent := lit "UA";
     HumanLike.timestamp := 0 |}.

Definition HumanLike_visited : HumanLike.W :=
  init_world {| HumanLike.SESSION_STORE := <[CLIENT := HumanLike_old_session]> ∅;
                HumanLike.RATE_LIMITS := ∅ |}.

Definition McpTool_old_session : McpTool.session :=
  {| McpTool.cookies := lit "sid=old"; McpTool.timestamp := 0 |}.

Definition McpTool_visited : McpTool.W :=
  init_world {| McpTool.SESSION_STORE := <[CLIENT := McpTool_old_session]> ∅;
                McpTool.RATE_LIMITS := ∅ |}.

(** A page of six result blocks, with markup and entities in the texts, one
    link back to the search engine and one relative link. *)
Definition mixed_results_page : jsstring :=
  lit "<html>"
  ++ result_block (lit "https://a.example/") (lit " <b>Rust</b> &amp; Cargo ") (lit "fast &lt;safe&gt;")
  ++ result_block (lit "https://duckduckgo.com/y.js?ad=1") (lit "Ad") (lit "sponsored")
  ++ result_block (lit "https://b.example/") (lit "B") (lit "say &quot;hi&quot;")
  ++ result_block (lit "/relative") (lit "R") (lit "internal")
  ++ result_block (lit "https://c.example/") (lit "C") (lit "third")
  ++ result_block (lit "https://d.example/") (lit "D") (lit "fourth")
  ++ lit "</html>".

(** An environment in which the network is down and the library finds
    nothing. *)
Definition offline_env : env :=
  {| builtin := no_builtins;
     random := fun _ => 0%Q;
     network := fun _ _ => inl (lit "fetch failed");
     library := fun _ _ _ => inr [] |}.

(** ** The result count as the specification words it *)



(** ** The cookie filter as the amended claim words it *)

(** An entry that is dropped: the empty one, and one that begins, code
    unit for code unit, with [path], [expires] or [HttpOnly]. *)
Definition dropped_entry (p : jsstring) : Prop :=
  p = [] \/ lit "path" `prefix_of` p \/ lit "expires" `prefix_of` p
  \/ lit "HttpOnly" `prefix_of` p.

#[global] Instance dropped_entry_dec (p : jsstring) : Decision (dropped_entry p).
Proof. unfold dropped_entry. apply _. Defined.

(** ** Invariants of the module-level variables *)

(** [m] keeps the invariant [J] of the heap, whether it returns or throws. *)
Definition keeps {H A} (J : H -> Prop) (m : M (world H) A) : Prop :=
  forall w, J (heap w) -> J (heap (fst (m w))).

(** Every stored session of mcp-tool.ts carries a non-empty cookie string. *)
Definition sessions_nonempty (g : McpTool.globals) : Prop :=
  map_Forall (fun _ s => McpTool.cookies s <> []) (McpTool.SESSION_STORE g).

(** Every stored rate record counts between 0 and the ceiling of its file. *)
Definition HumanLike_limits_bounded (g : HumanLike.globals) : Prop :=
  RateLimiter.bounded HumanLike.MAX_PER_MIN (HumanLike.RATE_LIMITS g).

Definition McpTool_limits_bounded (g : McpTool.globals) : Prop :=
  RateLimiter.bounded McpTool.MAX_REQ_PER_MIN (McpTool.RATE_LIMITS g).

(** ** More invariants, worlds and pages *)

(** The global counter of the first handler of mcp-tool.ts lies between 0
    and its ceiling. *)
Definition Simple_count_bounded (g : Simple.globals) : Prop :=
  0 <= Simple.requestCount g <= Simple.RATE_LIMIT_PER_MINUTE.

(** Worlds in which the client 1.1.1.1, or everybody, has used up the
    window that ends at 60 s. *)
Definition HumanLike_at_ceiling : HumanLike.W :=
  init_world {| HumanLike.SESSION_STORE := ∅;
                HumanLike.RATE_LIMITS := <[CLIENT := {| count := 3; reset := 60000 |}]> ∅ |}.

Definition McpTool_at_ceiling : McpTool.W :=
  init_world {| McpTool.SESSION_STORE := ∅;
                McpTool.RATE_LIMITS := <[CLIENT := {| count := 5; reset := 60000 |}]> ∅ |}.

Definition Simple_at_ceiling : Simple.W :=
  init_world {| Simple.requestCount := 10; Simple.lastReset := 0 |}.


(** The anchor the relay looks for: [<a class='result__a' href='u'>t</a>]. *)
Definition proxy_anchor (u t : jsstring) : jsstring :=
  lit "<a class=" ++ dq ++ lit "result__a" ++ dq ++ lit " href=" ++ dq
  ++ u ++ dq ++ lit ">" ++ t ++ lit "</a>".

(** The page made of the anchors of [items], each followed by its text. *)
Fixpoint proxy_page (items : list (jsstring * jsstring * jsstring)) : jsstring :=
  match items with
  | [] => []
  | (u, t, text) :: rest => proxy_anchor u t ++ text ++ proxy_page rest
  end.

(** Text that a title or a snippet can carry and have read back unchanged:
    no tag, no entity, no line break. *)
Definition plain_text (s : jsstring) : bool :=
  forallb (fun c => negb (N.eqb c 60) && negb (N.eqb c 38) && negb (is_line_terminator c)) s.

(** An address the extractor accepts: no quote and no angle bracket, it
    starts with http and is not one of the search engine itself. *)
Definition plain_url (u : jsstring) : bool :=
  forallb (fun c => negb (N.eqb c 34) && negb (N.eqb c 60) && negb (N.eqb c 62)) u
  && startsWith u (lit "http")
  && negb (includes u (lit "duckduckgo.com")).

(** [result_block] without its marker. *)
Definition result_text (url title snippet : jsstring) : jsstring :=
  lit "<a class=" ++ dq ++ lit "result__a" ++ dq ++ lit " href=" ++ dq ++ url ++ dq ++ lit ">"
  ++ title ++ lit "</a><div class=" ++ dq ++ lit "result__snippet" ++ dq ++ lit ">"
  ++ snippet ++ lit "</div>".

(** One result of a page: address, title, snippet, and the text that
    follows the block. *)
Record page_item : Type := {
  item_url : jsstring;
  item_title : jsstring;
  item_snippet : jsstring;
  item_trailer : jsstring
}.

Definition well_formed_item (i : page_item) : Prop :=
  plain_url (item_url i) = true
  /\ plain_text (item_title i) = true /\ item_title i <> [] /\ trim (item_title i) = item_title i
  /\ plain_text (item_snippet i) = true /\ trim (item_snippet i) = item_snippet i
  /\ 60%N ∉ item_trailer i.

Fixpoint results_page (items : list page_item) : jsstring :=
  match items with
  | [] => []
  | i :: rest =>
      result_block (item_url i) (item_title i) (item_snippet i) ++ item_trailer i
      ++ results_page rest
  end.

Definition item_result (i : page_item) : HumanLike.search_result :=
  {| HumanLike.title := item_title i; HumanLike.url := item_url i;
     HumanLike.description := item_snippet i |}.

(** [mismatch y p]: [y] differs from the pattern [p] at a position both
    have; [free p s]: so does every non-empty suffix of [s]. *)
Fixpoint mismatch (y p : jsstring) : bool :=
  match p, y with
  | a :: p', b :: y' => negb (char_eqb a b) || mismatch y' p'
  | _, _ => false
  end.

Fixpoint free (p s : jsstring) : bool :=
  match s with
  | [] => true
  | _ :: s' => mismatch s p && free p s'
  end.

(** The fixed parts of a block. *)
Definition ANCHOR_OPEN : jsstring :=
  lit "<a class=" ++ dq ++ lit "result__a" ++ dq ++ lit " href=" ++ dq.
Definition ANCHOR_MID : jsstring := dq ++ lit ">".
Definition SNIPPET_OPEN : jsstring :=
  lit "</a><div class=" ++ dq ++ lit "result__snippet" ++ dq ++ lit ">".
Definition SNIPPET_CLOSE : jsstring := lit "</div>".

(** What a page holds between the marker of a block and the next marker. *)
Definition block_text (i : page_item) : jsstring :=
  result_text (item_url i) (item_title i) (item_snippet i) ++ item_trailer i.

(** Two results of a page, the second without snippet. *)
Definition rust_items : list page_item :=
  [ {| item_url := lit "https://www.rust-lang.org/"; item_title := lit "Rust";
       item_snippet := lit "A language"; item_trailer := lit " " |};
    {| item_url := lit "https://doc.rust-lang.org/book/"; item_title := lit "The Book";
       item_snippet := []; item_trailer := [] |} ].

(** * Verification *)

(** ** Invariants: the rules *)

Section Keeps.
Context {H : Type} (J : H -> Prop).

Lemma keeps_ret {A} (a : A) : keeps J (ret a).
Proof. by intros w. Qed.
Lemma keeps_throw {A} e : keeps J (@throw _ A e).
Proof. by intros w. Qed.
Lemma keeps_gets {A} (f : world H -> A) : keeps J (gets f).
Proof. by intros w. Qed.
Lemma keeps_bind {A B} (m : M (world H) A) (k : A -> M (world H) B) :
  keeps J m -> (forall a, keeps J (k a)) -> keeps J (bind m k).
Proof.
  intros Hm Hk w Hw. unfold bind. specialize (Hm w Hw).
  destruct (m w) as [w' [e|a]]; [done|]. by apply Hk.
Qed.
Lemma keeps_try {A} (m : M (world H) A) (h : jsstring -> M (world H) A) :
  keeps J m -> (forall e, keeps J (h e)) -> keeps J (try_catch m h).
Proof.
  intros Hm Hh w Hw. unfold try_catch. specialize (Hm w Hw).
  destruct (m w) as [w' [e|a]]; [|done]. by apply Hh.
Qed.
Lemma keeps_emit ev : keeps J (emit ev).
Proof. by intros w. Qed.
Lemma keeps_fetch E r : keeps J (fetch E r).
Proof. by intros w. Qed.
Lemma keeps_search E q hs : keeps J (DDG_search E q hs).
Proof. by intros w. Qed.
Lemma keeps_random E : keeps J (Math_random E).
Proof. by intros w. Qed.
Lemma keeps_text r : keeps J (text_of r).
Proof. by intros w. Qed.
Lemma keeps_encode E s : keeps J (encodeURI_or_throw E s).
Proof. intros w. unfold encodeURI_or_throw. by destruct (encodeURIComponent _ _). Qed.
Lemma keeps_update (f : H -> H) : (forall h, J h -> J (f h)) -> keeps J (update_heap f).
Proof. intros Hf w Hw. by apply Hf. Qed.
End Keeps.

(** Walk through a computation: binds and handlers by their rules, case
    distinctions by destruction. *)
Ltac keeps_step :=
  first
    [ apply keeps_bind; [|intros ?]
    | apply keeps_try; [|intros ?]
    | apply keeps_ret | apply keeps_throw | apply keeps_gets
    | apply keeps_emit | apply keeps_fetch | apply keeps_search
    | apply keeps_random | apply keeps_text | apply keeps_encode
    | match goal with
      | |- keeps _ (match ?x with _ => _ end) => destruct x
      end ].

(** [known] closes the calls whose invariance is already proved; updates
    that do not touch the part of the heap [J] reads close by conversion. *)
Ltac keeps_walk known :=
  repeat first
    [ apply known
    | keeps_step
    | progress cbv zeta
    | (apply keeps_update; let h := fresh "h" in let Hh := fresh "Hh" in
       intros h Hh; exact Hh) ].

Lemma run_all_keeps {H A} (J : H -> Prop) (ms : list (M (world H) A)) (w : world H) :
  Forall (keeps J) ms -> J (heap w) -> J (heap (run_all ms w)).
Proof.
  intros Hms. revert w. induction Hms as [|m ms Hm _ IH]; intros w Hw; [done|].
  simpl. apply IH. by apply Hm.
Qed.

(** ** Rate limiter *)

Section RateLimiterFacts.
Import RateLimiter.
Context (ceiling : Z) (Hpos : 0 < ceiling).

Lemma acquire_reject_keeps ip now limits :
  snd (acquire ceiling ip now limits) = false ->
  fst (acquire ceiling ip now limits) = limits.
Proof.
  unfold acquire, discard_expired, current, fresh_record.
  destruct (limits !! ip) as [r|] eqn:Hl.
  - destruct (reset r <? now) eqn:Hr.
    + rewrite lookup_delete_eq. simpl.
      destruct (ceiling <=? 0) eqn:Hc; [lia | simpl; discriminate].
    + rewrite Hl. simpl. destruct (ceiling <=? count r); simpl; [done | discriminate].
  - rewrite Hl. simpl.
    destruct (ceiling <=? 0) eqn:Hc; [lia | simpl; discriminate].
Qed.

Lemma acquire_bounded ip now limits :
  bounded ceiling limits -> bounded ceiling (fst (acquire ceiling ip now limits)).
Proof.
  intros Hb. unfold acquire.
  assert (Hb1 : bounded ceiling (discard_expired ip now limits)).
  { unfold discard_expired. destruct (limits !! ip) as [r|]; [|done].
    destruct (reset r <? now); [|done].
    by apply map_Forall_delete. }
  set (limits1 := discard_expired ip now limits) in *.
  destruct (ceiling <=? count (current ip now limits1)) eqn:Hc; simpl; [done|].
  apply map_Forall_insert_2; [|done].
  unfold current, fresh_record, bump in *. simpl.
  destruct (limits1 !! ip) as [r|] eqn:Hl; simpl in *.
  - specialize (Hb1 _ _ Hl). simpl in Hb1. lia.
  - lia.
Qed.

Lemma acquire_other ip ip' now limits :
  ip <> ip' ->
  fst (acquire ceiling ip now limits) !! ip' = limits !! ip'.
Proof.
  intros Hne. unfold acquire.
  assert (Hd : discard_expired ip now limits !! ip' = limits !! ip').
  { unfold discard_expired. destruct (limits !! ip) as [r|]; [|done].
    destruct (reset r <? now); [|done]. by rewrite lookup_delete_ne. }
  destruct (ceiling <=? _); simpl; [done|].
  by rewrite lookup_insert_ne.
Qed.

(** The verdict for one identity depends on that identity's entry only. *)
Lemma acquire_verdict_local ip now limits limits' :
  limits !! ip = limits' !! ip ->
  snd (acquire ceiling ip now limits) = snd (acquire ceiling ip now limits').
Proof.
  intros Heq. unfold acquire, current, discard_expired.
  rewrite <- Heq.
  destruct (limits !! ip) as [r|] eqn:Hl.
  - destruct (reset r <? now).
    + rewrite !lookup_delete_eq. simpl. by destruct (ceiling <=? 0).
    + rewrite <- Heq, Hl. simpl. by destruct (ceiling <=? count r).
  - rewrite <- Heq, Hl. simpl. by destruct (ceiling <=? 0).
Qed.
End RateLimiterFacts.

(** Both per-IP limiters of the source are the specified acquire. *)
Lemma enforceRateLimit_refines ip now (w : HumanLike.W) :
  HumanLike.enforceRateLimit ip now w =
    let r := RateLimiter.acquire HumanLike.MAX_PER_MIN ip now (HumanLike.RATE_LIMITS (heap w)) in
    (HumanLike_with_limits w (fst r),
     if snd r then inr tt else inl HumanLike.RATE_LIMITED).
Proof.
  destruct w as [[ss rl] tr rc].
  unfold HumanLike.enforceRateLimit, RateLimiter.acquire, RateLimiter.discard_expired,
    RateLimiter.current, RateLimiter.fresh_record, HumanLike_with_limits,
    bind, gets, ret, throw, HumanLike.delete_rate, HumanLike.set_rate, update_heap, modify.
  cbn.
  destruct (rl !! ip) as [r|] eqn:Hl; cbn.
  - destruct (reset r <? now); cbn.
    + rewrite lookup_delete_eq. cbn. reflexivity.
    + rewrite Hl. cbn. by destruct (HumanLike.MAX_PER_MIN <=? count r).
  - rewrite Hl. cbn. reflexivity.
Qed.

Lemma checkRateLimit_refines ip now (w : McpTool.W) :
  McpTool.checkRateLimit ip now w =
    let r := RateLimiter.acquire McpTool.MAX_REQ_PER_MIN ip now (McpTool.RATE_LIMITS (heap w)) in
    (McpTool_with_limits w (fst r),
     if snd r then inr tt else inl McpTool.RATE_LIMITED).
Proof.
  destruct w as [[ss rl] tr rc].
  unfold McpTool.checkRateLimit, RateLimiter.acquire, RateLimiter.discard_expired,
    RateLimiter.current, RateLimiter.fresh_record, McpTool_with_limits,
    bind, gets, ret, throw, McpTool.delete_rate, McpTool.set_rate, update_heap, modify.
  cbn.
  destruct (rl !! ip) as [r|] eqn:Hl; cbn.
  - destruct (reset r <? now); cbn.
    + rewrite lookup_delete_eq. cbn. reflexivity.
    + rewrite Hl. cbn. by destruct (McpTool.MAX_REQ_PER_MIN <=? count r).
  - rewrite Hl. cbn. reflexivity.
Qed.

Lemma HumanLike_with_limits_id (w : HumanLike.W) :
  HumanLike_with_limits w (HumanLike.RATE_LIMITS (heap w)) = w.
Proof. by destruct w as [[ss rl] tr rc]. Qed.

Lemma McpTool_with_limits_id (w : McpTool.W) :
  McpTool_with_limits w (McpTool.RATE_LIMITS (heap w)) = w.
Proof. by destruct w as [[ss rl] tr rc]. Qed.

Lemma enforceRateLimit_runs_bounded (calls : list (jsstring * Z)) (w : HumanLike.W) :
  RateLimiter.bounded HumanLike.MAX_PER_MIN (HumanLike.RATE_LIMITS (heap w)) ->
  RateLimiter.bounded HumanLike.MAX_PER_MIN
    (HumanLike.RATE_LIMITS
       (heap (run_all (map (fun c => HumanLike.enforceRateLimit (fst c) (snd c)) calls) w))).
Proof.
  revert w. induction calls as [|[ip now] calls IH]; intros w Hb; [done|].
  simpl. apply IH. unfold after. rewrite enforceRateLimit_refines. simpl.
  apply acquire_bounded; [done | exact Hb].
Qed.

Lemma checkRateLimit_runs_bounded (calls : list (jsstring * Z)) (w : McpTool.W) :
  RateLimiter.bounded McpTool.MAX_REQ_PER_MIN (McpTool.RATE_LIMITS (heap w)) ->
  RateLimiter.bounded McpTool.MAX_REQ_PER_MIN
    (McpTool.RATE_LIMITS
       (heap (run_all (map (fun c => McpTool.checkRateLimit (fst c) (snd c)) calls) w))).
Proof.
  revert w. induction calls as [|[ip now] calls IH]; intros w Hb; [done|].
  simpl. apply IH. unfold after. rewrite checkRateLimit_refines. simpl.
  apply acquire_bounded; [done | exact Hb].
Qed.

Lemma enforceRateLimit_keeps_bounded ip now :
  keeps HumanLike_limits_bounded (HumanLike.enforceRateLimit ip now).
Proof.
  intros w Hw. rewrite enforceRateLimit_refines. simpl.
  apply acquire_bounded; [done | exact Hw].
Qed.

Lemma checkRateLimit_keeps_bounded ip now :
  keeps McpTool_limits_bounded (McpTool.checkRateLimit ip now).
Proof.
  intros w Hw. rewrite checkRateLimit_refines. simpl.
  apply acquire_bounded; [done | exact Hw].
Qed.

Lemma HumanLike_handler_keeps_bounded E req t_rate t_search :
  keeps HumanLike_limits_bounded (HumanLike.handler E req t_rate t_search).
Proof.
  unfold HumanLike.handler, HumanLike.humanLikeSearch, HumanLike.getOrCreate,
    HumanLike.fetchResults, HumanLike.establishSession,
    HumanLike.set_session, HumanLike.delete_session, sleep, console.
  keeps_walk enforceRateLimit_keeps_bounded.
Qed.

Lemma McpTool_handler_keeps_bounded E req t_rate t_search :
  keeps McpTool_limits_bounded (McpTool.handler E req t_rate t_search).
Proof.
  unfold McpTool.handler, McpTool.performSearchWithSession, McpTool.searchWithFallback,
    McpTool.relay_if_blocked, McpTool.proxy_fallback, McpTool.getOrCreate,
    McpTool.getInitialCookies,
    McpTool.set_session, McpTool.delete_session, sleep, console.
  keeps_walk checkRateLimit_keeps_bounded.
Qed.

(** C1.  Acquire on the per-IP limiters ([enforceRateLimit] of part_000,
    [checkRateLimit(ip)] of mcp-tool.ts): the stored record is first
    discarded when its reset time has passed; if the count of the record
    then current (stored, or fresh with count 0) has reached the ceiling the
    call throws the rate-limit error and the whole world, hence the stored
    record, is exactly as before; otherwise the record is stored with its
    count incremented by one and the call returns.  Consequently, after any
    run of acquire calls, and after any run of handler requests, from the
    freshly loaded module every stored count lies between 0 and the
    ceiling. *)
Theorem C1_acquire_rejects_at_ceiling_else_increments :
  forall (ip : jsstring) (now : Z),
    (forall w : HumanLike.W,
       let limits := RateLimiter.discard_expired ip now (HumanLike.RATE_LIMITS (heap w)) in
       let rec := RateLimiter.current ip now limits in
       HumanLike.enforceRateLimit ip now w =
         if HumanLike.MAX_PER_MIN <=? count rec
         then (w, inl HumanLike.RATE_LIMITED)
         else (HumanLike_with_limits w
                 (<[ip := {| count := count rec + 1; reset := reset rec |}]> limits),
               inr tt))
    /\ (forall w : McpTool.W,
       let limits := RateLimiter.discard_expired ip now (McpTool.RATE_LIMITS (heap w)) in
       let rec := RateLimiter.current ip now limits in
       McpTool.checkRateLimit ip now w =
         if McpTool.MAX_REQ_PER_MIN <=? count rec
         then (w, inl McpTool.RATE_LIMITED)
         else (McpTool_with_limits w
                 (<[ip := {| count := count rec + 1; reset := reset rec |}]> limits),
               inr tt))
    /\ (forall calls : list (jsstring * Z),
       RateLimiter.bounded HumanLike.MAX_PER_MIN
         (HumanLike.RATE_LIMITS
            (heap (run_all (map (fun c => HumanLike.enforceRateLimit (fst c) (snd c)) calls)
                           (init_world HumanLike.no_globals)))))
    /\ (forall calls : list (jsstring * Z),
       RateLimiter.bounded McpTool.MAX_REQ_PER_MIN
         (McpTool.RATE_LIMITS
            (heap (run_all (map (fun c => McpTool.checkRateLimit (fst c) (snd c)) calls)
                           (init_world McpTool.no_globals)))))
    /\ (forall (E : env) (requests : list (http_request * Z * Z)),
       HumanLike_limits_bounded
         (heap (run_all (map (fun r => HumanLike.handler E (fst (fst r)) (snd (fst r)) (snd r))
                             requests)
                        (init_world HumanLike.no_globals))))
    /\ (forall (E : env) (requests : list (http_request * Z * Z)),
       McpTool_limits_bounded
         (heap (run_all (map (fun r => McpTool.handler E (fst (fst r)) (snd (fst r)) (snd r))
                             requests)
                        (init_world McpTool.no_globals)))).
Proof.
  intros ip now. split; [|split; [|split; [|split; [|split]]]].
  - intros w limits rec. rewrite enforceRateLimit_refines.
    pose proof (acquire_reject_keeps HumanLike.MAX_PER_MIN eq_refl ip now
                  (HumanLike.RATE_LIMITS (heap w))) as Hkeep.
    unfold RateLimiter.acquire in *. fold limits in Hkeep |- *. fold rec in Hkeep |- *.
    cbn zeta. destruct (HumanLike.MAX_PER_MIN <=? count rec); simpl in *.
    + rewrite Hkeep by reflexivity. by rewrite HumanLike_with_limits_id.
    + reflexivity.
  - intros w limits rec. rewrite checkRateLimit_refines.
    pose proof (acquire_reject_keeps McpTool.MAX_REQ_PER_MIN eq_refl ip now
                  (McpTool.RATE_LIMITS (heap w))) as Hkeep.
    unfold RateLimiter.acquire in *. fold limits in Hkeep |- *. fold rec in Hkeep |- *.
    cbn zeta. destruct (McpTool.MAX_REQ_PER_MIN <=? count rec); simpl in *.
    + rewrite Hkeep by reflexivity. by rewrite McpTool_with_limits_id.
    + reflexivity.
  - intros calls. apply enforceRateLimit_runs_bounded. apply map_Forall_empty.
  - intros calls. apply checkRateLimit_runs_bounded. apply map_Forall_empty.
  - intros E requests. apply run_all_keeps; [|apply map_Forall_empty].
    apply Forall_map, Forall_forall. intros r _. apply HumanLike_handler_keeps_bounded.
  - intros E requests. apply run_all_keeps; [|apply map_Forall_empty].
    apply Forall_map, Forall_forall. intros r _. apply McpTool_handler_keeps_bounded.
Qed.

(** C9 (as stated, on the first handler of mcp-tool.ts): its limiter is one
    counter for all callers, so ten requests from one address make the next
    request of another address fail, although that address never asked
    before and is served when it comes first. *)
Lemma C9_global_counter_is_shared :
  let E := offline_env in
  let a := post_from (lit "1.1.1.1") (search_body (lit "rust")) in
  let b := post_from (lit "2.2.2.2") (search_body (lit "rust")) in
  let fresh := init_world (Simple.loaded_at 0) in
  let busy := run_all (replicate 10 (Simple.handler E a 1000)) fresh in
  snd (Simple.handler E b 2000 fresh)
    = inr {| status := 200; body := ToolResult (Simple.no_results (lit "rust")) false |}
  /\ snd (Simple.handler E b 2000 busy)
    = inr {| status := 500;
             body := ToolResult (lit "Error: " ++ Simple.RATE_LIMITED) true |}
  /\ Simple.requestCount (heap busy) = Simple.RATE_LIMIT_PER_MINUTE.
Proof. vm_compute. repeat split. Qed.

Lemma enforceRateLimit_runs_other ip ip' (times : list Z) (w : HumanLike.W) :
  ip <> ip' ->
  HumanLike.RATE_LIMITS (heap (run_all (map (HumanLike.enforceRateLimit ip) times) w)) !! ip'
  = HumanLike.RATE_LIMITS (heap w) !! ip'.
Proof.
  intros Hne. revert w. induction times as [|t times IH]; intros w; [done|].
  simpl. rewrite IH. unfold after. rewrite enforceRateLimit_refines. simpl.
  by apply acquire_other.
Qed.

Lemma checkRateLimit_runs_other ip ip' (times : list Z) (w : McpTool.W) :
  ip <> ip' ->
  McpTool.RATE_LIMITS (heap (run_all (map (McpTool.checkRateLimit ip) times) w)) !! ip'
  = McpTool.RATE_LIMITS (heap w) !! ip'.
Proof.
  intros Hne. revert w. induction times as [|t times IH]; intros w; [done|].
  simpl. rewrite IH. unfold after. rewrite checkRateLimit_refines. simpl.
  by apply acquire_other.
Qed.

(** C9 (amended).  On the per-IP limiters ([enforceRateLimit] of part_000,
    [checkRateLimit(ip)] of the second handler of mcp-tool.ts), acquire
    calls for one identity, however many and at whatever times, leave the
    rate record of every other identity as it was and do not change whether
    an acquire for that other identity succeeds. *)
Theorem C9_per_ip_limiters_isolate_identities :
  forall (ip ip' : jsstring) (times : list Z) (now' : Z),
    ip <> ip' ->
    (forall w : HumanLike.W,
       let w' := run_all (map (HumanLike.enforceRateLimit ip) times) w in
       HumanLike.RATE_LIMITS (heap w') !! ip' = HumanLike.RATE_LIMITS (heap w) !! ip'
       /\ succeeds (HumanLike.enforceRateLimit ip' now') w'
          = succeeds (HumanLike.enforceRateLimit ip' now') w)
    /\ (forall w : McpTool.W,
       let w' := run_all (map (McpTool.checkRateLimit ip) times) w in
       McpTool.RATE_LIMITS (heap w') !! ip' = McpTool.RATE_LIMITS (heap w) !! ip'
       /\ succeeds (McpTool.checkRateLimit ip' now') w'
          = succeeds (McpTool.checkRateLimit ip' now') w).
Proof.
  intros ip ip' times now' Hne. split; intros w w'; subst w'.
  - pose proof (enforceRateLimit_runs_other ip ip' times w Hne) as Hsame.
    split; [exact Hsame|].
    unfold succeeds. rewrite !enforceRateLimit_refines. simpl.
    rewrite (acquire_verdict_local HumanLike.MAX_PER_MIN ip' now' _ _ Hsame).
    reflexivity.
  - pose proof (checkRateLimit_runs_other ip ip' times w Hne) as Hsame.
    split; [exact Hsame|].
    unfold succeeds. rewrite !checkRateLimit_refines. simpl.
    rewrite (acquire_verdict_local McpTool.MAX_REQ_PER_MIN ip' now' _ _ Hsame).
    reflexivity.
Qed.

(** Five calls for one address exhaust its quota in both files; another
    address is still admitted. *)
Lemma C9_per_ip_limiters_isolate_identities_witness :
  lit "1.1.1.1" <> lit "2.2.2.2"
  /\ succeeds (HumanLike.enforceRateLimit (lit "1.1.1.1") 9)
       (run_all (map (HumanLike.enforceRateLimit (lit "1.1.1.1")) [1; 2; 3; 4; 5])
                (init_world HumanLike.no_globals)) = false
  /\ succeeds (HumanLike.enforceRateLimit (lit "2.2.2.2") 9)
       (run_all (map (HumanLike.enforceRateLimit (lit "1.1.1.1")) [1; 2; 3; 4; 5])
                (init_world HumanLike.no_globals)) = true
  /\ succeeds (McpTool.checkRateLimit (lit "2.2.2.2") 9)
       (run_all (map (McpTool.checkRateLimit (lit "1.1.1.1")) [1; 2; 3; 4; 5])
                (init_world McpTool.no_globals)) = true.
Proof.
  assert (Hne : lit "1.1.1.1" <> lit "2.2.2.2") by (vm_compute; discriminate).
  destruct (C9_per_ip_limiters_isolate_identities
              (lit "1.1.1.1") (lit "2.2.2.2") [1; 2; 3; 4; 5] 9 Hne) as [Ha Hb].
  destruct (Ha (init_world HumanLike.no_globals)) as [_ Ha2].
  destruct (Hb (init_world McpTool.no_globals)) as [_ Hb2].
  split; [exact Hne|]. split; [vm_compute; reflexivity|].
  split.
  - rewrite Ha2. vm_compute. reflexivity.
  - rewrite Hb2. vm_compute. reflexivity.
Defined.

(** ** Effective result count *)

Lemma Qle_bool_inject (a b : Z) : Qle_bool (inject_Z a) (inject_Z b) = (a <=? b).
Proof. unfold Qle_bool, inject_Z. simpl. by rewrite !Z.mul_1_r. Qed.







(** ** Cookie extractor *)

Lemma split_go_nonempty sep skip s : split_go sep skip s <> [].
Proof.
  revert skip. induction s as [|c s IH]; intros skip; cbn [split_go]; [done|].
  destruct skip; [|apply IH].
  destruct (startsWith (c :: s) sep); [done|].
  by destruct (split_go sep 0 s).
Qed.

Lemma join_cons x rest sep :
  rest <> [] -> join (x :: rest) sep = x ++ sep ++ join rest sep.
Proof. by destruct rest. Qed.

Lemma startsWith_nil (s : jsstring) : startsWith s [] = true.
Proof. by destruct s. Qed.

(** Splitting on one code unit: the first piece is the run before its
    first occurrence. *)
Lemma head_split_char (c : N) (s : jsstring) :
  head (split s [c]) = Some (fst (span_not c s)).
Proof.
  unfold split. induction s as [|x s IH]; simpl; [done|].
  rewrite startsWith_nil.
  unfold char_eqb. rewrite (N.eqb_sym x c). destruct (N.eqb c x); simpl; [done|].
  destruct (split_go [c] 0 s) as [|p ps]; simpl in *; [done|].
  destruct (span_not c s) as [a b]. simpl in *. congruence.
Qed.

(** ... the pieces glued with that code unit give the string back, and no
    piece contains it. *)
Lemma join_split_char (c : N) (s : jsstring) :
  join (split s [c]) [c] = s /\ Forall (fun p => c ∉ p) (split s [c]).
Proof.
  unfold split. induction s as [|x s [IHj IHf]].
  - split; [done|]. constructor; [|done]. apply not_elem_of_nil.
  - cbn [split_go startsWith length Nat.sub]. rewrite startsWith_nil, andb_true_r.
    unfold char_eqb. destruct (N.eqb c x) eqn:Hcx.
    + apply N.eqb_eq in Hcx. subst x. split.
      * rewrite join_cons by apply split_go_nonempty. simpl. by rewrite IHj.
      * constructor; [apply not_elem_of_nil | done].
    + apply N.eqb_neq in Hcx.
      destruct (split_go [c] 0 s) as [|p ps] eqn:Hs; [by apply split_go_nonempty in Hs|].
      inversion IHf as [|? ? Hp Hps]; subst. split.
      * by destruct ps.
      * constructor; [|done]. intros Hin. apply elem_of_cons in Hin as [->|Hin]; done.
Qed.

Lemma name_value_total (c : jsstring) :
  HumanLike.name_value c = inr (trim (fst (span_not 59 c))).
Proof.
  unfold HumanLike.name_value. change (lit ";") with [59%N].
  by rewrite head_split_char.
Qed.

Lemma map_result_total {A B} (f : A -> result B) (g : A -> B) (l : list A) :
  (forall x, f x = inr (g x)) -> map_result f l = inr (map g l).
Proof.
  intros Hf. induction l as [|x l IH]; simpl; [done|]. by rewrite Hf, IH.
Qed.

Lemma char_eqb_eq (a b : N) : char_eqb a b = true <-> a = b.
Proof. apply N.eqb_eq. Qed.

Lemma startsWith_app (p s : jsstring) : startsWith (p ++ s) p = true.
Proof.
  induction p as [|a p IH]; [by destruct s|].
  simpl. by rewrite (proj2 (char_eqb_eq a a) eq_refl).
Qed.

Lemma startsWith_true (s p : jsstring) : startsWith s p = true -> exists r, s = p ++ r.
Proof.
  revert s. induction p as [|a p IH]; intros s; [by exists s|].
  destruct s as [|b s]; simpl; [done|].
  destruct (char_eqb a b) eqn:Hab; [|done].
  apply char_eqb_eq in Hab as ->. intros Hs.
  destruct (IH _ Hs) as [r ->]. by exists r.
Qed.

(** [startsWith] is the prefix relation on code units: no case folding. *)
Lemma startsWith_prefix (s p : jsstring) : startsWith s p = true <-> p `prefix_of` s.
Proof.
  split.
  - intros [r ->]%startsWith_true. by exists r.
  - intros [r ->]. apply startsWith_app.
Qed.

(** The run before the first [c]: free of [c], a prefix of the string, and
    either the whole string or followed by [c]. *)
Lemma span_not_first (c : N) (s : jsstring) :
  (c ∉ fst (span_not c s))
  /\ fst (span_not c s) `prefix_of` s
  /\ (fst (span_not c s) = s \/ (fst (span_not c s) ++ [c]) `prefix_of` s).
Proof.
  induction s as [|x s (IHn & IHp & IHs)]; simpl.
  - split; [apply not_elem_of_nil|]. split; [done|]. by left.
  - destruct (char_eqb x c) eqn:Hx; simpl.
    + apply char_eqb_eq in Hx as ->.
      split; [apply not_elem_of_nil|]. split; [apply prefix_nil|].
      right. by exists s.
    + destruct (span_not c s) as [a b]. simpl in *.
      split; [|split].
      * intros [->|Hin]%elem_of_cons; [|done].
        by rewrite (proj2 (char_eqb_eq x x) eq_refl) in Hx.
      * by apply prefix_cons.
      * destruct IHs as [->|Hp]; [by left|]. right. by apply prefix_cons.
Qed.

Lemma keep_cookie_spec (p : jsstring) :
  HumanLike.keep_cookie p = true <-> ~ dropped_entry p.
Proof.
  unfold HumanLike.keep_cookie, dropped_entry.
  rewrite !andb_true_iff, !negb_true_iff, <- !not_true_iff_false, !startsWith_prefix.
  split.
  - intros [[[H0 H1] H2] H3] [->|[Hp|[Hp|Hp]]]; [done | by apply H1 | by apply H2 | by apply H3].
  - intros H. split; [split; [split|]|].
    + destruct p; [|done]. exfalso. apply H. by left.
    + intros Hp. apply H. right. by left.
    + intros Hp. apply H. right. right. by left.
    + intros Hp. apply H. right. right. by right.
Qed.

Lemma filter_keep_cookie (l : list jsstring) :
  List.filter HumanLike.keep_cookie l = filter (fun p => ~ dropped_entry p) l.
Proof.
  induction l as [|p l IH]; [done|].
  cbn [List.filter]. rewrite IH.
  destruct (HumanLike.keep_cookie p) eqn:Hk.
  - rewrite filter_cons_True; [done|]. by apply keep_cookie_spec.
  - rewrite filter_cons_False; [done|]. rewrite <- keep_cookie_spec. congruence.
Qed.

(** C6 (as stated): prefixes are compared case-sensitively, so an entry
    spelled [Path=...] or [HTTPONLY] survives in part_000; the extraction of
    mcp-tool.ts drops nothing at all, not even a lower-case [path=]. *)
Lemma C6_attribute_fragments_survive :
  HumanLike.extractCookies (Some (lit "sid=1, Path=/, HTTPONLY"))
    = inr (lit "sid=1; Path=/; HTTPONLY")
  /\ includes (lit "sid=1; Path=/; HTTPONLY") (lit "Path=") = true
  /\ McpTool.simple_cookies (lit "sid=1,path=/; secure") = lit "sid=1; path=/"
  /\ includes (lit "sid=1; path=/") (lit "path=") = true.
Proof. vm_compute. repeat split. Qed.

(** C6 (amended).  [extractCookies] of part_000 never throws; it returns
    the empty string for an absent header; for a header [h] it cuts [h] at
    its commas (the entries, glued with commas, give [h] back, and none
    contains a comma), keeps of each entry the run before the first
    semicolon, trimmed, drops the entries that are then empty or have
    [path], [expires] or [HttpOnly] as a prefix -- a prefix code unit for
    code unit, so that [Path] or [HTTPONLY] is no such prefix -- and
    returns the others, in their order, joined with [; ].  The extraction
    inside [getInitialCookies] of mcp-tool.ts cuts the same way and joins
    the run before the first semicolon of every entry, without trimming
    and without dropping anything. *)
Theorem C6_cookie_extractor :
  forall (h : jsstring),
    let entries := split h (lit ",") in
    let name_values := map (fun e => trim (fst (span_not 59 e))) entries in
    (join entries (lit ",") = h /\ Forall (fun e => 44%N ∉ e) entries)
    /\ HumanLike.extractCookies (Some h)
       = inr (join (filter (fun p => ~ dropped_entry p) name_values) (lit "; "))
    /\ Forall (fun e => (59%N ∉ fst (span_not 59 e))
                        /\ fst (span_not 59 e) `prefix_of` e
                        /\ (fst (span_not 59 e) = e
                            \/ (fst (span_not 59 e) ++ [59%N]) `prefix_of` e)) entries
    /\ ~ dropped_entry (lit "Path=/") /\ ~ dropped_entry (lit "HTTPONLY")
    /\ dropped_entry (lit "path=/") /\ dropped_entry (lit "HttpOnly")
    /\ HumanLike.extractCookies None = inr []
    /\ (forall o, exists s, HumanLike.extractCookies o = inr s)
    /\ McpTool.simple_cookies h
       = join (map (fun e => fst (span_not 59 e)) entries) (lit "; ").
Proof.
  intros h entries name_values.
  assert (Hex : HumanLike.extractCookies (Some h)
                = inr (join (filter (fun p => ~ dropped_entry p) name_values) (lit "; "))).
  { unfold HumanLike.extractCookies.
    rewrite (map_result_total _ (fun e => trim (fst (span_not 59 e))))
      by apply name_value_total.
    rewrite filter_keep_cookie. fold entries. fold name_values.
    destruct h; [|reflexivity]. reflexivity. }
  split; [apply (join_split_char 44 h)|].
  split; [exact Hex|].
  split; [apply Forall_forall; intros e _; apply span_not_first|].
  split; [by apply (bool_decide_eq_false_1 (dropped_entry _)); vm_compute|].
  split; [by apply (bool_decide_eq_false_1 (dropped_entry _)); vm_compute|].
  split; [by apply (bool_decide_eq_true_1 (dropped_entry _)); vm_compute|].
  split; [by apply (bool_decide_eq_true_1 (dropped_entry _)); vm_compute|].
  split; [reflexivity|].
  split.
  - intros [h'|]; [|by exists []].
    unfold HumanLike.extractCookies.
    rewrite (map_result_total _ (fun e => trim (fst (span_not 59 e))))
      by apply name_value_total.
    destruct h'; eauto.
  - unfold McpTool.simple_cookies. f_equal. apply map_ext. intros e.
    change (lit ";") with [59%N]. by rewrite head_split_char.
Qed.

(** ** Result extractor *)

Lemma length_test_of_nat (k n : nat) :
  num_geb (num_of_nat k) (num_of_nat n) = (n <=? k)%nat.
Proof.
  unfold num_geb, num_leb, num_of_nat, num_of_Z. rewrite Qle_bool_inject.
  destruct (Nat.leb_spec n k); lia.
Qed.

(** The loop with its accumulator is "take what is still missing from the
    accepted blocks". *)
Lemma parse_loop_take (n : nat) (blocks : list jsstring)
    (acc : list HumanLike.search_result) :
  (length acc <= n)%nat ->
  HumanLike.parse_loop (num_of_nat n) blocks acc
  = acc ++ take (n - length acc) (omap HumanLike.parse_block blocks).
Proof.
  revert acc. induction blocks as [|b rest IH]; intros acc Hlen;
    cbn [HumanLike.parse_loop omap list_omap].
  - by rewrite take_nil, app_nil_r.
  - rewrite length_test_of_nat. destruct (Nat.leb_spec n (length acc)) as [Hfull|Hroom].
    + replace (n - length acc)%nat with 0%nat by lia. by rewrite take_0, app_nil_r.
    + destruct (HumanLike.parse_block b) as [r|]; [|by apply IH].
      rewrite IH by (rewrite length_app; simpl; lia).
      rewrite length_app. simpl.
      replace (n - length acc)%nat with (S (n - (length acc + 1)))%nat by lia.
      simpl. by rewrite <- app_assoc.
Qed.

Lemma length_omap_le {A B} (f : A -> option B) (l : list A) :
  (length (omap f l) <= length l)%nat.
Proof.
  induction l as [|x l IH]; [done|]. cbn [omap list_omap]. fold (omap f l).
  destruct (f x); simpl; lia.
Qed.

Lemma parse_block_url (b : jsstring) (r : HumanLike.search_result) :
  HumanLike.parse_block b = Some r ->
  startsWith (HumanLike.url r) (lit "http") = true
  /\ includes (HumanLike.url r) (lit "duckduckgo.com") = false.
Proof.
  unfold HumanLike.parse_block.
  destruct (first_match HumanLike.url_at b) as [u|]; [|done].
  destruct (startsWith u (lit "http")) eqn:Hh; [|done].
  destruct (includes u (lit "duckduckgo.com")) eqn:Hd; [done|].
  simpl. intros [= <-]. done.
Qed.

Lemma Qle_bool_ceiling (q : Q) (k : nat) :
  Qle_bool q (inject_Z (Z.of_nat k)) = (Z.to_nat (Qceiling q) <=? k)%nat.
Proof.
  destruct (Qle_bool q (inject_Z (Z.of_nat k))) eqn:Hq; symmetry.
  - apply Qle_bool_iff in Hq. apply Nat.leb_le.
    apply Qceiling_resp_le in Hq. rewrite Qceiling_Z in Hq. lia.
  - apply Nat.leb_gt. destruct (Z.le_gt_cases (Qceiling q) (Z.of_nat k)) as [Hle|Hgt]; [|lia].
    exfalso. assert (Hq' : Qle_bool q (inject_Z (Z.of_nat k)) = true); [|congruence].
    apply Qle_bool_iff. eapply Qle_trans; [apply Qle_ceiling|]. by rewrite <- Zle_Qle.
Qed.

(** The loop stops as soon as [k] results are collected, when its length
    test is "at least [k]". *)
Lemma parse_loop_cap (max : jsnum) (k : nat) (blocks : list jsstring)
    (acc : list HumanLike.search_result) :
  (forall n, num_geb (num_of_nat n) max = (k <=? n)%nat) ->
  (length acc <= k)%nat ->
  HumanLike.parse_loop max blocks acc
  = acc ++ take (k - length acc) (omap HumanLike.parse_block blocks).
Proof.
  intros Htest. revert acc. induction blocks as [|b rest IH]; intros acc Hlen;
    cbn [HumanLike.parse_loop omap list_omap].
  - by rewrite take_nil, app_nil_r.
  - rewrite Htest. destruct (Nat.leb_spec k (length acc)) as [Hfull|Hroom].
    + replace (k - length acc)%nat with 0%nat by lia. by rewrite take_0, app_nil_r.
    + destruct (HumanLike.parse_block b) as [r|]; [|by apply IH].
      rewrite IH by (rewrite length_app; simpl; lia).
      rewrite length_app. simpl.
      replace (k - length acc)%nat with (S (k - (length acc + 1)))%nat by lia.
      simpl. by rewrite <- app_assoc.
Qed.

(** ... and never, when the test always fails. *)
Lemma parse_loop_unbounded (max : jsnum) (blocks : list jsstring)
    (acc : list HumanLike.search_result) :
  (forall n, num_geb (num_of_nat n) max = false) ->
  HumanLike.parse_loop max blocks acc = acc ++ omap HumanLike.parse_block blocks.
Proof.
  intros Htest. revert acc. induction blocks as [|b rest IH]; intros acc;
    cbn [HumanLike.parse_loop omap list_omap].
  - by rewrite app_nil_r.
  - rewrite Htest. destruct (HumanLike.parse_block b) as [r|]; [|by apply IH].
    rewrite IH. by rewrite <- app_assoc.
Qed.

(** A finite maximum [q] lets through ceiling-of-[q] results. *)
Lemma parseResults_finite (html : jsstring) (q : Q) :
  HumanLike.parseResults html (Fin q)
  = take (Z.to_nat (Qceiling q))
         (omap HumanLike.parse_block (HumanLike.candidate_blocks html)).
Proof.
  unfold HumanLike.parseResults.
  rewrite (parse_loop_cap _ (Z.to_nat (Qceiling q))); [|intros n|simpl; lia].
  - simpl. by rewrite Nat.sub_0_r.
  - unfold num_geb, num_leb, num_of_nat, num_of_Z. apply Qle_bool_ceiling.
Qed.

(** For every maximum the results are a prefix of the accepted blocks. *)
Lemma parseResults_prefix (html : jsstring) (max : jsnum) :
  exists k, HumanLike.parseResults html max
            = take k (omap HumanLike.parse_block (HumanLike.candidate_blocks html)).
Proof.
  destruct max as [| | |q].
  - exists (length (omap HumanLike.parse_block (HumanLike.candidate_blocks html))).
    unfold HumanLike.parseResults. rewrite parse_loop_unbounded by done.
    by rewrite firstn_all.
  - exists (length (omap HumanLike.parse_block (HumanLike.candidate_blocks html))).
    unfold HumanLike.parseResults. rewrite parse_loop_unbounded by done.
    by rewrite firstn_all.
  - exists 0%nat. unfold HumanLike.parseResults.
    rewrite (parse_loop_cap _ 0); [by rewrite take_0|done|done].
  - eexists. apply parseResults_finite.
Qed.

(** Splitting at a separator, whatever its length: jumping over a matched
    separator, gluing the pieces back, and what a piece cannot contain. *)
Lemma split_go_skip (sep pre rest : jsstring) :
  split_go sep (length pre) (pre ++ rest) = split_go sep 0 rest.
Proof. induction pre as [|c pre IH]; [done|]. exact IH. Qed.

Lemma split_go_match (a : N) (sep' rest : jsstring) :
  split_go (a :: sep') 0 ((a :: sep') ++ rest) = [] :: split_go (a :: sep') 0 rest.
Proof.
  cbn [app split_go].
  rewrite (startsWith_app (a :: sep') rest
           : startsWith (a :: sep' ++ rest) (a :: sep') = true).
  f_equal. replace (length (a :: sep') - 1)%nat with (length sep') by (simpl; lia).
  apply split_go_skip.
Qed.

Lemma startsWith_longer (s p r : jsstring) :
  startsWith s p = true -> startsWith (s ++ r) p = true.
Proof. intros [t ->]%startsWith_true. rewrite <- app_assoc. apply startsWith_app. Qed.

Lemma join_split (sep s : jsstring) :
  sep <> [] ->
  join (split s sep) sep = s /\ Forall (fun p => includes p sep = false) (split s sep).
Proof.
  intros Hsep. destruct sep as [|a sep']; [done|]. clear Hsep. unfold split.
  remember (length s) as n eqn:Hn. assert (Hle : (length s <= n)%nat) by lia. clear Hn.
  revert s Hle. induction n as [|n IH]; intros s Hle.
  { destruct s; [|simpl in Hle; lia]. split; [done|]. by repeat constructor. }
  destruct s as [|c s]; [split; [done|]; by repeat constructor|].
  destruct (startsWith (c :: s) (a :: sep')) eqn:Hst.
  - destruct (startsWith_true _ _ Hst) as [r Hr]. rewrite Hr, split_go_match.
    assert (Hlen : (length r <= n)%nat).
    { apply (f_equal length) in Hr. rewrite length_app in Hr. simpl in *. lia. }
    destruct (IH r Hlen) as [Hj Hf]. split.
    + rewrite join_cons by apply split_go_nonempty. by rewrite Hj.
    + constructor; [done | exact Hf].
  - cbn [split_go]. rewrite Hst.
    assert (Hlen : (length s <= n)%nat) by (simpl in Hle; lia).
    destruct (IH s Hlen) as [Hj Hf].
    destruct (split_go (a :: sep') 0 s) as [|p ps] eqn:Hs;
      [by apply split_go_nonempty in Hs|].
    inversion Hf as [|? ? Hp Hps]; subst. split.
    + destruct ps as [|p' ps']; [by simpl in * |].
      rewrite join_cons in * by done. by rewrite <- app_comm_cons.
    + constructor; [|done]. unfold includes; fold includes. rewrite Hp, orb_false_r.
      apply not_true_iff_false. intros Hcp. apply not_true_iff_false in Hst. apply Hst.
      destruct ps as [|p' ps'].
      * by simpl.
      * rewrite join_cons by done. rewrite app_comm_cons. by apply startsWith_longer.
Qed.

(** C3 (as stated): asked for 2.5 results -- the count a request with
    [count: 2.5] makes the handler pass on -- of a page with six candidate
    blocks, [parseResults] returns three, more than the minimum of the
    requested maximum and the number of blocks. *)
Lemma C3_fractional_maximum_gives_more :
  effective_count no_builtins (VNum (Fin (5 # 2))) = Fin (5 # 2)
  /\ length (HumanLike.candidate_blocks mixed_results_page) = 6%nat
  /\ length (HumanLike.parseResults mixed_results_page (Fin (5 # 2))) = 3%nat
  /\ (5 # 2 <= inject_Z 6)%Q
  /\ (5 # 2 < inject_Z 3)%Q.
Proof.
  split; [vm_compute; reflexivity|]. split; [vm_compute; reflexivity|].
  split; [vm_compute; reflexivity|]. split; [discriminate | reflexivity].
Qed.

(** C3 (amended).  For every document: the candidate blocks are what
    follows each block marker, in document order -- with the text before
    the first marker they give the document back when glued with the
    marker, and none contains the marker; the accepted blocks are those
    that yield a result.  For every maximum, [parseResults] returns a
    leading part of the accepted blocks in that order: the first [n] for a
    whole number [n], so at most min([n], number of candidate blocks); the
    first ceiling of [q] for any finite number [q], which the loop test
    [results.length >= max] makes one more than a fractional [q] allows;
    none for minus infinity, all for NaN and plus infinity.  For every
    maximum there are no more results than candidate blocks, and each
    result has a URL that starts with [http] and does not contain
    [duckduckgo.com]. *)
Theorem C3_parseResults_bounded_ordered_filtered :
  forall (html : jsstring),
    let blocks := HumanLike.candidate_blocks html in
    let accepted := omap HumanLike.parse_block blocks in
    (exists first,
       join (first :: blocks) HumanLike.RESULT_BODY = html
       /\ Forall (fun b => includes b HumanLike.RESULT_BODY = false) (first :: blocks))
    /\ (forall n : nat,
         let results := HumanLike.parseResults html (num_of_nat n) in
         results = take n accepted
         /\ (length results <= Nat.min n (length blocks))%nat)
    /\ (forall q : Q,
         HumanLike.parseResults html (Fin q) = take (Z.to_nat (Qceiling q)) accepted)
    /\ HumanLike.parseResults html NegInf = []
    /\ HumanLike.parseResults html NaN = accepted
    /\ HumanLike.parseResults html PosInf = accepted
    /\ (forall max : jsnum,
         let results := HumanLike.parseResults html max in
         (length results <= length blocks)%nat
         /\ Forall (fun r => startsWith (HumanLike.url r) (lit "http") = true
                             /\ includes (HumanLike.url r) (lit "duckduckgo.com") = false)
                   results).
Proof.
  intros html blocks accepted.
  split; [|split; [|split; [|split; [|split; [|split]]]]].
  - subst blocks. unfold HumanLike.candidate_blocks.
    assert (Hm : HumanLike.RESULT_BODY <> []) by done.
    destruct (join_split HumanLike.RESULT_BODY html Hm) as [Hj Hf].
    destruct (split html HumanLike.RESULT_BODY) as [|first rest] eqn:Hs;
      [by apply split_go_nonempty in Hs|].
    by exists first.
  - intros n results.
    assert (Hres : results = take n accepted).
    { unfold results, HumanLike.parseResults. fold blocks.
      rewrite parse_loop_take by (simpl; lia). simpl. by rewrite Nat.sub_0_r. }
    split; [exact Hres|]. rewrite Hres, length_take.
    pose proof (length_omap_le HumanLike.parse_block blocks). unfold accepted. lia.
  - intros q. apply parseResults_finite.
  - unfold HumanLike.parseResults. rewrite (parse_loop_cap _ 0); [by rewrite take_0|done|done].
  - unfold HumanLike.parseResults. by rewrite parse_loop_unbounded.
  - unfold HumanLike.parseResults. by rewrite parse_loop_unbounded.
  - intros max results. destruct (parseResults_prefix html max) as [k Hk].
    subst results. rewrite Hk. fold blocks. fold accepted. split.
    + rewrite length_take. pose proof (length_omap_le HumanLike.parse_block blocks).
      unfold accepted. lia.
    + apply Forall_take, Forall_forall. intros r Hin.
      apply list_elem_of_omap in Hin as (b & _ & Hb). by apply parse_block_url in Hb.
Qed.

(** ** Session manager *)

Lemma extractCookies_returns (o : option jsstring) :
  exists s, HumanLike.extractCookies o = inr s.
Proof.
  destruct o as [h|]; [|by exists []].
  unfold HumanLike.extractCookies.
  rewrite (map_result_total _ (fun e => trim (fst (span_not 59 e))))
    by apply name_value_total.
  destruct h; eauto.
Qed.

Ltac run_monad :=
  unfold bind, gets, ret, throw, try_catch, sleep, console, emit, update_heap, modify,
    fetch, DDG_search, Math_random, text_of in *; cbn in *.

Lemma HumanLike_reuse E ip now (w : HumanLike.W) s :
  HumanLike.SESSION_STORE (heap w) !! ip = Some s ->
  now - HumanLike.timestamp s <= HumanLike.SESSION_TTL ->
  HumanLike.getOrCreate E ip now w = (w, inr (HumanLike.cookies s, HumanLike.userAgent s)).
Proof.
  intros Hs Hfresh. unfold HumanLike.getOrCreate. run_monad. rewrite Hs.
  destruct (HumanLike.SESSION_TTL <? now - HumanLike.timestamp s) eqn:Hexp; [lia|].
  reflexivity.
Qed.

Lemma HumanLike_expired_as_absent E ip now (w : HumanLike.W) s :
  HumanLike.SESSION_STORE (heap w) !! ip = Some s ->
  HumanLike.SESSION_TTL < now - HumanLike.timestamp s ->
  HumanLike.getOrCreate E ip now w
  = HumanLike.getOrCreate E ip now
      (HumanLike_with_sessions w (delete ip (HumanLike.SESSION_STORE (heap w)))).
Proof.
  intros Hs Hexp. unfold HumanLike.getOrCreate, HumanLike.delete_session. run_monad.
  rewrite Hs, lookup_delete_eq.
  destruct (HumanLike.SESSION_TTL <? now - HumanLike.timestamp s) eqn:Hlt; [|lia].
  reflexivity.
Qed.

Lemma HumanLike_create E ip now (w : HumanLike.W) :
  HumanLike.SESSION_STORE (heap w) !! ip = None ->
  let ua := HumanLike.pick_user_agent (random E (S (rand_calls w))) in
  let run := HumanLike.getOrCreate E ip now w in
  trace (fst run)
  = trace w ++ [EvSleep (random E (rand_calls w) * 1000 + 300);
                EvFetch (HumanLike.landing_request ua)]
  /\ match network E (S (length (trace w))) (HumanLike.landing_request ua) with
     | inl e =>
         snd run = inl e
         /\ HumanLike.SESSION_STORE (heap (fst run)) = HumanLike.SESSION_STORE (heap w)
     | inr res =>
         exists fresh,
           HumanLike.extractCookies (res_set_cookie res) = inr fresh
           /\ snd run = inr (fresh, ua)
           /\ HumanLike.SESSION_STORE (heap (fst run))
              = <[ip := {| HumanLike.cookies := fresh; HumanLike.userAgent := ua;
                           HumanLike.timestamp := now |}]>
                  (HumanLike.SESSION_STORE (heap w))
     end.
Proof.
  intros Hs ua run. subst run.
  unfold HumanLike.getOrCreate, HumanLike.establishSession, HumanLike.set_session.
  run_monad. rewrite Hs. cbn.
  rewrite length_app, Nat.add_comm. cbn. fold ua.
  destruct (network E (S (length (trace w))) (HumanLike.landing_request ua)) as [e|res]; cbn.
  - rewrite <- app_assoc. done.
  - destruct (extractCookies_returns (res_set_cookie res)) as [fresh Hf].
    rewrite Hf. cbn. rewrite <- app_assoc. split; [done|]. by exists fresh.
Qed.

Lemma McpTool_reuse E ip now (w : McpTool.W) s :
  McpTool.SESSION_STORE (heap w) !! ip = Some s ->
  now - McpTool.timestamp s <= McpTool.SESSION_TTL ->
  McpTool.cookies s <> [] ->
  McpTool.getOrCreate E ip now w = (w, inr (McpTool.cookies s)).
Proof.
  intros Hs Hfresh Hne. unfold McpTool.getOrCreate. run_monad. rewrite Hs.
  destruct (McpTool.SESSION_TTL <? now - McpTool.timestamp s) eqn:Hexp; [lia|].
  cbn. by destruct (McpTool.cookies s).
Qed.

Lemma McpTool_expired_as_absent E ip now (w : McpTool.W) s :
  McpTool.SESSION_STORE (heap w) !! ip = Some s ->
  McpTool.SESSION_TTL < now - McpTool.timestamp s ->
  McpTool.getOrCreate E ip now w
  = McpTool.getOrCreate E ip now
      (McpTool_with_sessions w (delete ip (McpTool.SESSION_STORE (heap w)))).
Proof.
  intros Hs Hexp. unfold McpTool.getOrCreate, McpTool.delete_session. run_monad.
  rewrite Hs, lookup_delete_eq.
  destruct (McpTool.SESSION_TTL <? now - McpTool.timestamp s) eqn:Hlt; [|lia].
  reflexivity.
Qed.

Lemma McpTool_create E ip now (w : McpTool.W) :
  McpTool.SESSION_STORE (heap w) !! ip = None ->
  let landing := network E (length (trace w)) McpTool.landing_request in
  let fresh :=
    match landing with
    | inr res =>
        match res_set_cookie res with
        | Some ((_ :: _) as h) => McpTool.simple_cookies h
        | _ => []
        end
    | inl _ => []
    end in
  let run := McpTool.getOrCreate E ip now w in
  snd run = inr fresh
  /\ (exists warning, trace (fst run) = trace w ++ EvFetch McpTool.landing_request :: warning)
  /\ McpTool.SESSION_STORE (heap (fst run))
     = match fresh with
       | [] => McpTool.SESSION_STORE (heap w)
       | _ => <[ip := {| McpTool.cookies := fresh; McpTool.timestamp := now |}]>
                (McpTool.SESSION_STORE (heap w))
       end.
Proof.
  intros Hs landing fresh run. subst run fresh landing.
  unfold McpTool.getOrCreate, McpTool.getInitialCookies, McpTool.set_session.
  run_monad. rewrite Hs. cbn.
  destruct (network E (length (trace w)) McpTool.landing_request) as [e|res]; cbn.
  - split; [done|]. split; [|done]. eexists. by rewrite <- app_assoc.
  - destruct (res_set_cookie res) as [[|c h]|].
    + cbn. split; [done|]. split; [|done]. by exists [].
    + generalize (McpTool.simple_cookies (c :: h)). intros [|c' h']; cbn.
      * split; [done|]. split; [|done]. by exists [].
      * split; [done|]. split; [|done]. by exists [].
    + cbn. split; [done|]. split; [|done]. by exists [].
Qed.

Lemma McpTool_getOrCreate_keeps_nonempty E ip now :
  keeps sessions_nonempty (McpTool.getOrCreate E ip now).
Proof.
  unfold McpTool.getOrCreate, McpTool.getInitialCookies, sleep, console,
    McpTool.set_session, McpTool.delete_session.
  repeat keeps_step.
  - apply keeps_update. intros h Hh. by apply map_Forall_delete.
  - apply keeps_update. intros h Hh. by apply map_Forall_insert_2.
Qed.

Lemma McpTool_handler_keeps_nonempty E req t_rate t_search :
  keeps sessions_nonempty (McpTool.handler E req t_rate t_search).
Proof.
  unfold McpTool.handler, McpTool.performSearchWithSession, McpTool.searchWithFallback,
    McpTool.relay_if_blocked, McpTool.proxy_fallback, McpTool.checkRateLimit,
    McpTool.set_rate, McpTool.delete_rate,
    sleep, console.
  keeps_walk McpTool_getOrCreate_keeps_nonempty.
Qed.

(** C2 (as stated): the client has an expired session and the landing
    page cannot be fetched, or is fetched and sets no cookie.  Get-or-create
    deletes the old session, but no fresh one is established: in part_000
    the call throws when the fetch fails; in mcp-tool.ts it returns the
    empty cookie string in both cases; and the store holds no session for
    the client afterwards. *)
Lemma C2_expired_session_is_not_always_replaced :
  let no_cookie_env :=
    {| builtin := no_builtins; random := fun _ => 0%Q;
       network := fun _ _ => inr (page []);
       library := fun _ _ _ => inr [] |} in
  let h := HumanLike.getOrCreate offline_env CLIENT 800000 HumanLike_visited in
  let m := McpTool.getOrCreate offline_env CLIENT 800000 McpTool_visited in
  let m' := McpTool.getOrCreate no_cookie_env CLIENT 800000 McpTool_visited in
  HumanLike.SESSION_TTL < 800000 - HumanLike.timestamp HumanLike_old_session
  /\ McpTool.SESSION_TTL < 800000 - McpTool.timestamp McpTool_old_session
  /\ snd h = inl (lit "fetch failed")
  /\ HumanLike.SESSION_STORE (heap (fst h)) !! CLIENT = None
  /\ snd m = inr []
  /\ McpTool.SESSION_STORE (heap (fst m)) !! CLIENT = None
  /\ snd m' = inr []
  /\ McpTool.SESSION_STORE (heap (fst m')) !! CLIENT = None.
Proof. vm_compute. repeat split. Qed.

(** C2 (amended).  Get-or-create of the session manager, in part_000 (TTL
    12 min) and in mcp-tool.ts (TTL 10 min).  When [now - timestamp] of the
    stored session exceeds the TTL the call behaves exactly as on the store
    with that session deleted.  It fetches the landing page
    [https://duckduckgo.com] with a request that carries no Cookie header.
    In part_000, when the fetch is answered, the cookies extracted from
    the Set-Cookie header of the answer are returned and stored as a fresh
    session stamped [now]; when the fetch fails the call throws that
    failure and no session is stored for the client.  In mcp-tool.ts, when
    the fetch is answered with a non-empty Set-Cookie header from which a
    non-empty cookie string comes out, that string is returned and stored
    as a fresh session stamped [now]; otherwise the empty string is
    returned and no session is stored for the client.  In no case is the
    old session left in the store or its cookie string handed on.  A stored
    session within the TTL is returned as it is, with the world untouched
    and no request made.  In mcp-tool.ts a session is only ever stored with
    a non-empty cookie string, an invariant of every handler run, which is
    what its reuse test there relies on. *)
Theorem C2_expired_session_replaced_fresh_session_reused :
  forall (E : env) (ip : jsstring) (now : Z),
    (forall (w : HumanLike.W) (s : HumanLike.session),
       HumanLike.SESSION_STORE (heap w) !! ip = Some s ->
       let run := HumanLike.getOrCreate E ip now w in
       let ua := HumanLike.pick_user_agent (random E (S (rand_calls w))) in
       (HumanLike.SESSION_TTL < now - HumanLike.timestamp s ->
          run = HumanLike.getOrCreate E ip now
                  (HumanLike_with_sessions w (delete ip (HumanLike.SESSION_STORE (heap w))))
          /\ trace (fst run)
             = trace w ++ [EvSleep (random E (rand_calls w) * 1000 + 300);
                           EvFetch (HumanLike.landing_request ua)]
          /\ req_url (HumanLike.landing_request ua) = lit "https://duckduckgo.com"
          /\ assoc (lit "Cookie") (req_headers (HumanLike.landing_request ua)) = None
          /\ match network E (S (length (trace w))) (HumanLike.landing_request ua) with
             | inl e =>
                 snd run = inl e
                 /\ HumanLike.SESSION_STORE (heap (fst run)) !! ip = None
             | inr res =>
                 exists fresh,
                   HumanLike.extractCookies (res_set_cookie res) = inr fresh
                   /\ snd run = inr (fresh, ua)
                   /\ HumanLike.SESSION_STORE (heap (fst run)) !! ip
                      = Some {| HumanLike.cookies := fresh; HumanLike.userAgent := ua;
                                HumanLike.timestamp := now |}
             end)
       /\ (now - HumanLike.timestamp s <= HumanLike.SESSION_TTL ->
           run = (w, inr (HumanLike.cookies s, HumanLike.userAgent s))))
    /\ (forall (w : McpTool.W) (s : McpTool.session),
       McpTool.SESSION_STORE (heap w) !! ip = Some s ->
       let run := McpTool.getOrCreate E ip now w in
       let fresh :=
         match network E (length (trace w)) McpTool.landing_request with
         | inr res =>
             match res_set_cookie res with
             | Some ((_ :: _) as h) => McpTool.simple_cookies h
             | _ => []
             end
         | inl _ => []
         end in
       (McpTool.SESSION_TTL < now - McpTool.timestamp s ->
          run = McpTool.getOrCreate E ip now
                  (McpTool_with_sessions w (delete ip (McpTool.SESSION_STORE (heap w))))
          /\ (exists warning,
                trace (fst run) = trace w ++ EvFetch McpTool.landing_request :: warning)
          /\ req_url McpTool.landing_request = lit "https://duckduckgo.com"
          /\ assoc (lit "Cookie") (req_headers McpTool.landing_request) = None
          /\ snd run = inr fresh
          /\ McpTool.SESSION_STORE (heap (fst run)) !! ip
             = match fresh with
               | [] => None
               | _ => Some {| McpTool.cookies := fresh; McpTool.timestamp := now |}
               end)
       /\ (now - McpTool.timestamp s <= McpTool.SESSION_TTL ->
           McpTool.cookies s <> [] ->
           run = (w, inr (McpTool.cookies s))))
    /\ (sessions_nonempty McpTool.no_globals
        /\ forall req t_rate t_search,
             keeps sessions_nonempty (McpTool.handler E req t_rate t_search)).
Proof.
  intros E ip now. split; [|split].
  - intros w s Hs run ua. split.
    + intros Hexp. subst run.
      rewrite (HumanLike_expired_as_absent E ip now w s Hs Hexp).
      set (w0 := HumanLike_with_sessions w (delete ip (HumanLike.SESSION_STORE (heap w)))).
      assert (H0 : HumanLike.SESSION_STORE (heap w0) !! ip = None)
        by apply lookup_delete_eq.
      destruct (HumanLike_create E ip now w0 H0) as [Htr Hout].
      split; [reflexivity|]. split; [exact Htr|].
      split; [reflexivity|]. split; [reflexivity|].
      change (trace w0) with (trace w) in Hout. change (rand_calls w0) with (rand_calls w) in Hout.
      fold ua in Hout.
      destruct (network E (S (length (trace w))) (HumanLike.landing_request ua)) as [e|res].
      * destruct Hout as [Hthrow Hstore]. split; [exact Hthrow|]. by rewrite Hstore.
      * destruct Hout as (fresh & Hf & Hret & Hstore). exists fresh.
        split; [exact Hf|]. split; [exact Hret|]. rewrite Hstore. apply lookup_insert_eq.
    + intros Hfresh. by apply HumanLike_reuse.
  - intros w s Hs run fresh. split.
    + intros Hexp. subst run.
      rewrite (McpTool_expired_as_absent E ip now w s Hs Hexp).
      set (w0 := McpTool_with_sessions w (delete ip (McpTool.SESSION_STORE (heap w)))).
      assert (H0 : McpTool.SESSION_STORE (heap w0) !! ip = None)
        by apply lookup_delete_eq.
      destruct (McpTool_create E ip now w0 H0) as (Hret & Htr & Hstore).
      change (trace w0) with (trace w) in *. fold fresh in Hret, Hstore.
      split; [reflexivity|]. split; [exact Htr|].
      split; [reflexivity|]. split; [reflexivity|]. split; [exact Hret|].
      rewrite Hstore. destruct fresh; [exact H0 | apply lookup_insert_eq].
    + intros Hfresh Hne. by apply McpTool_reuse.
  - split; [apply map_Forall_empty|]. intros req t_rate t_search.
    apply McpTool_handler_keeps_nonempty.
Qed.

(** A session created at time 0, with the landing page answering
    [Set-Cookie: sid=fresh; Path=/; HttpOnly]: at 800 s it is replaced by a
    session with the cookie [sid=fresh] stamped 800 s, at 1 s it is reused,
    in both files. *)
Lemma C2_expired_session_replaced_fresh_session_reused_witness :
  let h := HumanLike.getOrCreate friendly_env CLIENT 800000 HumanLike_visited in
  let m := McpTool.getOrCreate friendly_env CLIENT 800000 McpTool_visited in
  let ua := lit "Mozilla/5.0 (Windows NT 10.0; Win64; x64) AppleWebKit/537.36 (KHTML, like Gecko) Chrome/120.0.0.0 Safari/537.36" in
  (snd h = inr (lit "sid=fresh", ua)
   /\ HumanLike.SESSION_STORE (heap (fst h)) !! CLIENT
      = Some {| HumanLike.cookies := lit "sid=fresh"; HumanLike.userAgent := ua;
                HumanLike.timestamp := 800000 |})
  /\ HumanLike.getOrCreate friendly_env CLIENT 1000 HumanLike_visited
     = (HumanLike_visited, inr (lit "sid=old", lit "UA"))
  /\ (snd m = inr (lit "sid=fresh")
      /\ McpTool.SESSION_STORE (heap (fst m)) !! CLIENT
         = Some {| McpTool.cookies := lit "sid=fresh"; McpTool.timestamp := 800000 |})
  /\ McpTool.getOrCreate friendly_env CLIENT 1000 McpTool_visited
     = (McpTool_visited, inr (lit "sid=old")).
Proof.
  intros h m ua.
  assert (Ha : HumanLike.SESSION_STORE (heap HumanLike_visited) !! CLIENT
               = Some HumanLike_old_session) by apply lookup_insert_eq.
  assert (Hb : McpTool.SESSION_STORE (heap McpTool_visited) !! CLIENT
               = Some McpTool_old_session) by apply lookup_insert_eq.
  destruct (C2_expired_session_replaced_fresh_session_reused friendly_env CLIENT 800000)
    as (Hlate_a & Hlate_b & _).
  destruct (C2_expired_session_replaced_fresh_session_reused friendly_env CLIENT 1000)
    as (Hsoon_a & Hsoon_b & _).
  destruct (Hlate_a _ _ Ha) as [Hexp_a _]. destruct (Hsoon_a _ _ Ha) as [_ Hreuse_a].
  destruct (Hlate_b _ _ Hb) as [Hexp_b _]. destruct (Hsoon_b _ _ Hb) as [_ Hreuse_b].
  split; [|split; [|split]].
  - destruct Hexp_a as (_ & _ & _ & _ & Hout); [vm_compute; reflexivity|].
    change (network friendly_env (S (length (trace HumanLike_visited)))
              (HumanLike.landing_request
                 (HumanLike.pick_user_agent
                    (random friendly_env (S (rand_calls HumanLike_visited))))))
      with (inr landing_page : result response) in Hout.
    destruct Hout as (fresh & Hf & Hret & Hstore).
    assert (Hfresh : fresh = lit "sid=fresh")
      by (vm_compute in Hf; by injection Hf as <-).
    subst fresh. split; [exact Hret | exact Hstore].
  - apply Hreuse_a. vm_compute. discriminate.
  - destruct Hexp_b as (_ & _ & _ & _ & Hret & Hstore); [vm_compute; reflexivity|].
    split; [exact Hret | exact Hstore].
  - apply Hreuse_b; [vm_compute; discriminate | vm_compute; discriminate].
Defined.

(** ** Search orchestration *)

Lemma HumanLike_with_sessions_id (w : HumanLike.W) :
  HumanLike_with_sessions w (HumanLike.SESSION_STORE (heap w)) = w.
Proof. by destruct w as [[ss rl] tr rc]. Qed.

Lemma McpTool_with_sessions_id (w : McpTool.W) :
  McpTool_with_sessions w (McpTool.SESSION_STORE (heap w)) = w.
Proof. by destruct w as [[ss rl] tr rc]. Qed.

(** Without a reusable session, get-or-create runs as on the store without
    the client's entry. *)
Lemma HumanLike_not_reusable_as_absent E ip now (w : HumanLike.W) :
  HumanLike_reusable w ip now = None ->
  HumanLike.getOrCreate E ip now w
  = HumanLike.getOrCreate E ip now
      (HumanLike_with_sessions w (delete ip (HumanLike.SESSION_STORE (heap w)))).
Proof.
  unfold HumanLike_reusable. intros Hr.
  destruct (HumanLike.SESSION_STORE (heap w) !! ip) as [s|] eqn:Hs.
  - destruct (HumanLike.SESSION_TTL <? now - HumanLike.timestamp s) eqn:Hexp; [|done].
    apply (HumanLike_expired_as_absent E ip now w s Hs). lia.
  - rewrite delete_id by done. by rewrite HumanLike_with_sessions_id.
Qed.

Lemma McpTool_not_reusable_as_absent E ip now (w : McpTool.W) :
  McpTool_reusable w ip now = None ->
  McpTool.getOrCreate E ip now w
  = McpTool.getOrCreate E ip now
      (McpTool_with_sessions w (delete ip (McpTool.SESSION_STORE (heap w)))).
Proof.
  unfold McpTool_reusable. intros Hr.
  destruct (McpTool.SESSION_STORE (heap w) !! ip) as [s|] eqn:Hs.
  - destruct (McpTool.SESSION_TTL <? now - McpTool.timestamp s) eqn:Hexp; [|done].
    apply (McpTool_expired_as_absent E ip now w s Hs). lia.
  - rewrite delete_id by done. by rewrite McpTool_with_sessions_id.
Qed.

(** The search phase of mcp-tool.ts: what is asked of the library and what
    comes out, by the answers of the library. *)
Lemma searchWithFallback_outcome E q cookies (w : McpTool.W) :
  let i := S (length (trace w)) in
  let nap := EvSleep (random E (rand_calls w) * 1000 + 500) in
  let primary := EvSearch q (McpTool.getRealisticHeaders cookies) in
  let retry := EvSearch q (McpTool.getRealisticHeaders []) in
  let run := McpTool.searchWithFallback E q cookies w in
  heap (fst run) = heap w
  /\ match library E i q (McpTool.getRealisticHeaders cookies) with
     | inr results => trace (fst run) = trace w ++ [nap; primary] /\ snd run = inr results
     | inl e =>
         match cookies with
         | [] => trace (fst run) = trace w ++ [nap; primary] /\ snd run = inl e
         | _ =>
             trace (fst run) = trace w ++ [nap; primary; retry]
             /\ snd run = match library E (S i) q (McpTool.getRealisticHeaders []) with
                          | inr results => inr results
                          | inl _ => inl e
                          end
         end
     end.
Proof.
  intros i nap primary retry run. subst run i.
  unfold McpTool.searchWithFallback. run_monad. rewrite !last_length.
  destruct (library E (S (length (trace w))) q (McpTool.getRealisticHeaders cookies))
    as [e|results]; cbn.
  - destruct cookies as [|c cookies]; cbn.
    + split; [done|]. split; [|done]. by rewrite <- app_assoc.
    + rewrite !last_length.
      destruct (library E (S (S (length (trace w)))) q (McpTool.getRealisticHeaders []))
        as [e2|results]; cbn.
      * split; [done|]. split; [|done]. by rewrite <- !app_assoc.
      * split; [done|]. split; [|done]. by rewrite <- !app_assoc.
  - split; [done|]. split; [|done]. by rewrite <- app_assoc.
Qed.

(** The search phase of part_000: one delay, one request, and an outcome
    that is a function of the one response. *)
Lemma fetchResults_outcome E q count cookies ua (w : HumanLike.W) :
  let run := HumanLike.fetchResults E q count cookies ua w in
  let nap := EvSleep (random E (rand_calls w) * 1200 + 400) in
  heap (fst run) = heap w
  /\ match encodeURIComponent (builtin E) q with
     | None => trace (fst run) = trace w ++ [nap] /\ snd run = inl (lit "URI malformed")
     | Some q' =>
         trace (fst run)
         = trace w ++ [nap; EvFetch (HumanLike.search_request q' cookies ua)]
         /\ snd run
            = match network E (S (length (trace w))) (HumanLike.search_request q' cookies ua) with
              | inl e => inl e
              | inr res =>
                  if negb (res_ok res)
                  then inl (lit "HTTP " ++ digits (Z.to_N (res_status res)))
                  else match res_text res with
                       | inl e => inl e
                       | inr html =>
                           if includes html (lit "blocked your request")
                              || includes html (lit "captcha")
                           then inl (lit "Blocked by anti-bot system")
                           else inr (HumanLike.parseResults html count)
                       end
              end
     end.
Proof.
  intros run nap. subst run nap.
  unfold HumanLike.fetchResults, encodeURI_or_throw. run_monad. rewrite ?last_length.
  destruct (encodeURIComponent (builtin E) q) as [q'|]; cbn; [|done].
  rewrite ?last_length.
  destruct (network E (S (length (trace w))) (HumanLike.search_request q' cookies ua))
    as [e|res]; cbn.
  - split; [done|]. split; [|done]. by rewrite <- app_assoc.
  - destruct (negb (res_ok res)); cbn.
    + split; [done|]. split; [|done]. by rewrite <- app_assoc.
    + destruct (res_text res) as [e|html]; cbn.
      * split; [done|]. split; [|done]. by rewrite <- app_assoc.
      * destruct (includes html (lit "blocked your request") || includes html (lit "captcha"));
          cbn; (split; [done|]; split; [|done]; by rewrite <- app_assoc).
Qed.

Lemma performSearchWithSession_after_session E q count ip now (w w1 : McpTool.W) cookies :
  McpTool.getOrCreate E ip now w = (w1, inr cookies) ->
  McpTool.performSearchWithSession E q count ip now w
  = McpTool.searchWithFallback E q cookies w1.
Proof. intros Hg. unfold McpTool.performSearchWithSession, bind. by rewrite Hg. Qed.

(** C7 (as stated, on part_000): the stored session carries a cookie, the
    upstream blocks the request that carries it and would answer the same
    request without it with two results; [humanLikeSearch] makes the one
    request, throws, and the handler reports the failure. *)
Lemma C7_part_000_does_not_retry :
  let E := cookie_blocking_env in
  let run := HumanLike.humanLikeSearch E (lit "rust") (num_of_Z 10) CLIENT 1000
               HumanLike_visited in
  snd run = inl (lit "Blocked by anti-bot system")
  /\ trace (fst run)
     = [EvSleep (0 * 1200 + 400);
        EvFetch (HumanLike.search_request (lit "rust") (lit "sid=old") (lit "UA"))]
  /\ (exists res,
        network E 2 (HumanLike.search_request (lit "rust") [] (lit "UA")) = inr res
        /\ res_text res = inr two_results_page
        /\ length (HumanLike.parseResults two_results_page (num_of_Z 10)) = 2%nat)
  /\ (exists text,
        snd (HumanLike.handler E (post_from CLIENT (search_body (lit "rust"))) 1000 1000
               HumanLike_visited)
        = inr {| status := 200; body := ToolResult text true |}).
Proof.
  split; [vm_compute; reflexivity|]. split; [vm_compute; reflexivity|]. split.
  - eexists. split; [vm_compute; reflexivity|]. split; vm_compute; reflexivity.
  - eexists. vm_compute. reflexivity.
Qed.

(** C7 (amended).  In [performSearchWithSession] of mcp-tool.ts, when the
    session phase hands over a non-empty cookie string and the search made
    with it fails, the same query is searched once more without cookies,
    and if that retry returns results they are the result of the call.
    [humanLikeSearch] of part_000 has no retry: its search phase makes at
    most one request, and the outcome is decided by that one response. *)
Theorem C7_cookieless_retry_in_mcp_tool_only :
  forall (E : env) (q : jsstring) (count : jsnum) (ip : jsstring) (now : Z),
    (forall (w w1 : McpTool.W) (cookies e : jsstring),
       McpTool.getOrCreate E ip now w = (w1, inr cookies) ->
       cookies <> [] ->
       library E (S (length (trace w1))) q (McpTool.getRealisticHeaders cookies) = inl e ->
       let run := McpTool.performSearchWithSession E q count ip now w in
       trace (fst run)
       = trace w1 ++ [EvSleep (random E (rand_calls w1) * 1000 + 500);
                      EvSearch q (McpTool.getRealisticHeaders cookies);
                      EvSearch q (McpTool.getRealisticHeaders [])]
       /\ forall results,
            library E (S (S (length (trace w1)))) q (McpTool.getRealisticHeaders [])
            = inr results ->
            snd run = inr results)
    /\ (forall (w : HumanLike.W) (cookies ua : jsstring),
       let run := HumanLike.fetchResults E q count cookies ua w in
       let nap := EvSleep (random E (rand_calls w) * 1200 + 400) in
       match encodeURIComponent (builtin E) q with
       | None => trace (fst run) = trace w ++ [nap] /\ snd run = inl (lit "URI malformed")
       | Some q' =>
           trace (fst run)
           = trace w ++ [nap; EvFetch (HumanLike.search_request q' cookies ua)]
           /\ snd run
              = match network E (S (length (trace w)))
                        (HumanLike.search_request q' cookies ua) with
                | inl e => inl e
                | inr res =>
                    if negb (res_ok res)
                    then inl (lit "HTTP " ++ digits (Z.to_N (res_status res)))
                    else match res_text res with
                         | inl e => inl e
                         | inr html =>
                             if includes html (lit "blocked your request")
                                || includes html (lit "captcha")
                             then inl (lit "Blocked by anti-bot system")
                             else inr (HumanLike.parseResults html count)
                         end
                end
       end).
Proof.
  intros E q count ip now. split.
  - intros w w1 cookies e Hg Hne Hfail run. subst run.
    rewrite (performSearchWithSession_after_session E q count ip now w w1 cookies Hg).
    destruct (searchWithFallback_outcome E q cookies w1) as [_ Hout].
    rewrite Hfail in Hout. destruct cookies as [|c cookies]; [done|].
    destruct Hout as [Htr Hres]. split; [exact Htr|].
    intros results Hretry. by rewrite Hres, Hretry.
  - intros w cookies ua. apply fetchResults_outcome.
Qed.

(** The stored cookie makes the library fail; the retry without it finds
    the two results. *)
Lemma C7_cookieless_retry_in_mcp_tool_only_witness :
  snd (McpTool.performSearchWithSession cookie_blocking_env (lit "rust") (num_of_Z 10)
         CLIENT 1000 McpTool_visited)
  = inr two_library_results.
Proof.
  destruct (C7_cookieless_retry_in_mcp_tool_only cookie_blocking_env (lit "rust")
              (num_of_Z 10) CLIENT 1000) as [Hmcp _].
  apply (Hmcp McpTool_visited McpTool_visited (lit "sid=old")
           (lit "DDG detected an anomaly: blocked")).
  - vm_compute. reflexivity.
  - vm_compute. discriminate.
  - vm_compute. reflexivity.
  - vm_compute. reflexivity.
Defined.

(** C10.  In [performSearchWithSession], when the search made with a
    non-empty cookie string fails with [e] and the retry without cookies
    fails too, with whatever error, the call throws [e], the error of the
    first attempt. *)
Theorem C10_original_error_is_rethrown :
  forall (E : env) (q : jsstring) (count : jsnum) (ip : jsstring) (now : Z)
         (w w1 : McpTool.W) (cookies e e2 : jsstring),
    McpTool.getOrCreate E ip now w = (w1, inr cookies) ->
    cookies <> [] ->
    library E (S (length (trace w1))) q (McpTool.getRealisticHeaders cookies) = inl e ->
    library E (S (S (length (trace w1)))) q (McpTool.getRealisticHeaders []) = inl e2 ->
    snd (McpTool.performSearchWithSession E q count ip now w) = inl e.
Proof.
  intros E q count ip now w w1 cookies e e2 Hg Hne Hfail Hretry.
  rewrite (performSearchWithSession_after_session E q count ip now w w1 cookies Hg).
  destruct (searchWithFallback_outcome E q cookies w1) as [_ Hout].
  rewrite Hfail in Hout. destruct cookies as [|c cookies]; [done|].
  destruct Hout as [_ Hres]. by rewrite Hres, Hretry.
Qed.

(** Both attempts fail; the message of the first is the one thrown. *)
Lemma C10_original_error_is_rethrown_witness :
  snd (McpTool.performSearchWithSession failing_env (lit "rust") (num_of_Z 10)
         CLIENT 1000 McpTool_visited)
  = inl (lit "primary search failed").
Proof.
  apply (C10_original_error_is_rethrown failing_env (lit "rust") (num_of_Z 10) CLIENT 1000
           McpTool_visited McpTool_visited (lit "sid=old")
           (lit "primary search failed") (lit "retry failed")).
  - vm_compute. reflexivity.
  - vm_compute. discriminate.
  - vm_compute. reflexivity.
  - vm_compute. reflexivity.
Defined.

(** ** Landing-page failure *)

(** C5 (as stated, on part_000): no session is stored and the network is
    down; the rejection of the landing-page fetch leaves [humanLikeSearch]
    as it is, no search request is made, and the handler answers with the
    error flag set. *)
Lemma C5_part_000_landing_failure_is_raised :
  let E := offline_env in
  let fresh := init_world HumanLike.no_globals in
  let run := HumanLike.humanLikeSearch E (lit "rust") (num_of_Z 10) CLIENT 0 fresh in
  snd run = inl (lit "fetch failed")
  /\ trace (fst run)
     = [EvSleep (0 * 1000 + 300);
        EvFetch (HumanLike.landing_request (HumanLike.pick_user_agent 0))]
  /\ snd (HumanLike.handler E (post_from CLIENT (search_body (lit "rust"))) 0 0 fresh)
     = inr {| status := 200;
              body := ToolResult (HumanLike.unavailable (lit "fetch failed")) true |}.
Proof. vm_compute. repeat split. Qed.

(** C5 (amended).  Without a reusable session and with a landing-page
    fetch that is rejected: in mcp-tool.ts the rejection is caught, logged,
    and the call goes on with the empty cookie string -- nothing is stored
    for the client, the search is made without a Cookie header and its
    outcome is the outcome of the call; in part_000 the rejection is thrown
    out of [humanLikeSearch] before any search request, and nothing is
    stored for the client either. *)
Theorem C5_landing_failure_swallowed_in_mcp_tool_only :
  forall (E : env) (q : jsstring) (count : jsnum) (ip : jsstring) (now : Z) (e : jsstring),
    (forall w : McpTool.W,
       McpTool_reusable w ip now = None ->
       network E (length (trace w)) McpTool.landing_request = inl e ->
       let run := McpTool.performSearchWithSession E q count ip now w in
       snd (McpTool.getOrCreate E ip now w) = inr []
       /\ McpTool.SESSION_STORE (heap (fst run)) !! ip = None
       /\ trace (fst run)
          = trace w ++ [EvFetch McpTool.landing_request;
                        EvConsole (lit "Failed to fetch initial cookies: " ++ e);
                        EvSleep (random E (rand_calls w) * 1000 + 500);
                        EvSearch q (McpTool.getRealisticHeaders [])]
       /\ snd run = library E (3 + length (trace w)) q (McpTool.getRealisticHeaders []))
    /\ (forall w : HumanLike.W,
       HumanLike_reusable w ip now = None ->
       let ua := HumanLike.pick_user_agent (random E (S (rand_calls w))) in
       network E (S (length (trace w))) (HumanLike.landing_request ua) = inl e ->
       let run := HumanLike.humanLikeSearch E q count ip now w in
       snd run = inl e
       /\ HumanLike.SESSION_STORE (heap (fst run)) !! ip = None
       /\ trace (fst run)
          = trace w ++ [EvSleep (random E (rand_calls w) * 1000 + 300);
                        EvFetch (HumanLike.landing_request ua)]).
Proof.
  intros E q count ip now e. split.
  - intros w Hnone Hdown run.
    pose proof (McpTool_not_reusable_as_absent E ip now w Hnone) as Habs.
    set (w0 := McpTool_with_sessions w (delete ip (McpTool.SESSION_STORE (heap w)))) in *.
    assert (H0 : McpTool.SESSION_STORE (heap w0) !! ip = None) by apply lookup_delete_eq.
    assert (Hrun0 : McpTool.getOrCreate E ip now w0
                    = ({| heap := heap w0;
                          trace := trace w ++ [EvFetch McpTool.landing_request;
                                               EvConsole (lit "Failed to fetch initial cookies: " ++ e)];
                          rand_calls := rand_calls w |}, inr [])).
    { unfold McpTool.getOrCreate, McpTool.getInitialCookies. run_monad.
      rewrite H0. cbn. rewrite Hdown. cbn. by rewrite <- app_assoc. }
    rewrite Hrun0 in Habs. split; [by rewrite Habs|].
    subst run. rewrite (performSearchWithSession_after_session _ _ _ _ _ _ _ _ Habs).
    match goal with |- context [McpTool.searchWithFallback E q [] ?w1] =>
      destruct (searchWithFallback_outcome E q [] w1) as [Hheap Hout] end.
    cbn [trace rand_calls] in Hout. rewrite length_app in Hout. cbn [length] in Hout.
    replace (S (length (trace w) + 2))%nat with (3 + length (trace w))%nat in Hout by lia.
    split; [by rewrite Hheap|].
    destruct (library E (3 + length (trace w)) q (McpTool.getRealisticHeaders []))
      as [e'|results]; destruct Hout as [Htr Hres]; rewrite Htr, Hres, <- app_assoc; done.
  - intros w Hnone ua Hdown run.
    pose proof (HumanLike_not_reusable_as_absent E ip now w Hnone) as Habs.
    set (w0 := HumanLike_with_sessions w (delete ip (HumanLike.SESSION_STORE (heap w)))) in *.
    assert (H0 : HumanLike.SESSION_STORE (heap w0) !! ip = None) by apply lookup_delete_eq.
    destruct (HumanLike_create E ip now w0 H0) as [Htr Hout].
    change (trace w0) with (trace w) in *. change (rand_calls w0) with (rand_calls w) in *.
    fold ua in Htr, Hout. rewrite Hdown in Hout. destruct Hout as [Hthrow Hstore].
    rewrite <- Habs in Htr, Hthrow, Hstore.
    subst run. unfold HumanLike.humanLikeSearch, bind.
    destruct (HumanLike.getOrCreate E ip now w) as [w1 [e1|cu]]; [|done].
    cbn [fst snd] in *. injection Hthrow as ->.
    split; [reflexivity|]. split; [|exact Htr]. by rewrite Hstore.
Qed.

(** With the network down and an empty store, mcp-tool.ts still asks the
    library, which finds nothing, and part_000 throws. *)
Lemma C5_landing_failure_swallowed_in_mcp_tool_only_witness :
  snd (McpTool.performSearchWithSession offline_env (lit "rust") (num_of_Z 10) CLIENT 0
         (init_world McpTool.no_globals))
  = inr []
  /\ snd (HumanLike.humanLikeSearch offline_env (lit "rust") (num_of_Z 10) CLIENT 0
          (init_world HumanLike.no_globals))
     = inl (lit "fetch failed").
Proof.
  destruct (C5_landing_failure_swallowed_in_mcp_tool_only offline_env (lit "rust")
              (num_of_Z 10) CLIENT 0 (lit "fetch failed")) as [Hmcp Hhuman].
  split.
  - destruct (Hmcp (init_world McpTool.no_globals)) as (_ & _ & _ & Hres).
    + vm_compute. reflexivity.
    + vm_compute. reflexivity.
    + rewrite Hres. vm_compute. reflexivity.
  - destruct (Hhuman (init_world HumanLike.no_globals)) as (Hres & _).
    + vm_compute. reflexivity.
    + vm_compute. reflexivity.
    + exact Hres.
Defined.

(** ** HTTP status of the answers *)

Lemma get_prop_nullish (v : jsval) (k : jsstring) :
  is_nullish v = true -> get_prop v k = VUndefined.
Proof. by destruct v. Qed.

(** The three tests of the handlers on name and query are [call_query]. *)
Lemma validation_is_call_query {A} (b : jsval) (ok : jsstring -> A) (bad : A) :
  (let name := get_prop b (lit "name") in
   let args := get_prop b (lit "arguments") in
   let query := if is_nullish args then VUndefined else get_prop args (lit "query") in
   match is_tool_name name, truthy query, is_string query with
   | true, true, Some q => ok q
   | _, _, _ => bad
   end)
  = match call_query b with Some q => ok q | None => bad end.
Proof.
  cbv zeta. unfold call_query.
  destruct (is_tool_name (get_prop b (lit "name"))); [|done].
  destruct (is_nullish (get_prop b (lit "arguments"))) eqn:Hn.
  - by rewrite (get_prop_nullish _ _ Hn).
  - destruct (get_prop (get_prop b (lit "arguments")) (lit "query")) as [| |[]|n|[|c s]| |];
      cbn; try done. by destruct (num_truthy n).
Qed.

Lemma call_query_truthy (b : jsval) (q : jsstring) :
  call_query b = Some q -> truthy b = true /\ is_nullish b = false.
Proof.
  unfold call_query. destruct b; cbn; try done.
Qed.


(** ... and once the name is known to be right, the two tests on the query
    alone are. *)
Lemma query_test_is_call_query {A} (b : jsval) (ok : jsstring -> A) (bad : A) :
  is_tool_name (get_prop b (lit "name")) = true ->
  match
    truthy (if is_nullish (get_prop b (lit "arguments")) then VUndefined
            else get_prop (get_prop b (lit "arguments")) (lit "query")),
    is_string (if is_nullish (get_prop b (lit "arguments")) then VUndefined
               else get_prop (get_prop b (lit "arguments")) (lit "query"))
  with
  | true, Some q => ok q
  | _, _ => bad
  end
  = match call_query b with Some q => ok q | None => bad end.
Proof.
  intros Hname. rewrite <- validation_is_call_query. cbv zeta. by rewrite Hname.
Qed.







(** ** Scenarios of the specification, run on the model *)

(** Three results are asked of a page with six blocks: the blocks linking
    to the engine itself or to a relative address are passed over, and the
    first three others come back in order, decoded, without bold tags. *)
Example scenario_first_three_in_order :
  HumanLike.parseResults mixed_results_page (num_of_nat 3)
  = [ {| HumanLike.title := lit "Rust & Cargo"; HumanLike.url := lit "https://a.example/";
         HumanLike.description := lit "fast <safe>" |};
      {| HumanLike.title := lit "B"; HumanLike.url := lit "https://b.example/";
         HumanLike.description := lit "say " ++ dq ++ lit "hi" ++ dq |};
      {| HumanLike.title := lit "C"; HumanLike.url := lit "https://c.example/";
         HumanLike.description := lit "third" |} ].
Proof. vm_compute. reflexivity. Qed.

(** The loop compares the length with the maximum as numbers: a maximum of
    2.5, which the handlers would pass on unrounded, stops it at three. *)
Example scenario_fractional_maximum :
  length (HumanLike.parseResults mixed_results_page (Fin (5 # 2))) = 3%nat.
Proof. vm_compute. reflexivity. Qed.

(** A client at its ceiling is refused before any request leaves: the only
    event is the line written to the console. *)
Example scenario_rate_limited_before_any_request :
  let busy := run_all (map (HumanLike.enforceRateLimit CLIENT) [0; 0; 0])
                      (init_world HumanLike.no_globals) in
  let run := HumanLike.handler friendly_env (post_from CLIENT (search_body (lit "x"))) 0 0 busy in
  (exists r, snd run = inr r /\ isError r = true)
  /\ trace (fst run)
     = [EvConsole (lit "[DDG-SCRAPER] IP=1.1.1.1 ERROR: Rate limit: 3 requests/minute/IP")].
Proof. split; [eexists; split|]; vm_compute; reflexivity. Qed.

(** A page without any block is a success that says so. *)
Example scenario_no_results_is_success :
  let E := {| builtin := no_builtins; random := fun _ => 0%Q;
              network := fun _ _ => inr (page (lit "<html></html>"));
              library := fun _ _ _ => inr [] |} in
  snd (HumanLike.handler E (post_from CLIENT (search_body (lit "x"))) 0 0
         (init_world HumanLike.no_globals))
  = inr {| status := 200;
           body := ToolResult (HumanLike.markdown (lit "x") []) false |}.
Proof. vm_compute. reflexivity. Qed.

(** The library refuses with a message that mentions blocked, and the
    page fetched through the proxy holds one anchor: the second handler of
    mcp-tool.ts answers 200 without the error flag. *)
Example scenario_relay_recovers_blocked_search :
  let E := {| builtin := no_builtins; random := fun _ => 0%Q;
              network := fun _ r =>
                if bool_decide (req_url r = McpTool.HOME) then inr landing_page
                else inr (page (proxy_anchor (lit "https://a.example/") (lit " Alpha ")));
              library := fun _ _ _ => inl (lit "DDG detected an anomaly: blocked") |} in
  snd (McpTool.handler E (post_from CLIENT (search_body (lit "rust"))) 0 0
         (init_world McpTool.no_globals))
  = inr {| status := 200;
           body := ToolResult
                     (McpTool.markdown_proxy (lit "rust")
                        [(lit "https://a.example/", lit " Alpha ")]) false |}.
Proof. vm_compute. reflexivity. Qed.

(** The message of a missing body names what the body is. *)
Example scenario_null_and_undefined_body :
  let answer b := snd (McpTool.handler friendly_env (post_from CLIENT b) 0 0
                         (init_world McpTool.no_globals)) in
  answer VNull
  = inr {| status := 200;
           body := ToolResult
                     (McpTool.search_failed
                        (lit "Cannot destructure property 'name' of 'body' as it is null."))
                     true |}
  /\ answer VUndefined
     = inr {| status := 200;
              body := ToolResult
                        (McpTool.search_failed
                           (lit "Cannot destructure property 'name' of 'body' as it is undefined."))
                        true |}.
Proof. split; vm_compute; reflexivity. Qed.

(** * Further properties of the code *)

(** ** Strings *)

Lemma trimStart_suffix (s : jsstring) : trimStart s `suffix_of` s.
Proof.
  induction s as [|c s IH]; simpl; [done|].
  destruct (is_space c); [by apply suffix_cons_r | done].
Qed.

Lemma trimStart_head (s : jsstring) (c : N) :
  head (trimStart s) = Some c -> is_space c = false.
Proof.
  induction s as [|x s IH]; simpl; [done|].
  destruct (is_space x) eqn:Hx; [exact IH|]. simpl. by intros [= <-].
Qed.

Lemma suffix_last {A} (l k : list A) (x : A) :
  l `suffix_of` k -> last l = Some x -> last k = Some x.
Proof.
  intros [p ->] Hl. destruct l as [|y l]; [done|].
  rewrite last_app. by rewrite Hl.
Qed.

Lemma head_reverse {A} (l : list A) : head (rev l) = last l.
Proof.
  induction l as [|x l IH] using rev_ind; [done|].
  by rewrite rev_app_distr, last_snoc.
Qed.

Lemma last_reverse {A} (l : list A) : last (rev l) = head l.
Proof. by rewrite <- head_reverse, rev_involutive. Qed.

(** What [trim] returns neither begins nor ends with white space. *)
Lemma trim_ends (s : jsstring) (c : N) :
  (head (trim s) = Some c -> is_space c = false)
  /\ (last (trim s) = Some c -> is_space c = false).
Proof.
  unfold trim, trimEnd. split.
  - rewrite head_reverse. intros Hl.
    pose proof (suffix_last _ _ _ (trimStart_suffix (rev (trimStart s))) Hl) as Hk.
    rewrite last_reverse in Hk. by apply trimStart_head in Hk.
  - rewrite last_reverse. apply trimStart_head.
Qed.

Lemma trim_subset (s : jsstring) (c : N) : c ∈ trim s -> c ∈ s.
Proof.
  unfold trim, trimEnd. intros Hin.
  apply list_elem_of_In, in_rev, list_elem_of_In in Hin.
  pose proof (elem_of_suffix _ _ _ Hin (trimStart_suffix (rev (trimStart s)))) as Hin2.
  apply list_elem_of_In, in_rev, list_elem_of_In in Hin2.
  exact (elem_of_suffix _ _ _ Hin2 (trimStart_suffix s)).
Qed.

Lemma span_not_fst (c : N) (s : jsstring) :
  (c ∉ fst (span_not c s)) /\ (forall x, x ∈ fst (span_not c s) -> x ∈ s).
Proof.
  induction s as [|x s [IHn IHs]]; simpl.
  - split; [apply not_elem_of_nil | done].
  - unfold char_eqb. destruct (N.eqb x c) eqn:Hx; simpl.
    + split; [apply not_elem_of_nil | intros y Hy; by apply elem_of_nil in Hy].
    + apply N.eqb_neq in Hx. destruct (span_not c s) as [a b]. simpl in *. split.
      * intros Hin. apply elem_of_cons in Hin as [->|Hin]; done.
      * intros y Hy. apply elem_of_cons in Hy as [->|Hy]; [left | right; by apply IHs].
Qed.

Lemma split_without_separator (s sep : jsstring) :
  includes s sep = false -> split s sep = [s].
Proof.
  unfold split. induction s as [|c s IH]; [done|].
  unfold includes; fold includes. intros Hi.
  apply orb_false_iff in Hi as [Hs Hrest].
  cbn [split_go]. rewrite Hs. by rewrite (IH Hrest).
Qed.

(** X1.  Asking for more never reorders or replaces: the results for a
    maximum are a prefix of the results for any larger maximum. *)
Theorem parseResults_prefix_monotone :
  forall (html : jsstring) (n m : nat),
    (n <= m)%nat ->
    HumanLike.parseResults html (num_of_nat n)
    `prefix_of` HumanLike.parseResults html (num_of_nat m).
Proof.
  intros html n m Hnm. unfold HumanLike.parseResults.
  rewrite !parse_loop_take by (simpl; lia). simpl. rewrite !Nat.sub_0_r.
  replace n with (Nat.min n m) by lia. rewrite <- take_take. apply prefix_take.
Qed.

Lemma parseResults_prefix_monotone_witness :
  HumanLike.parseResults mixed_results_page (num_of_nat 1)
  `prefix_of` HumanLike.parseResults mixed_results_page (num_of_nat 3).
Proof. apply parseResults_prefix_monotone. lia. Defined.

(** X2.  A document in which the block marker does not occur -- the empty
    document for one -- has no candidate block and gives no result,
    whatever the maximum. *)
Theorem parseResults_without_marker :
  forall (html : jsstring) (max : jsnum),
    includes html HumanLike.RESULT_BODY = false ->
    HumanLike.candidate_blocks html = [] /\ HumanLike.parseResults html max = [].
Proof.
  intros html max Hno. unfold HumanLike.parseResults, HumanLike.candidate_blocks.
  by rewrite (split_without_separator _ _ Hno).
Qed.

Lemma parseResults_without_marker_witness :
  HumanLike.candidate_blocks (lit "<html><body>nothing here</body></html>") = []
  /\ HumanLike.parseResults (lit "<html><body>nothing here</body></html>") (num_of_nat 10) = [].
Proof. apply parseResults_without_marker. vm_compute. reflexivity. Defined.

Lemma first_match_suffix {A} (at_pos : jsstring -> option A) (s : jsstring) (r : A) :
  first_match at_pos s = Some r -> exists s', s' `suffix_of` s /\ at_pos s' = Some r.
Proof.
  induction s as [|c s IH]; cbn [first_match].
  - destruct (at_pos []) eqn:H0; [|done]. intros [= ->]. by exists [].
  - destruct (at_pos (c :: s)) eqn:H0.
    + intros [= ->]. by exists (c :: s).
    + intros Hm. destruct (IH Hm) as (s' & Hs & Hr). exists s'.
      split; [by apply suffix_cons_r | done].
Qed.

Lemma url_at_shape (s u : jsstring) :
  HumanLike.url_at s = Some u -> u <> [] /\ (34%N ∉ u).
Proof.
  unfold HumanLike.url_at.
  destruct (strip_prefix _ s) as [rest|]; [|done].
  pose proof (span_not_fst 34 rest) as [Hno _].
  destruct (span_not 34 rest) as [[|c u'] [|q after]]; try done.
  destruct (snd (span_not 62 after)); [done|]. intros [= <-]. done.
Qed.

Lemma parse_loop_elem (max : jsnum) (blocks : list jsstring)
    (acc : list HumanLike.search_result) (r : HumanLike.search_result) :
  r ∈ HumanLike.parse_loop max blocks acc ->
  r ∈ acc \/ exists b, b ∈ blocks /\ HumanLike.parse_block b = Some r.
Proof.
  revert acc. induction blocks as [|b rest IH]; intros acc; cbn [HumanLike.parse_loop].
  - by left.
  - destruct (num_geb _ max); [by left|].
    destruct (HumanLike.parse_block b) as [r'|] eqn:Hb; intros Hin.
    + apply IH in Hin as [Hin|(b' & Hb' & Hr)].
      * apply elem_of_app in Hin as [Hin|Hin]; [by left|].
        apply list_elem_of_singleton in Hin as ->. right. exists b. split; [left | done].
      * right. exists b'. split; [by right | done].
    + apply IH in Hin as [Hin|(b' & Hb' & Hr)]; [by left|].
      right. exists b'. split; [by right | done].
Qed.

(** X3.  Every result that [parseResults] returns, for any document and any
    maximum: its URL is not empty, starts with [http], contains neither a
    double quote nor [duckduckgo.com]; its title and its description
    neither begin nor end with white space. *)
Theorem parseResults_results_well_formed :
  forall (html : jsstring) (max : jsnum) (r : HumanLike.search_result),
    r ∈ HumanLike.parseResults html max ->
    let trimmed (s : jsstring) :=
      forall c, head s = Some c \/ last s = Some c -> is_space c = false in
    HumanLike.url r <> []
    /\ (34%N ∉ HumanLike.url r)
    /\ startsWith (HumanLike.url r) (lit "http") = true
    /\ includes (HumanLike.url r) (lit "duckduckgo.com") = false
    /\ trimmed (HumanLike.title r)
    /\ trimmed (HumanLike.description r).
Proof.
  intros html max r Hin trimmed. unfold HumanLike.parseResults in Hin.
  apply parse_loop_elem in Hin as [Hin|(b & _ & Hb)]; [by apply elem_of_nil in Hin|].
  destruct (parse_block_url b r Hb) as [Hhttp Hself].
  unfold HumanLike.parse_block in Hb.
  destruct (first_match HumanLike.url_at b) as [u|] eqn:Hu; [|done].
  apply first_match_suffix in Hu as (s' & _ & Hu). apply url_at_shape in Hu as [Hne Hq].
  destruct (negb (startsWith u (lit "http"))); [done|].
  destruct (includes u (lit "duckduckgo.com")); [done|].
  injection Hb as <-. cbn [HumanLike.url HumanLike.title HumanLike.description] in *.
  split; [done|]. split; [done|]. split; [done|]. split; [done|].
  unfold trimmed, HumanLike.clean. split; intros c [Hc|Hc];
    first [ exact (proj1 (trim_ends _ c) Hc) | exact (proj2 (trim_ends _ c) Hc) ].
Qed.

Lemma parseResults_results_well_formed_witness :
  let r := {| HumanLike.title := lit "Rust & Cargo"; HumanLike.url := lit "https://a.example/";
              HumanLike.description := lit "fast <safe>" |} in
  r ∈ HumanLike.parseResults mixed_results_page (num_of_nat 3)
  /\ HumanLike.url r <> [] /\ (34%N ∉ HumanLike.url r).
Proof.
  intros r.
  assert (Hin : r ∈ HumanLike.parseResults mixed_results_page (num_of_nat 3))
    by (vm_compute; left).
  destruct (parseResults_results_well_formed _ _ _ Hin) as (H1 & H2 & _).
  by split.
Defined.

(** ** Cookie strings and client identities *)

Lemma join_elem (l : list jsstring) (sep : jsstring) (x : N) :
  x ∈ join l sep -> x ∈ sep \/ exists p, p ∈ l /\ x ∈ p.
Proof.
  induction l as [|p l IH]; [by intros H%elem_of_nil|].
  destruct l as [|p' l'].
  - simpl. intros Hx. right. exists p. split; [left | done].
  - rewrite join_cons by done. intros Hx.
    apply elem_of_app in Hx as [Hx|Hx]; [right; exists p; split; [left | done]|].
    apply elem_of_app in Hx as [Hx|Hx]; [by left|].
    destruct (IH Hx) as [Hs|(q & Hq & Hxq)]; [by left|].
    right. exists q. split; [by right | done].
Qed.

(** X4.  The cookie string never contains a comma, whichever of the two
    extractions produced it, and [extractCookies] never throws to get
    there. *)
Theorem cookie_strings_have_no_comma :
  forall (o : option jsstring) (h : jsstring),
    (exists s, HumanLike.extractCookies o = inr s /\ (44%N ∉ s))
    /\ (44%N ∉ McpTool.simple_cookies h).
Proof.
  intros o h.
  assert (Hentries : forall h', Forall (fun e => 44%N ∉ e) (split h' (lit ",")))
    by (intros h'; apply (join_split_char 44 h')).
  split.
  - destruct o as [h'|]; [|exists []; split; [done | apply not_elem_of_nil]].
    unfold HumanLike.extractCookies.
    rewrite (map_result_total _ (fun e => trim (fst (span_not 59 e))))
      by apply name_value_total.
    destruct h' as [|c h']; [exists []; split; [done | apply not_elem_of_nil]|].
    eexists. split; [reflexivity|]. intros Hin.
    apply join_elem in Hin as [Hsep|(p & Hp & Hx)].
    + vm_compute in Hsep. by repeat (apply elem_of_cons in Hsep as [?|Hsep]; [done|]);
        apply elem_of_nil in Hsep.
    + apply list_elem_of_In, filter_In in Hp as [Hp _].
      apply list_elem_of_In, list_elem_of_fmap in Hp as (e & -> & He).
      apply trim_subset, (proj2 (span_not_fst 59 e)) in Hx.
      specialize (Hentries (c :: h')). rewrite Forall_forall in Hentries.
      by apply (Hentries e He).
  - unfold McpTool.simple_cookies. intros Hin.
    apply join_elem in Hin as [Hsep|(p & Hp & Hx)].
    + vm_compute in Hsep. by repeat (apply elem_of_cons in Hsep as [?|Hsep]; [done|]);
        apply elem_of_nil in Hsep.
    + apply list_elem_of_fmap in Hp as (e & -> & He).
      specialize (Hentries h). rewrite Forall_forall in Hentries.
      apply (Hentries e He).
      pose proof (head_split_char 59 e) as Hh. change (lit ";") with [59%N] in Hx.
      rewrite Hh in Hx. simpl in Hx. by apply (proj2 (span_not_fst 59 e)).
Qed.

(** X5.  The client identity is the text before the first comma of the
    forwarded header, trimmed, and the fallback when the header is absent
    or that text is blank; so it is the fallback, or else not empty,
    without a comma and without white space at either end. *)
Theorem clientIP_of_shape :
  forall (req : http_request) (fallback : jsstring),
    let ip := clientIP_of req fallback in
    ip = match x_forwarded_for req with
         | None => fallback
         | Some h =>
             match trim (fst (span_not 44 h)) with
             | [] => fallback
             | first => first
             end
         end
    /\ (ip = fallback
        \/ (ip <> [] /\ (44%N ∉ ip)
            /\ forall c, head ip = Some c \/ last ip = Some c -> is_space c = false)).
Proof.
  intros req fallback ip. subst ip. unfold clientIP_of.
  destruct (x_forwarded_for req) as [h|]; [|by split; [|left]].
  change (lit ",") with [44%N]. rewrite head_split_char.
  pose proof (span_not_fst 44 h) as [Hno _].
  destruct (trim (fst (span_not 44 h))) as [|c ip] eqn:Htrim; [by split; [|left]|].
  split; [done|]. right. split; [done|]. split.
  - intros Hin. rewrite <- Htrim in Hin. by apply trim_subset in Hin.
  - intros x [Hx|Hx]; rewrite <- Htrim in Hx;
      [exact (proj1 (trim_ends _ x) Hx) | exact (proj2 (trim_ends _ x) Hx)].
Qed.

(** ** Request headers *)

Lemma NoDup_by_computation (l : list jsstring) : bool_decide (NoDup l) = true -> NoDup l.
Proof. apply bool_decide_eq_true_1. Qed.

(** X6.  [buildHeaders] of part_000: the header names are pairwise
    distinct; [User-Agent] is the one given; [Cookie] and [Referer] are
    present exactly when a non-empty value was given, with that value;
    [Sec-Fetch-Site] is [same-origin] with a referer and [none] without;
    and apart from a user agent given empty, no header has an empty
    value. *)
Theorem buildHeaders_shape :
  forall (cookies userAgent : jsstring) (referer : option jsstring),
    let headers := HumanLike.buildHeaders cookies userAgent referer in
    NoDup (map fst headers)
    /\ assoc (lit "User-Agent") headers = Some userAgent
    /\ assoc (lit "Cookie") headers = match cookies with [] => None | _ => Some cookies end
    /\ assoc (lit "Referer") headers = HumanLike.nonempty_opt referer
    /\ assoc (lit "Sec-Fetch-Site") headers
       = Some (match HumanLike.nonempty_opt referer with
               | Some _ => lit "same-origin"
               | None => lit "none"
               end)
    /\ Forall (fun kv => snd kv <> [] \/ kv = (lit "User-Agent", userAgent)) headers.
Proof.
  intros cookies userAgent referer headers. subst headers.
  unfold HumanLike.buildHeaders.
  destruct cookies as [|c cookies]; destruct referer as [[|r referer]|];
    cbn [HumanLike.nonempty_opt];
    (split; [apply NoDup_by_computation; vm_compute; reflexivity|]);
    (split; [vm_compute; reflexivity|]); (split; [vm_compute; reflexivity|]);
    (split; [vm_compute; reflexivity|]); (split; [vm_compute; reflexivity|]);
    cbn [app];
    repeat (constructor;
            [first [ right; reflexivity | left; cbn [snd]; vm_compute; discriminate ]|]);
    constructor.
Qed.

(** X7.  [getRealisticHeaders] of mcp-tool.ts: distinct names, the one
    Firefox user agent, a [Cookie] exactly when the cookie string is not
    empty, never a [Referer], and no empty value. *)
Theorem getRealisticHeaders_shape :
  forall (cookies : jsstring),
    let headers := McpTool.getRealisticHeaders cookies in
    NoDup (map fst headers)
    /\ assoc (lit "User-Agent") headers
       = Some (lit "Mozilla/5.0 (Windows NT 10.0; Win64; x64; rv:134.0) Gecko/20100101 Firefox/134.0")
    /\ assoc (lit "Cookie") headers = match cookies with [] => None | _ => Some cookies end
    /\ assoc (lit "Referer") headers = None
    /\ Forall (fun kv => snd kv <> []) headers.
Proof.
  intros cookies headers. subst headers. unfold McpTool.getRealisticHeaders.
  destruct cookies as [|c cookies];
    (split; [apply NoDup_by_computation; vm_compute; reflexivity|]);
    (split; [vm_compute; reflexivity|]); (split; [vm_compute; reflexivity|]);
    (split; [vm_compute; reflexivity|]);
    unfold McpTool.BASE_HEADERS; cbn [app];
    repeat (constructor; [cbn [snd]; vm_compute; discriminate|]);
    constructor.
Qed.

(** X8.  A draw of [Math.random], which lies in [0, 1), always selects one
    of the four configured user agents: the index never leaves the table. *)
Theorem pick_user_agent_in_table :
  forall (r : Q),
    (0 <= r)%Q -> (r < 1)%Q ->
    HumanLike.pick_user_agent r ∈ HumanLike.USER_AGENTS.
Proof.
  intros r H0 H1. unfold HumanLike.pick_user_agent.
  change (inject_Z (Z.of_nat (length HumanLike.USER_AGENTS))) with (inject_Z 4).
  assert (Hlo : 0 <= Qfloor (r * inject_Z 4)).
  { rewrite <- (Qfloor_Z 0). apply Qfloor_resp_le.
    apply Qmult_le_0_compat; [done | discriminate]. }
  assert (Hhi : Qfloor (r * inject_Z 4) < 4).
  { rewrite Zlt_Qlt. eapply Qle_lt_trans; [apply Qfloor_le|].
    destruct r as [n d]. unfold Qlt in *. simpl in *. lia. }
  assert (Hidx : (Z.to_nat (Qfloor (r * inject_Z 4)) < 4)%nat) by lia.
  destruct (Z.to_nat (Qfloor (r * inject_Z 4))) as [|[|[|[|n]]]]; [simpl.. | lia].
  - left.
  - right; left.
  - do 2 right; left.
  - do 3 right; left.
Qed.

Lemma pick_user_agent_in_table_witness :
  HumanLike.pick_user_agent (3 # 4) ∈ HumanLike.USER_AGENTS.
Proof. apply pick_user_agent_in_table; [discriminate | reflexivity]. Defined.

(** ** Rate limiting over a window *)

Section WindowFacts.
Import RateLimiter.
Context (ceiling : Z) (Hpos : 0 < ceiling).

(** Within the window of a stored record, acquire looks at the count only. *)
Lemma acquire_in_window ip now limits r :
  limits !! ip = Some r -> now <= reset r ->
  acquire ceiling ip now limits
  = if ceiling <=? count r then (limits, false) else (<[ip := bump r]> limits, true).
Proof.
  intros Hl Hnow. unfold acquire, discard_expired, current. rewrite Hl.
  destruct (reset r <? now) eqn:Hr; [lia|]. by rewrite Hl.
Qed.

(** Calls within one window count up to the ceiling and stay there. *)
Lemma acquire_burst ip (times : list Z) (R : Z) limits r :
  limits !! ip = Some r -> reset r = R -> count r <= ceiling ->
  Forall (fun t => t <= R) times ->
  fold_left (fun l t => fst (acquire ceiling ip t l)) times limits !! ip
  = Some {| count := Z.min ceiling (count r + Z.of_nat (length times)); reset := R |}.
Proof.
  intros Hl HR Hc Hts. revert limits r Hl HR Hc.
  induction Hts as [|t times Ht _ IH]; intros limits r Hl HR Hc.
  - simpl. rewrite Hl. f_equal. destruct r as [c R']. simpl in *. subst. f_equal. lia.
  - cbn [fold_left]. rewrite (acquire_in_window ip t limits r Hl) by lia.
    destruct (ceiling <=? count r) eqn:Hfull; cbn [fst].
    + rewrite (IH limits r Hl HR Hc). f_equal. f_equal. cbn [length]. lia.
    + rewrite (IH (<[ip := bump r]> limits) (bump r));
        [| apply lookup_insert_eq | done | simpl; lia].
      simpl. f_equal. f_equal. lia.
Qed.

(** Once the reset time has passed, the count starts again at one. *)
Lemma acquire_after_window ip now limits r :
  limits !! ip = Some r -> reset r < now ->
  snd (acquire ceiling ip now limits) = true
  /\ fst (acquire ceiling ip now limits) !! ip = Some {| count := 1; reset := now + 60000 |}.
Proof.
  intros Hl Hnow. unfold acquire, discard_expired, current, fresh_record. rewrite Hl.
  destruct (reset r <? now) eqn:Hr; [|lia]. rewrite lookup_delete_eq. simpl.
  destruct (ceiling <=? 0) eqn:Hc; [lia|]. simpl. split; [done|]. apply lookup_insert_eq.
Qed.

Lemma acquire_first ip now limits :
  limits !! ip = None ->
  snd (acquire ceiling ip now limits) = true
  /\ fst (acquire ceiling ip now limits) !! ip = Some {| count := 1; reset := now + 60000 |}.
Proof.
  intros Hl. unfold acquire, discard_expired, current, fresh_record.
  rewrite Hl. simpl. rewrite Hl. simpl.
  destruct (ceiling <=? 0) eqn:Hc; [lia|]. simpl. split; [done|]. apply lookup_insert_eq.
Qed.
End WindowFacts.

Lemma enforceRateLimit_runs_fold ip (times : list Z) (w : HumanLike.W) :
  HumanLike.RATE_LIMITS (heap (run_all (map (HumanLike.enforceRateLimit ip) times) w))
  = fold_left (fun l t => fst (RateLimiter.acquire HumanLike.MAX_PER_MIN ip t l)) times
      (HumanLike.RATE_LIMITS (heap w)).
Proof.
  revert w. induction times as [|t times IH]; intros w; [done|].
  cbn [map run_all fold_left]. rewrite IH. unfold after.
  by rewrite enforceRateLimit_refines.
Qed.

Lemma checkRateLimit_runs_fold ip (times : list Z) (w : McpTool.W) :
  McpTool.RATE_LIMITS (heap (run_all (map (McpTool.checkRateLimit ip) times) w))
  = fold_left (fun l t => fst (RateLimiter.acquire McpTool.MAX_REQ_PER_MIN ip t l)) times
      (McpTool.RATE_LIMITS (heap w)).
Proof.
  revert w. induction times as [|t times IH]; intros w; [done|].
  cbn [map run_all fold_left]. rewrite IH. unfold after.
  by rewrite checkRateLimit_refines.
Qed.

(** X9.  A window of the per-IP limiters.  For a client without a record,
    a call at [t0] opens a window that ends at [t0 + 60000]; after that
    call and any further calls at times up to and including the end, the
    record counts the calls made, at most the ceiling, its reset time is
    still [t0 + 60000], and one more call within the window succeeds
    exactly when fewer calls than the ceiling were made. *)
Theorem per_ip_window_admits_ceiling_calls :
  forall (ip : jsstring) (t0 : Z) (times : list Z) (t : Z),
    Forall (fun t' => t' <= t0 + 60000) times ->
    t <= t0 + 60000 ->
    (forall w : HumanLike.W,
       HumanLike.RATE_LIMITS (heap w) !! ip = None ->
       let w' := run_all (map (HumanLike.enforceRateLimit ip) (t0 :: times)) w in
       HumanLike.RATE_LIMITS (heap w') !! ip
       = Some {| count := Z.min 3 (1 + Z.of_nat (length times)); reset := t0 + 60000 |}
       /\ succeeds (HumanLike.enforceRateLimit ip t) w'
          = (1 + Z.of_nat (length times) <? 3))
    /\ (forall w : McpTool.W,
       McpTool.RATE_LIMITS (heap w) !! ip = None ->
       let w' := run_all (map (McpTool.checkRateLimit ip) (t0 :: times)) w in
       McpTool.RATE_LIMITS (heap w') !! ip
       = Some {| count := Z.min 5 (1 + Z.of_nat (length times)); reset := t0 + 60000 |}
       /\ succeeds (McpTool.checkRateLimit ip t) w'
          = (1 + Z.of_nat (length times) <? 5)).
Proof.
  intros ip t0 times t Hts Ht. split; intros w Hnone w'.
  - assert (Hrec : HumanLike.RATE_LIMITS (heap w') !! ip
                   = Some {| count := Z.min 3 (1 + Z.of_nat (length times));
                             reset := t0 + 60000 |}).
    { subst w'. rewrite enforceRateLimit_runs_fold. cbn [fold_left].
      destruct (acquire_first HumanLike.MAX_PER_MIN eq_refl ip t0 _ Hnone) as [_ Hfirst].
      rewrite (acquire_burst HumanLike.MAX_PER_MIN ip times (t0 + 60000) _ _ Hfirst);
        [done | done | done | done]. }
    split; [exact Hrec|]. unfold succeeds. rewrite enforceRateLimit_refines. cbn [snd].
    rewrite (acquire_in_window HumanLike.MAX_PER_MIN ip t _ _ Hrec) by done.
    cbn [count]. change HumanLike.MAX_PER_MIN with 3.
    destruct (3 <=? Z.min 3 (1 + Z.of_nat (length times))) eqn:H3; simpl; lia.
  - assert (Hrec : McpTool.RATE_LIMITS (heap w') !! ip
                   = Some {| count := Z.min 5 (1 + Z.of_nat (length times));
                             reset := t0 + 60000 |}).
    { subst w'. rewrite checkRateLimit_runs_fold. cbn [fold_left].
      destruct (acquire_first McpTool.MAX_REQ_PER_MIN eq_refl ip t0 _ Hnone) as [_ Hfirst].
      rewrite (acquire_burst McpTool.MAX_REQ_PER_MIN ip times (t0 + 60000) _ _ Hfirst);
        [done | done | done | done]. }
    split; [exact Hrec|]. unfold succeeds. rewrite checkRateLimit_refines. cbn [snd].
    rewrite (acquire_in_window McpTool.MAX_REQ_PER_MIN ip t _ _ Hrec) by done.
    cbn [count]. change McpTool.MAX_REQ_PER_MIN with 5.
    destruct (5 <=? Z.min 5 (1 + Z.of_nat (length times))) eqn:H5; simpl; lia.
Qed.

(** Three calls in a window of part_000 use it up, five in mcp-tool.ts do
    not yet do so with three made. *)
Lemma per_ip_window_admits_ceiling_calls_witness :
  succeeds (HumanLike.enforceRateLimit CLIENT 60000)
    (run_all (map (HumanLike.enforceRateLimit CLIENT) [0; 10; 20])
             (init_world HumanLike.no_globals)) = false
  /\ succeeds (McpTool.checkRateLimit CLIENT 60000)
       (run_all (map (McpTool.checkRateLimit CLIENT) [0; 10; 20])
                (init_world McpTool.no_globals)) = true.
Proof.
  assert (Hts : Forall (fun t' => t' <= 0 + 60000) [10; 20])
    by (repeat constructor; lia).
  destruct (per_ip_window_admits_ceiling_calls CLIENT 0 [10; 20] 60000 Hts ltac:(lia))
    as [Ha Hb].
  split.
  - destruct (Ha (init_world HumanLike.no_globals) (lookup_empty _)) as [_ ->]. reflexivity.
  - destruct (Hb (init_world McpTool.no_globals) (lookup_empty _)) as [_ ->]. reflexivity.
Defined.

(** X10.  Once a record's reset time has passed, the per-IP limiters admit
    the client again whatever the old count was, and the new record counts
    one call in a window that ends 60000 ms after this call. *)
Theorem per_ip_window_rolls_over :
  forall (ip : jsstring) (now : Z) (r : rate_record),
    reset r < now ->
    (forall w : HumanLike.W,
       HumanLike.RATE_LIMITS (heap w) !! ip = Some r ->
       succeeds (HumanLike.enforceRateLimit ip now) w = true
       /\ HumanLike.RATE_LIMITS (heap (after (HumanLike.enforceRateLimit ip now) w)) !! ip
          = Some {| count := 1; reset := now + 60000 |})
    /\ (forall w : McpTool.W,
       McpTool.RATE_LIMITS (heap w) !! ip = Some r ->
       succeeds (McpTool.checkRateLimit ip now) w = true
       /\ McpTool.RATE_LIMITS (heap (after (McpTool.checkRateLimit ip now) w)) !! ip
          = Some {| count := 1; reset := now + 60000 |}).
Proof.
  intros ip now r Hpast. split; intros w Hrec; unfold succeeds, after.
  - rewrite enforceRateLimit_refines. cbn [fst snd heap HumanLike_with_limits HumanLike.RATE_LIMITS].
    destruct (acquire_after_window HumanLike.MAX_PER_MIN eq_refl ip now _ r Hrec Hpast)
      as [-> Hnew]. done.
  - rewrite checkRateLimit_refines. cbn [fst snd heap McpTool_with_limits McpTool.RATE_LIMITS].
    destruct (acquire_after_window McpTool.MAX_REQ_PER_MIN eq_refl ip now _ r Hrec Hpast)
      as [-> Hnew]. done.
Qed.

(** A client stopped at the ceiling at time 20 is admitted at 60001. *)
Lemma per_ip_window_rolls_over_witness :
  let busy := run_all (map (HumanLike.enforceRateLimit CLIENT) [0; 10; 20])
                      (init_world HumanLike.no_globals) in
  succeeds (HumanLike.enforceRateLimit CLIENT 60000) busy = false
  /\ succeeds (HumanLike.enforceRateLimit CLIENT 60001) busy = true.
Proof.
  intros busy. split; [vm_compute; reflexivity|].
  destruct (per_ip_window_rolls_over CLIENT 60001 {| count := 3; reset := 60000 |}
              ltac:(simpl; lia)) as [Ha _].
  destruct (Ha busy) as [Hs _]; [vm_compute; reflexivity | exact Hs].
Defined.

(** ** The global counter of the first handler *)

Lemma Simple_checkRateLimit_cases now (w : Simple.W) :
  Simple.checkRateLimit now w
  = let g := heap w in
    if 60000 <? now - Simple.lastReset g
    then ({| heap := {| Simple.requestCount := 1; Simple.lastReset := now |};
             trace := trace w; rand_calls := rand_calls w |}, inr tt)
    else if Simple.RATE_LIMIT_PER_MINUTE <=? Simple.requestCount g
    then (w, inl Simple.RATE_LIMITED)
    else ({| heap := {| Simple.requestCount := Simple.requestCount g + 1;
                        Simple.lastReset := Simple.lastReset g |};
             trace := trace w; rand_calls := rand_calls w |}, inr tt).
Proof.
  destruct w as [[n last] tr rc]. unfold Simple.checkRateLimit.
  unfold bind, gets, ret, throw, update_heap, modify. cbn.
  destruct (60000 <? now - last); cbn; [reflexivity|].
  destruct (Simple.RATE_LIMIT_PER_MINUTE <=? n); reflexivity.
Qed.

Lemma Simple_checkRateLimit_keeps_bounded now :
  keeps Simple_count_bounded (Simple.checkRateLimit now).
Proof.
  intros w Hw. rewrite Simple_checkRateLimit_cases. cbv zeta.
  unfold Simple_count_bounded in *.
  destruct (60000 <? now - Simple.lastReset (heap w)); [cbn; unfold Simple.RATE_LIMIT_PER_MINUTE; lia|].
  destruct (Simple.RATE_LIMIT_PER_MINUTE <=? Simple.requestCount (heap w)) eqn:Hfull;
    [exact Hw|]. cbn. lia.
Qed.

Lemma Simple_handler_keeps_bounded E req t_rate :
  keeps Simple_count_bounded (Simple.handler E req t_rate).
Proof.
  unfold Simple.handler, console.
  keeps_walk Simple_checkRateLimit_keeps_bounded.
Qed.

(** X11.  The limiter of the first handler of mcp-tool.ts, one counter for
    everybody.  A call more than 60000 ms after the last reset starts a
    new window at the time of the call and counts as its first request; a
    call within the window is refused, with nothing changed, when ten were
    counted, and is counted otherwise.  Over any run of requests through
    the handler, from the module as loaded, the counter stays between 0
    and 10. *)
Theorem Simple_limiter_window :
  forall (now : Z) (w : Simple.W),
    Simple.checkRateLimit now w
    = (if 60000 <? now - Simple.lastReset (heap w)
       then ({| heap := {| Simple.requestCount := 1; Simple.lastReset := now |};
                trace := trace w; rand_calls := rand_calls w |}, inr tt)
       else if 10 <=? Simple.requestCount (heap w)
       then (w, inl Simple.RATE_LIMITED)
       else ({| heap := {| Simple.requestCount := Simple.requestCount (heap w) + 1;
                           Simple.lastReset := Simple.lastReset (heap w) |};
                trace := trace w; rand_calls := rand_calls w |}, inr tt))
    /\ forall (E : env) (t0 : Z) (requests : list (http_request * Z)),
         Simple_count_bounded
           (heap (run_all (map (fun r => Simple.handler E (fst r) (snd r)) requests)
                          (init_world (Simple.loaded_at t0)))).
Proof.
  intros now w. split; [apply Simple_checkRateLimit_cases|].
  intros E t0 requests. apply run_all_keeps.
  - apply Forall_map, Forall_forall. intros r _. apply Simple_handler_keeps_bounded.
  - unfold Simple_count_bounded. cbn. unfold Simple.RATE_LIMIT_PER_MINUTE. lia.
Qed.

(** ** Requests that are refused *)

Lemma HumanLike_rejected_world E req t_rate t_search (w : HumanLike.W) :
  method req = POST ->
  succeeds (HumanLike.enforceRateLimit (clientIP_of req (lit "127.0.0.1")) t_rate) w = false ->
  fst (HumanLike.handler E req t_rate t_search w)
  = {| heap := heap w;
       trace := trace w ++ [EvConsole (lit "[DDG-SCRAPER] IP=" ++ clientIP_of req (lit "127.0.0.1")
                                       ++ lit " ERROR: " ++ HumanLike.RATE_LIMITED)];
       rand_calls := rand_calls w |}.
Proof.
  intros Hm. unfold HumanLike.handler, succeeds. rewrite Hm, bool_decide_eq_true_2 by done.
  cbn [negb]. unfold try_catch, bind at 1.
  rewrite enforceRateLimit_refines. cbn [fst snd].
  destruct (snd (RateLimiter.acquire _ _ _ _)) eqn:Hv; [done|]. intros _.
  rewrite (acquire_reject_keeps HumanLike.MAX_PER_MIN eq_refl _ _ _ Hv).
  rewrite HumanLike_with_limits_id. reflexivity.
Qed.

Lemma McpTool_rejected_world E req t_rate t_search (w : McpTool.W) :
  method req = POST ->
  succeeds (McpTool.checkRateLimit (clientIP_of req (lit "unknown")) t_rate) w = false ->
  fst (McpTool.handler E req t_rate t_search w)
  = {| heap := heap w;
       trace := trace w ++ [EvConsole (lit "Search error: " ++ McpTool.RATE_LIMITED)];
       rand_calls := rand_calls w |}.
Proof.
  intros Hm. unfold McpTool.handler, succeeds. rewrite Hm, bool_decide_eq_true_2 by done.
  cbn [negb]. unfold try_catch at 1, bind at 1.
  rewrite checkRateLimit_refines. cbn [fst snd].
  destruct (snd (RateLimiter.acquire _ _ _ _)) eqn:Hv; [done|]. intros _.
  rewrite (acquire_reject_keeps McpTool.MAX_REQ_PER_MIN eq_refl _ _ _ Hv).
  rewrite McpTool_with_limits_id. reflexivity.
Qed.

Lemma Simple_rejected_world E req t_rate (w : Simple.W) q :
  method req = POST ->
  call_query (req_body req) = Some q ->
  succeeds (Simple.checkRateLimit t_rate) w = false ->
  fst (Simple.handler E req t_rate w)
  = {| heap := heap w;
       trace := trace w ++ [EvConsole (lit "Tool execution error: " ++ Simple.RATE_LIMITED)];
       rand_calls := rand_calls w |}.
Proof.
  intros Hm Hq. unfold Simple.handler, succeeds. rewrite Hm, bool_decide_eq_true_2 by done.
  cbn [negb]. cbv zeta. unfold try_catch at 1.
  destruct (call_query_truthy _ _ Hq) as [_ Hnull]. rewrite Hnull.
  assert (Hname : is_tool_name (get_prop (req_body req) (lit "name")) = true).
  { unfold call_query in Hq. by destruct (is_tool_name _). }
  rewrite Hname. cbn [negb].
  rewrite (query_test_is_call_query _ _ _ Hname), Hq.
  unfold bind at 1. rewrite Simple_checkRateLimit_cases. cbv zeta.
  destruct (60000 <? t_rate - Simple.lastReset (heap w)); [done|].
  destruct (Simple.RATE_LIMIT_PER_MINUTE <=? Simple.requestCount (heap w)); [|done].
  intros _. reflexivity.
Qed.

(** X12.  A request refused by the rate limit reaches no upstream.  In each
    of the three handlers the world after it is the world before it with
    one console message added: no fetch, no search, no delay, no random
    draw, and no change to any session or counter -- the refusal is not
    counted. *)
Theorem rate_limited_request_changes_nothing :
  forall (E : env) (req : http_request) (t_rate t_search : Z),
    method req = POST ->
    (forall w : HumanLike.W,
       succeeds (HumanLike.enforceRateLimit (clientIP_of req (lit "127.0.0.1")) t_rate) w = false ->
       fst (HumanLike.handler E req t_rate t_search w)
       = {| heap := heap w;
            trace := trace w
                     ++ [EvConsole (lit "[DDG-SCRAPER] IP=" ++ clientIP_of req (lit "127.0.0.1")
                                    ++ lit " ERROR: " ++ HumanLike.RATE_LIMITED)];
            rand_calls := rand_calls w |})
    /\ (forall w : McpTool.W,
          succeeds (McpTool.checkRateLimit (clientIP_of req (lit "unknown")) t_rate) w = false ->
          fst (McpTool.handler E req t_rate t_search w)
          = {| heap := heap w;
               trace := trace w ++ [EvConsole (lit "Search error: " ++ McpTool.RATE_LIMITED)];
               rand_calls := rand_calls w |})
    /\ (forall (w : Simple.W) (q : jsstring),
          call_query (req_body req) = Some q ->
          succeeds (Simple.checkRateLimit t_rate) w = false ->
          fst (Simple.handler E req t_rate w)
          = {| heap := heap w;
               trace := trace w
                        ++ [EvConsole (lit "Tool execution error: " ++ Simple.RATE_LIMITED)];
               rand_calls := rand_calls w |}).
Proof.
  intros E req t_rate t_search Hm. split; [|split].
  - intros w. by apply HumanLike_rejected_world.
  - intros w. by apply McpTool_rejected_world.
  - intros w q. by apply Simple_rejected_world.
Qed.

Lemma rate_limited_request_changes_nothing_witness :
  let req := post_from CLIENT (search_body (lit "rust")) in
  trace (fst (HumanLike.handler friendly_env req 1000 1000 HumanLike_at_ceiling))
  = [EvConsole (lit "[DDG-SCRAPER] IP=1.1.1.1 ERROR: Rate limit: 3 requests/minute/IP")]
  /\ trace (fst (McpTool.handler friendly_env req 1000 1000 McpTool_at_ceiling))
     = [EvConsole (lit "Search error: Rate limit exceeded. Try again in 1 minute.")]
  /\ trace (fst (Simple.handler friendly_env req 1000 Simple_at_ceiling))
     = [EvConsole (lit "Tool execution error: Rate limit exceeded: max 10 requests per minute")].
Proof.
  intros req.
  destruct (rate_limited_request_changes_nothing friendly_env req 1000 1000 eq_refl)
    as (Hh & Hm & Hs).
  rewrite (Hh HumanLike_at_ceiling) by (vm_compute; reflexivity).
  rewrite (Hm McpTool_at_ceiling) by (vm_compute; reflexivity).
  rewrite (Hs Simple_at_ceiling (lit "rust")) by (vm_compute; reflexivity).
  vm_compute. repeat split.
Defined.

(** ** Requests that are not well-formed tool calls *)






(** ** One client's request and the other clients' state *)

Lemma HumanLike_handler_keeps_other E req t_rate t_search (ip' : jsstring)
    (s0 : option HumanLike.session) (r0 : option rate_record) :
  ip' <> clientIP_of req (lit "127.0.0.1") ->
  keeps (fun g => HumanLike.SESSION_STORE g !! ip' = s0 /\ HumanLike.RATE_LIMITS g !! ip' = r0)
        (HumanLike.handler E req t_rate t_search).
Proof.
  intros Hne.
  unfold HumanLike.handler, HumanLike.enforceRateLimit, HumanLike.humanLikeSearch,
    HumanLike.getOrCreate, HumanLike.fetchResults, HumanLike.establishSession,
    HumanLike.set_session, HumanLike.delete_session,
    HumanLike.set_rate, HumanLike.delete_rate, sleep, console.
  repeat first
    [ keeps_step
    | progress cbv zeta
    | (apply keeps_update; intros h [Hs Hr]; cbn;
       rewrite ?lookup_insert_ne, ?lookup_delete_ne by done; done) ].
Qed.

Lemma McpTool_handler_keeps_other E req t_rate t_search (ip' : jsstring)
    (s0 : option McpTool.session) (r0 : option rate_record) :
  ip' <> clientIP_of req (lit "unknown") ->
  keeps (fun g => McpTool.SESSION_STORE g !! ip' = s0 /\ McpTool.RATE_LIMITS g !! ip' = r0)
        (McpTool.handler E req t_rate t_search).
Proof.
  intros Hne.
  unfold McpTool.handler, McpTool.checkRateLimit, McpTool.performSearchWithSession,
    McpTool.searchWithFallback, McpTool.relay_if_blocked, McpTool.proxy_fallback,
    McpTool.getOrCreate, McpTool.getInitialCookies,
    McpTool.set_session, McpTool.delete_session,
    McpTool.set_rate, McpTool.delete_rate, sleep, console.
  repeat first
    [ keeps_step
    | progress cbv zeta
    | (apply keeps_update; intros h [Hs Hr]; cbn;
       rewrite ?lookup_insert_ne, ?lookup_delete_ne by done; done) ].
Qed.

(** X14.  A request touches the state of its own client only.  Whatever the
    request is and however the upstream answers, the handler of part_000
    and the second handler of mcp-tool.ts leave the stored session and the
    rate record of every other client address as they were. *)
Theorem handler_leaves_other_clients_alone :
  forall (E : env) (req : http_request) (t_rate t_search : Z) (ip' : jsstring),
    (ip' <> clientIP_of req (lit "127.0.0.1") ->
     forall w : HumanLike.W,
       let w' := fst (HumanLike.handler E req t_rate t_search w) in
       HumanLike.SESSION_STORE (heap w') !! ip' = HumanLike.SESSION_STORE (heap w) !! ip'
       /\ HumanLike.RATE_LIMITS (heap w') !! ip' = HumanLike.RATE_LIMITS (heap w) !! ip')
    /\ (ip' <> clientIP_of req (lit "unknown") ->
        forall w : McpTool.W,
          let w' := fst (McpTool.handler E req t_rate t_search w) in
          McpTool.SESSION_STORE (heap w') !! ip' = McpTool.SESSION_STORE (heap w) !! ip'
          /\ McpTool.RATE_LIMITS (heap w') !! ip' = McpTool.RATE_LIMITS (heap w) !! ip').
Proof.
  intros E req t_rate t_search ip'. split; intros Hne w.
  - by apply (HumanLike_handler_keeps_other E req t_rate t_search ip' _ _ Hne w).
  - by apply (McpTool_handler_keeps_other E req t_rate t_search ip' _ _ Hne w).
Qed.

Lemma handler_leaves_other_clients_alone_witness :
  let req := post_from (lit "2.2.2.2") (search_body (lit "rust")) in
  HumanLike.SESSION_STORE
    (heap (fst (HumanLike.handler friendly_env req 1000 1000 HumanLike_visited))) !! CLIENT
  = Some HumanLike_old_session
  /\ McpTool.SESSION_STORE
       (heap (fst (McpTool.handler friendly_env req 1000 1000 McpTool_visited))) !! CLIENT
     = Some McpTool_old_session.
Proof.
  intros req.
  destruct (handler_leaves_other_clients_alone friendly_env req 1000 1000 CLIENT) as [Hh Hm].
  assert (Hne1 : CLIENT <> clientIP_of req (lit "127.0.0.1")) by (vm_compute; discriminate).
  assert (Hne2 : CLIENT <> clientIP_of req (lit "unknown")) by (vm_compute; discriminate).
  destruct (Hh Hne1 HumanLike_visited) as [-> _].
  destruct (Hm Hne2 McpTool_visited) as [-> _].
  split; reflexivity.
Defined.

(** ** A created session is the one reused afterwards *)

Lemma HumanLike_create_then_reuse E E' ip now now' (w w1 : HumanLike.W) cu :
  HumanLike_reusable w ip now = None ->
  HumanLike.getOrCreate E ip now w = (w1, inr cu) ->
  now' - now <= HumanLike.SESSION_TTL ->
  HumanLike.getOrCreate E' ip now' w1 = (w1, inr cu).
Proof.
  intros Hnone Hrun Hfresh.
  assert (Hstored : HumanLike.SESSION_STORE (heap w1) !! ip
                    = Some {| HumanLike.cookies := fst cu; HumanLike.userAgent := snd cu;
                              HumanLike.timestamp := now |}).
  { revert Hrun. rewrite HumanLike_not_reusable_as_absent by done.
    set (w0 := HumanLike_with_sessions w _).
    assert (Hs0 : HumanLike.SESSION_STORE (heap w0) !! ip = None)
      by (subst w0; cbn; apply lookup_delete_eq).
    pose proof (HumanLike_create E ip now w0 Hs0) as Hc. cbv zeta in Hc.
    destruct Hc as [_ Hc]. intros Hrun. rewrite Hrun in Hc. cbn [fst snd] in Hc.
    destruct (network E _ _) as [e|res].
    - by destruct Hc.
    - destruct Hc as (fresh & _ & [= ->] & ->). cbn. apply lookup_insert_eq. }
  rewrite (HumanLike_reuse E' ip now' w1 _ Hstored) by (cbn; lia).
  by destruct cu.
Qed.

Lemma McpTool_create_then_reuse E E' ip now now' (w w1 : McpTool.W) cookies :
  McpTool_reusable w ip now = None ->
  McpTool.getOrCreate E ip now w = (w1, inr cookies) ->
  (cookies <> [] -> now' - now <= McpTool.SESSION_TTL ->
   McpTool.getOrCreate E' ip now' w1 = (w1, inr cookies))
  /\ (cookies = [] -> McpTool.SESSION_STORE (heap w1) !! ip = None).
Proof.
  intros Hnone Hrun.
  revert Hrun. rewrite McpTool_not_reusable_as_absent by done.
  set (w0 := McpTool_with_sessions w _).
  assert (Hs0 : McpTool.SESSION_STORE (heap w0) !! ip = None)
    by (subst w0; cbn; apply lookup_delete_eq).
  pose proof (McpTool_create E ip now w0 Hs0) as Hc. cbv zeta in Hc.
  destruct Hc as (Hret & _ & Hstore). intros Hrun. rewrite Hrun in Hret, Hstore.
  cbn [fst snd] in Hret, Hstore.
  assert (Hstore' : McpTool.SESSION_STORE (heap w1)
                    = match cookies with
                      | [] => McpTool.SESSION_STORE (heap w0)
                      | _ => <[ip := {| McpTool.cookies := cookies; McpTool.timestamp := now |}]>
                               (McpTool.SESSION_STORE (heap w0))
                      end).
  { rewrite Hstore. by injection Hret as ->. }
  clear Hstore Hret. rename Hstore' into Hstore.
  split.
  - intros Hne Hfresh.
    assert (Hstored : McpTool.SESSION_STORE (heap w1) !! ip
                      = Some {| McpTool.cookies := cookies; McpTool.timestamp := now |}).
    { rewrite Hstore. destruct cookies; [done|]. apply lookup_insert_eq. }
    by rewrite (McpTool_reuse E' ip now' w1 _ Hstored) by (cbn; first [lia | done]).
  - intros ->. by rewrite Hstore.
Qed.

(** X15.  Create, then reuse.  When get-or-create found no reusable session
    and established one at time [now], a later call for the same client at
    a time [now'] with [now' - now] within the time to live returns the
    same session data and leaves the world as it is: no landing-page
    request, whatever the upstream would answer by then.  In mcp-tool.ts
    this holds when the cookie string obtained is not empty; when it is
    empty nothing is stored for the client, so the next call fetches the
    landing page again. *)
Theorem created_session_is_reused :
  forall (E E' : env) (ip : jsstring) (now now' : Z),
    (forall (w w1 : HumanLike.W) (cu : jsstring * jsstring),
       HumanLike_reusable w ip now = None ->
       HumanLike.getOrCreate E ip now w = (w1, inr cu) ->
       now' - now <= HumanLike.SESSION_TTL ->
       HumanLike.getOrCreate E' ip now' w1 = (w1, inr cu))
    /\ (forall (w w1 : McpTool.W) (cookies : jsstring),
          McpTool_reusable w ip now = None ->
          McpTool.getOrCreate E ip now w = (w1, inr cookies) ->
          (cookies <> [] ->
           now' - now <= McpTool.SESSION_TTL ->
           McpTool.getOrCreate E' ip now' w1 = (w1, inr cookies))
          /\ (cookies = [] -> McpTool.SESSION_STORE (heap w1) !! ip = None)).
Proof.
  intros E E' ip now now'. split.
  - intros w w1 cu. apply HumanLike_create_then_reuse.
  - intros w w1 cookies. apply McpTool_create_then_reuse.
Qed.

Lemma created_session_is_reused_witness :
  let h := HumanLike.getOrCreate friendly_env CLIENT 0 (init_world HumanLike.no_globals) in
  let m := McpTool.getOrCreate friendly_env CLIENT 0 (init_world McpTool.no_globals) in
  (exists cu, snd h = inr cu
     /\ HumanLike.getOrCreate offline_env CLIENT 720000 (fst h) = (fst h, inr cu))
  /\ (exists cookies, snd m = inr cookies
        /\ McpTool.getOrCreate offline_env CLIENT 600000 (fst m) = (fst m, inr cookies)).
Proof.
  intros h m.
  destruct (created_session_is_reused friendly_env offline_env CLIENT 0 720000) as [Hh _].
  destruct (created_session_is_reused friendly_env offline_env CLIENT 0 600000) as [_ Hm].
  split.
  - destruct (snd h) as [e|cu] eqn:Hsnd; [by vm_compute in Hsnd|].
    exists cu. split; [done|].
    apply (Hh (init_world HumanLike.no_globals)).
    + reflexivity.
    + rewrite <- Hsnd. apply surjective_pairing.
    + vm_compute. discriminate.
  - destruct (snd m) as [e|cookies] eqn:Hsnd; [by vm_compute in Hsnd|].
    exists cookies. split; [done|].
    apply (Hm (init_world McpTool.no_globals)).
    + reflexivity.
    + rewrite <- Hsnd. apply surjective_pairing.
    + intros ->. by vm_compute in Hsnd.
    + vm_compute. discriminate.
Defined.

(** ** How many results an answer can list *)





(** ** The anchors of the relayed page *)

Lemma strip_prefix_app (p s : jsstring) : strip_prefix p (p ++ s) = Some s.
Proof.
  induction p as [|a p IH]; [by destruct s|].
  simpl. by rewrite (proj2 (char_eqb_eq a a) eq_refl).
Qed.

Lemma strip_prefix_Some (p s r : jsstring) : strip_prefix p s = Some r -> s = p ++ r.
Proof.
  revert s. induction p as [|a p IH]; intros [|b s]; simpl; try congruence.
  destruct (char_eqb a b) eqn:Hab; [|done].
  apply char_eqb_eq in Hab as ->. intros Hs. by rewrite (IH _ Hs).
Qed.

Lemma span_not_app (c : N) (a b : jsstring) :
  c ∉ a -> span_not c (a ++ c :: b) = (a, c :: b).
Proof.
  induction a as [|x a IH]; intros Hc; simpl.
  - by rewrite (proj2 (char_eqb_eq c c) eq_refl).
  - destruct (char_eqb x c) eqn:Hx.
    + apply char_eqb_eq in Hx as ->. exfalso. apply Hc. left.
    + rewrite IH; [done|]. intros Hin. apply Hc. by right.
Qed.

Lemma span_not_eq (c : N) (s a b : jsstring) :
  span_not c s = (a, b) -> s = a ++ b /\ (c ∉ a).
Proof.
  revert a b. induction s as [|x s IH]; intros a b; simpl.
  - intros [= <- <-]. split; [done|]. by intros ?%elem_of_nil.
  - destruct (char_eqb x c) eqn:Hx.
    + intros [= <- <-]. split; [done|]. by intros ?%elem_of_nil.
    + destruct (span_not c s) as [a' b'] eqn:Hs. intros [= <- <-].
      destruct (IH _ _ eq_refl) as [-> Hn]. split; [done|].
      intros [Heq|Hin]%elem_of_cons; [|done].
      apply not_true_iff_false in Hx. by apply Hx, char_eqb_eq.
Qed.

Lemma proxy_anchor_parts (u t rest : jsstring) :
  proxy_anchor u t ++ rest
  = (lit "<a class=" ++ dq ++ lit "result__a" ++ dq ++ lit " href=" ++ dq)
    ++ (u ++ 34%N :: 62%N :: (t ++ 60%N :: (lit "/a>" ++ rest))).
Proof. unfold proxy_anchor. rewrite <- !app_assoc. reflexivity. Qed.

Lemma proxy_anchor_length (u t : jsstring) :
  length (proxy_anchor u t)
  = (length (lit "<a class=" ++ dq ++ lit "result__a" ++ dq ++ lit " href=" ++ dq)
     + length u + 2 + length t + 4)%nat.
Proof.
  rewrite <- (app_nil_r (proxy_anchor u t)), proxy_anchor_parts.
  rewrite !length_app. cbn [length]. rewrite !length_app. cbn [length].
  change (length (lit "/a>" ++ [])) with 3%nat. lia.
Qed.

Lemma anchor_at_sound (s u t : jsstring) (n : nat) :
  McpTool.anchor_at s = Some ((u, t), n) ->
  (exists rest, s = proxy_anchor u t ++ rest)
  /\ n = length (proxy_anchor u t)
  /\ u <> [] /\ (34%N ∉ u) /\ t <> [] /\ (60%N ∉ t).
Proof.
  unfold McpTool.anchor_at. rewrite proxy_anchor_length.
  set (opening := lit "<a class=" ++ dq ++ lit "result__a" ++ dq ++ lit " href=" ++ dq).
  destruct (strip_prefix opening s) as [rest|] eqn:Hp; [|done].
  apply strip_prefix_Some in Hp as ->.
  destruct (span_not 34 rest) as [[|c u'] after] eqn:Hu; [done|].
  apply span_not_eq in Hu as [-> Hnq].
  destruct (strip_prefix (dq ++ lit ">") after) as [inner|] eqn:Hq; [|done].
  apply strip_prefix_Some in Hq as ->.
  destruct (span_not 60 inner) as [[|d t'] closing] eqn:Ht; [done|].
  apply span_not_eq in Ht as [-> Hnl].
  destruct (startsWith closing (lit "</a>")) eqn:Hc; [|done].
  apply startsWith_true in Hc as [rest' ->].
  intros [= <- <- <-]. split; [|done].
  exists rest'. rewrite proxy_anchor_parts. fold opening.
  rewrite <- !app_assoc. reflexivity.
Qed.

Lemma anchor_at_complete (u t rest : jsstring) :
  u <> [] -> 34%N ∉ u -> t <> [] -> 60%N ∉ t ->
  McpTool.anchor_at (proxy_anchor u t ++ rest) = Some ((u, t), length (proxy_anchor u t)).
Proof.
  intros Hu Hnq Ht Hnl. unfold McpTool.anchor_at.
  rewrite proxy_anchor_length, proxy_anchor_parts.
  set (opening := lit "<a class=" ++ dq ++ lit "result__a" ++ dq ++ lit " href=" ++ dq).
  rewrite strip_prefix_app, span_not_app by done.
  destruct u as [|c u]; [done|].
  change (34%N :: 62%N :: (t ++ 60%N :: lit "/a>" ++ rest))
    with ((dq ++ lit ">") ++ (t ++ 60%N :: lit "/a>" ++ rest)).
  rewrite strip_prefix_app, span_not_app by done.
  destruct t as [|d t]; [done|].
  change (60%N :: lit "/a>" ++ rest) with (lit "</a>" ++ rest).
  by rewrite startsWith_app.
Qed.

Lemma match_all_go_skip {A} (at_pos : jsstring -> option (A * nat)) (pre rest : jsstring) :
  McpTool.match_all_go at_pos (length pre) (pre ++ rest) = McpTool.match_all_go at_pos 0 rest.
Proof. induction pre as [|c pre IH]; [by destruct rest|]. exact IH. Qed.

Lemma match_all_go_elem {A} (at_pos : jsstring -> option (A * nat)) (skip : nat)
    (s : jsstring) (r : A) :
  r ∈ McpTool.match_all_go at_pos skip s ->
  exists pre s0 n, s = pre ++ s0 /\ at_pos s0 = Some (r, n).
Proof.
  revert skip. induction s as [|c s IH]; intros skip; simpl; [by intros ?%elem_of_nil|].
  assert (Htail : forall k, r ∈ McpTool.match_all_go at_pos k s ->
                            exists pre s0 n, c :: s = pre ++ s0 /\ at_pos s0 = Some (r, n)).
  { intros k Hin. destruct (IH _ Hin) as (pre & s0 & n & -> & Hat).
    by exists (c :: pre), s0, n. }
  destruct skip as [|k]; [|apply Htail].
  destruct (at_pos (c :: s)) as [[r' [|n]]|] eqn:Hat; [apply Htail| |apply Htail].
  intros [->|Hin]%elem_of_cons; [|by apply (Htail n)].
  by exists [], (c :: s), (S n).
Qed.

Lemma anchor_at_other_head (c : N) (s : jsstring) : c <> 60%N -> McpTool.anchor_at (c :: s) = None.
Proof.
  intros Hc. unfold McpTool.anchor_at.
  change (lit "<a class=" ++ dq ++ lit "result__a" ++ dq ++ lit " href=" ++ dq)
    with (60%N :: (lit "a class=" ++ dq ++ lit "result__a" ++ dq ++ lit " href=" ++ dq)).
  cbn [strip_prefix].
  destruct (char_eqb 60 c) eqn:H; [|done]. apply char_eqb_eq in H. congruence.
Qed.

Lemma matchAll_plain_text (text rest : jsstring) :
  60%N ∉ text ->
  McpTool.match_all_go McpTool.anchor_at 0 (text ++ rest) = McpTool.match_all_go McpTool.anchor_at 0 rest.
Proof.
  induction text as [|c text IH]; intros Hn; [done|].
  cbn [app McpTool.match_all_go]. rewrite anchor_at_other_head.
  - apply IH. intros Hin. apply Hn. by right.
  - intros ->. apply Hn. left.
Qed.

Lemma matchAll_proxy_page (items : list (jsstring * jsstring * jsstring)) :
  Forall (fun i => fst (fst i) <> [] /\ (34%N ∉ fst (fst i))
                   /\ snd (fst i) <> [] /\ (60%N ∉ snd (fst i))
                   /\ (60%N ∉ snd i)) items ->
  McpTool.match_all_go McpTool.anchor_at 0 (proxy_page items) = map fst items.
Proof.
  induction 1 as [|[[u t] text] items (Hu & Hq & Ht & Hl & Htext) _ IH]; [done|].
  cbn [proxy_page map fst snd] in *.
  pose proof (anchor_at_complete u t (text ++ proxy_page items) Hu Hq Ht Hl) as Hat.
  destruct (proxy_anchor u t) as [|c a] eqn:Ha; [done|].
  cbn [app McpTool.match_all_go length] in *. rewrite Hat. f_equal.
  rewrite match_all_go_skip, matchAll_plain_text by done. exact IH.
Qed.

(** X17.  What the relay branch reads off the proxied page.  Every pair
    (url, title) that [matchAll] finds with the anchor pattern comes from an
    occurrence of [<a class='result__a' href='url'>title</a>] in the page,
    with a non-empty url free of double quotes and a non-empty title free
    of [<].  Conversely, on a page that starts with text free of [<] and
    goes on with such anchors, each followed by text free of [<], the
    matches are exactly the pairs of the anchors, in page order. *)
Theorem proxy_anchors_sound_and_complete :
  (forall (html u t : jsstring),
     (u, t) ∈ McpTool.matchAll McpTool.anchor_at html ->
     (exists pre post, html = pre ++ proxy_anchor u t ++ post)
     /\ u <> [] /\ (34%N ∉ u) /\ t <> [] /\ (60%N ∉ t))
  /\ (forall (text0 : jsstring) (items : list (jsstring * jsstring * jsstring)),
        60%N ∉ text0 ->
        Forall (fun i => fst (fst i) <> [] /\ (34%N ∉ fst (fst i))
                         /\ snd (fst i) <> [] /\ (60%N ∉ snd (fst i))
                         /\ (60%N ∉ snd i)) items ->
        McpTool.matchAll McpTool.anchor_at (text0 ++ proxy_page items) = map fst items).
Proof.
  split.
  - intros html u t Hin. unfold McpTool.matchAll in Hin.
    apply match_all_go_elem in Hin as (pre & s0 & n & -> & Hat).
    apply anchor_at_sound in Hat as ([post ->] & _ & Hrest).
    split; [by exists pre, post | exact Hrest].
  - intros text0 items Htext Hitems. unfold McpTool.matchAll.
    rewrite matchAll_plain_text by done. by apply matchAll_proxy_page.
Qed.

Lemma proxy_anchors_sound_and_complete_witness :
  McpTool.matchAll McpTool.anchor_at
    (lit "Results: "
     ++ proxy_page [(lit "https://a.example/", lit "Alpha", lit " and ");
                    (lit "https://b.example/", lit "Beta", lit ".")])
  = [(lit "https://a.example/", lit "Alpha"); (lit "https://b.example/", lit "Beta")]
  /\ lit "Alpha" <> [].
Proof.
  destruct proxy_anchors_sound_and_complete as [Hsound Hcomplete].
  assert (Hrun : McpTool.matchAll McpTool.anchor_at
                   (lit "Results: "
                    ++ proxy_page [(lit "https://a.example/", lit "Alpha", lit " and ");
                                   (lit "https://b.example/", lit "Beta", lit ".")])
                 = [(lit "https://a.example/", lit "Alpha");
                    (lit "https://b.example/", lit "Beta")]).
  { apply (Hcomplete (lit "Results: ")).
    - apply (bool_decide_unpack _). vm_compute. exact I.
    - repeat (constructor;
              [cbn [fst snd]; repeat split;
               first [ discriminate | apply (bool_decide_unpack _); vm_compute; exact I ]|]).
      constructor. }
  split; [exact Hrun|].
  assert (Hin : (lit "https://a.example/", lit "Alpha")
                ∈ McpTool.matchAll McpTool.anchor_at
                    (lit "Results: "
                     ++ proxy_page [(lit "https://a.example/", lit "Alpha", lit " and ");
                                    (lit "https://b.example/", lit "Beta", lit ".")]))
    by (rewrite Hrun; left).
  exact (proj1 (proj2 (proj2 (proj2 (Hsound _ _ _ Hin))))).
Defined.

(** ** The search phase and the relay of mcp-tool.ts *)

(** X18.  The search phase of [performSearchWithSession] never touches the
    module state, and it asks the library a second time only after a
    failure with cookies: a first answer with results is returned after
    that one call, and without cookies the failure of the one call is
    thrown as it is. *)
Theorem search_phase_attempts :
  forall (E : env) (q cookies : jsstring) (w : McpTool.W),
    let run := McpTool.searchWithFallback E q cookies w in
    let once := trace w ++ [EvSleep (random E (rand_calls w) * 1000 + 500);
                            EvSearch q (McpTool.getRealisticHeaders cookies)] in
    heap (fst run) = heap w
    /\ (forall results,
          library E (S (length (trace w))) q (McpTool.getRealisticHeaders cookies)
          = inr results ->
          snd run = inr results /\ trace (fst run) = once)
    /\ (forall e,
          library E (S (length (trace w))) q (McpTool.getRealisticHeaders cookies) = inl e ->
          cookies = [] ->
          snd run = inl e /\ trace (fst run) = once).
Proof.
  intros E q cookies w run once.
  destruct (searchWithFallback_outcome E q cookies w) as [Hheap Hout].
  split; [exact Hheap|]. split.
  - intros results Hlib. rewrite Hlib in Hout. by destruct Hout.
  - intros e Hlib ->. rewrite Hlib in Hout. by destruct Hout.
Qed.

Lemma search_phase_attempts_witness :
  snd (McpTool.searchWithFallback failing_env (lit "rust") [] (init_world McpTool.no_globals))
  = inl (lit "retry failed")
  /\ snd (McpTool.searchWithFallback friendly_env (lit "rust") (lit "sid=1")
            (init_world McpTool.no_globals))
     = inr two_library_results.
Proof.
  split.
  - apply (search_phase_attempts failing_env (lit "rust") [] (init_world McpTool.no_globals));
      reflexivity.
  - apply (search_phase_attempts friendly_env (lit "rust") (lit "sid=1")
             (init_world McpTool.no_globals)).
    reflexivity.
Defined.

Lemma proxy_fallback_outcome E q count (w : McpTool.W) :
  let run := McpTool.proxy_fallback E q count w in
  heap (fst run) = heap w
  /\ exists o, snd run = inr o
       /\ match o with
          | Some resp =>
              exists matches,
                matches <> []
                /\ resp = {| status := 200;
                             body := ToolResult
                                       (McpTool.markdown_proxy q (slice_to matches count))
                                       false |}
          | None => True
          end.
Proof.
  intros run. subst run. unfold McpTool.proxy_fallback, encodeURI_or_throw. run_monad.
  destruct (encodeURIComponent (builtin E) q) as [q'|]; cbn;
    [|split; [done|]; by exists None].
  destruct (network E (length (trace w)) (McpTool.proxy_request q')) as [e|res]; cbn;
    [split; [done|]; by exists None|].
  destruct (res_text res) as [e|html]; cbn; [split; [done|]; by exists None|].
  destruct (McpTool.matchAll McpTool.anchor_at html) as [|m ms] eqn:Hm; cbn;
    [split; [done|]; by exists None|].
  split; [done|]. eexists. split; [done|]. by exists (m :: ms).
Qed.

(** X19.  The relay through the public proxy cannot make things worse.
    [relay_if_blocked] never throws and never touches the module state;
    when the message of the error mentions neither VQD nor blocked it does
    nothing at all; and the answer it produces, if any, is a 200 without
    the error flag that renders a non-empty list of matches cut by the
    effective count. *)
Theorem relay_is_harmless :
  forall (E : env) (q : jsstring) (count : jsnum) (e : jsstring) (w : McpTool.W),
    let run := McpTool.relay_if_blocked E q count e w in
    heap (fst run) = heap w
    /\ (exists o, snd run = inr o
          /\ forall resp, o = Some resp ->
               exists matches,
                 matches <> []
                 /\ resp = {| status := 200;
                              body := ToolResult
                                        (McpTool.markdown_proxy q (slice_to matches count))
                                        false |})
    /\ (includes e (lit "VQD") = false -> includes e (lit "blocked") = false ->
        run = (w, inr None)).
Proof.
  intros E q count e w run. subst run. unfold McpTool.relay_if_blocked.
  destruct (includes e (lit "VQD") || includes e (lit "blocked")) eqn:Hinc.
  - destruct (proxy_fallback_outcome E q count w) as (Hheap & o & Ho & Hresp).
    split; [exact Hheap|]. split.
    + exists o. split; [exact Ho|]. by intros resp ->.
    + intros H1 H2. by rewrite H1, H2 in Hinc.
  - split; [done|]. split; [|done]. by exists None.
Qed.

Lemma relay_is_harmless_witness :
  McpTool.relay_if_blocked offline_env (lit "rust") (num_of_Z 10) (lit "timeout")
    (init_world McpTool.no_globals)
  = (init_world McpTool.no_globals, inr None).
Proof.
  apply (relay_is_harmless offline_env (lit "rust") (num_of_Z 10) (lit "timeout")
           (init_world McpTool.no_globals)); reflexivity.
Defined.


(** ** A well-formed page is read back *)

Lemma mismatch_app (y p z : jsstring) : mismatch y p = true -> mismatch (y ++ z) p = true.
Proof.
  revert p. induction y as [|b y IH]; intros [|a p]; simpl; try done.
  destruct (char_eqb a b); simpl; [apply IH | done].
Qed.

Lemma mismatch_startsWith (y p : jsstring) : mismatch y p = true -> startsWith y p = false.
Proof.
  revert p. induction y as [|b y IH]; intros [|a p]; simpl; try done.
  destruct (char_eqb a b); simpl; [apply IH | done].
Qed.

Lemma mismatch_strip_prefix (y p : jsstring) : mismatch y p = true -> strip_prefix p y = None.
Proof.
  revert p. induction y as [|b y IH]; intros [|a p]; simpl; try done.
  destruct (char_eqb a b); simpl; [apply IH | done].
Qed.

Lemma free_app (p s1 s2 : jsstring) :
  free p s1 = true -> free p s2 = true -> free p (s1 ++ s2) = true.
Proof.
  intros H1 H2. induction s1 as [|c s1 IH]; [done|].
  cbn [free app] in *. apply andb_true_iff in H1 as [Hm Hf].
  rewrite (mismatch_app (c :: s1) p s2 Hm : mismatch (c :: s1 ++ s2) p = true). by apply IH.
Qed.

Lemma free_without_head (a : N) (p s : jsstring) :
  a ∉ s -> free (a :: p) s = true.
Proof.
  induction s as [|c s IH]; intros Hn; [done|].
  cbn [free mismatch]. rewrite IH by (intros Hin; apply Hn; by right).
  destruct (char_eqb a c) eqn:Hac; [|done].
  apply char_eqb_eq in Hac as ->. exfalso. apply Hn. left.
Qed.

(** *** Splitting at the marker *)

Lemma split_go_free (sep s : jsstring) : free sep s = true -> split_go sep 0 s = [s].
Proof.
  induction s as [|c s IH]; [done|]. cbn [free]. intros [Hm Hf]%andb_true_iff.
  cbn [split_go]. rewrite (mismatch_startsWith _ _ Hm). by rewrite IH.
Qed.

Lemma split_go_marker (sep s rest : jsstring) :
  sep <> [] ->
  free sep s = true ->
  split_go sep 0 (s ++ sep ++ rest) = s :: split_go sep 0 rest.
Proof.
  intros Hsep. destruct sep as [|a sep']; [done|]. clear Hsep.
  induction s as [|c s IH]; intros Hf.
  - apply split_go_match.
  - cbn [free] in Hf. apply andb_true_iff in Hf as [Hm Hf].
    pose proof (mismatch_startsWith _ _
                  (mismatch_app (c :: s) (a :: sep') ((a :: sep') ++ rest) Hm)) as Hno.
    change ((c :: s) ++ (a :: sep') ++ rest) with (c :: (s ++ (a :: sep') ++ rest)) in *.
    cbn [split_go]. rewrite Hno. by rewrite (IH Hf).
Qed.

Lemma plain_text_elem (s : jsstring) (c : N) :
  plain_text s = true -> c ∈ s ->
  c <> 60%N /\ c <> 38%N /\ is_line_terminator c = false.
Proof.
  unfold plain_text. rewrite forallb_forall. intros Hall Hin.
  apply list_elem_of_In, Hall in Hin.
  apply andb_true_iff in Hin as [[H1 H2]%andb_true_iff H3].
  apply negb_true_iff in H1, H2, H3. apply N.eqb_neq in H1, H2. done.
Qed.

Lemma plain_url_elem (u : jsstring) (c : N) :
  plain_url u = true -> c ∈ u -> c <> 34%N /\ c <> 60%N /\ c <> 62%N.
Proof.
  unfold plain_url. intros [[Hall _]%andb_true_iff _]%andb_true_iff Hin.
  rewrite forallb_forall in Hall. apply list_elem_of_In, Hall in Hin.
  apply andb_true_iff in Hin as [[H1 H2]%andb_true_iff H3].
  apply negb_true_iff in H1, H2, H3. apply N.eqb_neq in H1, H2, H3. done.
Qed.

Lemma plain_text_no (s : jsstring) :
  plain_text s = true -> (60%N ∉ s) /\ (38%N ∉ s).
Proof.
  intros Hp. split; intros Hin; by destruct (plain_text_elem s _ Hp Hin) as (? & ? & ?).
Qed.

Lemma plain_url_no (u : jsstring) :
  plain_url u = true -> (34%N ∉ u) /\ (60%N ∉ u) /\ (62%N ∉ u).
Proof.
  intros Hp. repeat split; intros Hin; by destruct (plain_url_elem u _ Hp Hin) as (? & ? & ?).
Qed.

Lemma result_text_parts (u t d rest : jsstring) :
  result_text u t d ++ rest
  = ANCHOR_OPEN ++ u ++ ANCHOR_MID ++ t ++ SNIPPET_OPEN ++ d ++ SNIPPET_CLOSE ++ rest.
Proof.
  unfold result_text, ANCHOR_OPEN, ANCHOR_MID, SNIPPET_OPEN, SNIPPET_CLOSE.
  by rewrite <- !app_assoc.
Qed.

(** The text of a block and what follows it contain no marker. *)
Lemma result_text_free (i : page_item) :
  well_formed_item i ->
  free HumanLike.RESULT_BODY
       (result_text (item_url i) (item_title i) (item_snippet i) ++ item_trailer i) = true.
Proof.
  intros (Hu & Ht & _ & _ & Hd & _ & Htr).
  destruct (plain_url_no _ Hu) as (_ & Hu60 & _).
  destruct (plain_text_no _ Ht) as [Ht60 _]. destruct (plain_text_no _ Hd) as [Hd60 _].
  rewrite result_text_parts.
  change HumanLike.RESULT_BODY
    with (60%N :: (lit "div class=" ++ dq ++ lit "result__body" ++ dq ++ lit ">")).
  repeat first
    [ apply free_without_head; assumption
    | reflexivity
    | apply free_app ].
Qed.

Lemma split_results_page (head : jsstring) (items : list page_item) :
  free HumanLike.RESULT_BODY head = true ->
  Forall well_formed_item items ->
  split (head ++ results_page items) HumanLike.RESULT_BODY = head :: map block_text items.
Proof.
  intros Hhead Hitems. revert head Hhead. unfold split.
  induction Hitems as [|i items Hi _ IH]; intros head Hhead.
  - cbn [results_page map]. rewrite app_nil_r. by apply split_go_free.
  - cbn [results_page map].
    replace (result_block (item_url i) (item_title i) (item_snippet i) ++ item_trailer i
             ++ results_page items)
      with (HumanLike.RESULT_BODY ++ (block_text i ++ results_page items)).
    + rewrite (split_go_marker HumanLike.RESULT_BODY head _ ltac:(discriminate) Hhead).
      f_equal. apply IH. exact (result_text_free i Hi).
    + unfold block_text, result_block, result_text. by rewrite <- !app_assoc.
Qed.

Lemma candidate_blocks_results_page (head : jsstring) (items : list page_item) :
  60%N ∉ head ->
  Forall well_formed_item items ->
  HumanLike.candidate_blocks (head ++ results_page items) = map block_text items.
Proof.
  intros Hhead Hitems. unfold HumanLike.candidate_blocks.
  rewrite split_results_page; [done| |exact Hitems].
  exact (free_without_head 60 (lit "div class=" ++ dq ++ lit "result__body" ++ dq ++ lit ">")
           head Hhead).
Qed.

(** *** One block *)

Lemma first_match_here {A} (at_pos : jsstring -> option A) (s : jsstring) (r : A) :
  at_pos s = Some r -> first_match at_pos s = Some r.
Proof. intros H. destruct s; simpl; by rewrite H. Qed.

Lemma first_match_free {A} (at_pos : jsstring -> option A) (p pre s : jsstring) :
  (forall y, mismatch y p = true -> at_pos y = None) ->
  free p pre = true ->
  first_match at_pos (pre ++ s) = first_match at_pos s.
Proof.
  intros Hat. induction pre as [|c pre IH]; [done|].
  cbn [free]. intros [Hm Hf]%andb_true_iff.
  cbn [app first_match].
  rewrite (Hat _ (mismatch_app (c :: pre) p s Hm) : at_pos (c :: pre ++ s) = None).
  by apply IH.
Qed.

Lemma lazy_dot_before (close' t tail : jsstring) :
  (60%N ∉ t) -> (forall c, c ∈ t -> is_line_terminator c = false) ->
  startsWith tail (60%N :: close') = true ->
  lazy_dot_until (60%N :: close') (t ++ tail) = Some t.
Proof.
  intros H60 Hlt Htail. induction t as [|c t IH].
  - destruct tail as [|x tail]; [done|].
    change ([] ++ x :: tail) with (x :: tail). cbn [lazy_dot_until]. by rewrite Htail.
  - change ((c :: t) ++ tail) with (c :: (t ++ tail)). cbn [lazy_dot_until startsWith].
    destruct (char_eqb 60 c) eqn:Hc.
    { apply char_eqb_eq in Hc as <-. exfalso. apply H60. left. }
    cbn [andb]. rewrite (Hlt c) by left.
    rewrite IH; [done| |].
    + intros Hin. apply H60. by right.
    + intros x Hx. apply Hlt. by right.
Qed.

Lemma lazy_dot_plain (close' t rest : jsstring) :
  (60%N ∉ t) -> (forall c, c ∈ t -> is_line_terminator c = false) ->
  lazy_dot_until (60%N :: close') (t ++ (60%N :: close') ++ rest) = Some t.
Proof. intros H60 Hlt. apply lazy_dot_before; [done | done | apply startsWith_app]. Qed.

Lemma replace_go_id (match_len : jsstring -> option nat) (rep s : jsstring) :
  (forall c rest, c ∈ s -> match_len (c :: rest) = None) ->
  replace_go match_len rep 0 s = s.
Proof.
  induction s as [|c s IH]; intros Hn; [done|].
  cbn [replace_go]. rewrite (Hn c s) by left.
  rewrite IH; [done|]. intros x rest Hx. apply Hn. by right.
Qed.

Lemma upper_60 (c : N) : upper c = 60%N -> c = 60%N.
Proof.
  unfold upper. destruct (N.leb 97 c && N.leb c 122) eqn:H; [|done].
  apply andb_true_iff in H as [H1%N.leb_le H2%N.leb_le]. lia.
Qed.

Lemma bold_tag_len_other (c : N) (rest : jsstring) :
  c <> 60%N -> HumanLike.bold_tag_len (c :: rest) = None.
Proof.
  intros Hc. unfold HumanLike.bold_tag_len.
  assert (Hne : char_eqb (upper 60) (upper c) = false).
  { apply not_true_iff_false. intros H%char_eqb_eq. symmetry in H.
    by apply upper_60 in H. }
  change (lit "<b>") with (60%N :: lit "b>"). change (lit "</b>") with (60%N :: lit "/b>").
  cbn [startsWith_ci]. by rewrite Hne.
Qed.

Lemma literal_len_other (a c : N) (p rest : jsstring) :
  c <> a -> literal_len (a :: p) (c :: rest) = None.
Proof.
  intros Hc. unfold literal_len. cbn [startsWith].
  destruct (char_eqb a c) eqn:H; [|done]. apply char_eqb_eq in H. congruence.
Qed.

Lemma clean_plain (s : jsstring) :
  plain_text s = true -> trim s = s -> HumanLike.clean s = s.
Proof.
  intros Hp Ht. unfold HumanLike.clean, replaceAll.
  rewrite (replace_go_id HumanLike.bold_tag_len).
  2:{ intros c rest Hin. apply bold_tag_len_other.
      by destruct (plain_text_elem s c Hp Hin) as (H60 & H38 & _). }
  change (lit "&quot;") with (38%N :: lit "quot;").
  change (lit "&amp;") with (38%N :: lit "amp;").
  change (lit "&lt;") with (38%N :: lit "lt;").
  change (lit "&gt;") with (38%N :: lit "gt;").
  assert (Hlit : forall p rep, replace_go (literal_len (38%N :: p)) rep 0 s = s).
  { intros p rep. apply replace_go_id. intros c rest Hin. apply literal_len_other.
    by destruct (plain_text_elem s c Hp Hin) as (H60 & H38 & _). }
  by rewrite !Hlit.
Qed.

Lemma plain_url_nonempty (u : jsstring) : plain_url u = true -> u <> [].
Proof.
  unfold plain_url. intros [[_ Hs]%andb_true_iff _]%andb_true_iff ->. done.
Qed.

Lemma url_at_block (u rest : jsstring) :
  plain_url u = true ->
  HumanLike.url_at (ANCHOR_OPEN ++ u ++ ANCHOR_MID ++ rest) = Some u.
Proof.
  intros Hu. destruct (plain_url_no _ Hu) as (H34 & _ & _).
  pose proof (plain_url_nonempty _ Hu) as Hne.
  unfold HumanLike.url_at. fold ANCHOR_OPEN.
  rewrite strip_prefix_app.
  change (u ++ ANCHOR_MID ++ rest) with (u ++ 34%N :: (62%N :: rest)).
  rewrite span_not_app by done.
  destruct u as [|c u]; [done|]. reflexivity.
Qed.

Lemma title_at_block (u t rest : jsstring) :
  plain_url u = true -> plain_text t = true ->
  HumanLike.title_at (ANCHOR_OPEN ++ u ++ ANCHOR_MID ++ t ++ SNIPPET_OPEN ++ rest) = Some t.
Proof.
  intros Hu Ht. destruct (plain_url_no _ Hu) as (_ & _ & H62).
  unfold HumanLike.title_at.
  change (ANCHOR_OPEN ++ u ++ ANCHOR_MID ++ t ++ SNIPPET_OPEN ++ rest)
    with ((lit "<a class=" ++ dq ++ lit "result__a" ++ dq)
          ++ (lit " href=" ++ dq ++ u ++ 34%N :: 62%N :: (t ++ SNIPPET_OPEN ++ rest))).
  rewrite strip_prefix_app.
  replace (lit " href=" ++ dq ++ u ++ 34%N :: 62%N :: (t ++ SNIPPET_OPEN ++ rest))
    with ((lit " href=" ++ dq ++ u ++ [34%N]) ++ 62%N :: (t ++ SNIPPET_OPEN ++ rest))
    by (by rewrite <- !app_assoc).
  rewrite span_not_app.
  - cbn [snd].
    change (SNIPPET_OPEN ++ rest)
      with ((60%N :: lit "/a>")
            ++ (lit "<div class=" ++ dq ++ lit "result__snippet" ++ dq ++ lit ">" ++ rest)).
    change (lit "</a>") with (60%N :: lit "/a>").
    apply lazy_dot_plain.
    + by destruct (plain_text_no _ Ht).
    + intros c Hc. by destruct (plain_text_elem t c Ht Hc) as (_ & _ & ?).
  - change (lit " href=") with [32; 104; 114; 101; 102; 61]%N. unfold dq.
    rewrite !elem_of_app, !elem_of_cons, !elem_of_nil.
    intros [H|[H|[H|H]]]; [| |done|]; repeat (destruct H as [H|H]; [done|]); done.
Qed.

Lemma snippet_at_block (u t d rest : jsstring) :
  plain_url u = true -> plain_text t = true -> plain_text d = true ->
  first_match HumanLike.snippet_at
    (ANCHOR_OPEN ++ u ++ ANCHOR_MID ++ t ++ SNIPPET_OPEN ++ d ++ SNIPPET_CLOSE ++ rest)
  = Some d.
Proof.
  intros Hu Ht Hd.
  destruct (plain_url_no _ Hu) as (_ & Hu60 & _).
  destruct (plain_text_no _ Ht) as [Ht60 _].
  set (P := lit "<div class=" ++ dq ++ lit "result__snippet" ++ dq ++ lit ">").
  replace (ANCHOR_OPEN ++ u ++ ANCHOR_MID ++ t ++ SNIPPET_OPEN ++ d ++ SNIPPET_CLOSE ++ rest)
    with ((ANCHOR_OPEN ++ u ++ ANCHOR_MID ++ t ++ lit "</a>")
          ++ (P ++ d ++ SNIPPET_CLOSE ++ rest)).
  2:{ unfold SNIPPET_OPEN, P. rewrite <- !app_assoc. reflexivity. }
  rewrite (first_match_free HumanLike.snippet_at P).
  - apply first_match_here. unfold HumanLike.snippet_at. fold P.
    rewrite strip_prefix_app.
    change SNIPPET_CLOSE with (60%N :: lit "/div>").
    change (lit "</div>") with (60%N :: lit "/div>").
    apply lazy_dot_plain.
    + by destruct (plain_text_no _ Hd).
    + intros c Hc. by destruct (plain_text_elem d c Hd Hc) as (_ & _ & ?).
  - intros y Hy. unfold HumanLike.snippet_at. fold P.
    by rewrite (mismatch_strip_prefix _ _ Hy).
  - change P with (60%N :: (lit "div class=" ++ dq ++ lit "result__snippet" ++ dq ++ lit ">")).
    repeat first
      [ apply free_without_head; assumption
      | reflexivity
      | apply free_app ].
Qed.

Lemma parse_block_item (i : page_item) :
  well_formed_item i ->
  HumanLike.parse_block (block_text i) = Some (item_result i).
Proof.
  intros (Hu & Ht & Htne & Httrim & Hd & Hdtrim & Htr).
  unfold block_text. rewrite result_text_parts.
  unfold HumanLike.parse_block.
  rewrite (first_match_here _ _ _ (url_at_block _ _ Hu)).
  pose proof Hu as Hu'. unfold plain_url in Hu'.
  apply andb_true_iff in Hu' as [[_ Hhttp]%andb_true_iff Hddg%negb_true_iff].
  rewrite Hhttp, Hddg. cbn [negb].
  rewrite (first_match_here _ _ _ (title_at_block _ _ _ Hu Ht)).
  rewrite (snippet_at_block _ _ _ _ Hu Ht Hd). cbn [default].
  destruct (item_title i) as [|c t] eqn:Het; [done|]. rewrite <- Het in *.
  rewrite !clean_plain by done. reflexivity.
Qed.

(** *** The page *)

Lemma omap_parse_block_items (items : list page_item) :
  Forall well_formed_item items ->
  omap HumanLike.parse_block (map block_text items) = map item_result items.
Proof.
  induction 1 as [|i items Hi _ IH]; [done|].
  cbn [map omap list_omap]. rewrite (parse_block_item i Hi). cbn. f_equal. exact IH.
Qed.

(** X20.  [parseResults] reads a well-formed page back.  On a page that
    starts with text free of [<] and goes on with result blocks -- the
    marker, the anchor with an address that is free of quotes and angle
    brackets, starts with http and does not name duckduckgo.com, a
    non-empty trimmed title and a trimmed snippet, both free of [<], [&]
    and line breaks, and any text free of [<] after the block -- the [n]
    results returned are the first [n] blocks of the page, in order, with
    exactly the address, the title and the snippet the page carries. *)
Theorem parseResults_reads_back :
  forall (head : jsstring) (items : list page_item) (n : nat),
    60%N ∉ head ->
    Forall well_formed_item items ->
    HumanLike.parseResults (head ++ results_page items) (num_of_nat n)
    = take n (map item_result items).
Proof.
  intros head items n Hhead Hitems. unfold HumanLike.parseResults.
  rewrite candidate_blocks_results_page by done.
  rewrite parse_loop_take by (simpl; lia). cbn [app length].
  rewrite Nat.sub_0_r. by rewrite omap_parse_block_items.
Qed.

Lemma parseResults_reads_back_witness :
  HumanLike.parseResults (lit "Results " ++ results_page rust_items) (num_of_nat 1)
  = [ {| HumanLike.title := lit "Rust"; HumanLike.url := lit "https://www.rust-lang.org/";
         HumanLike.description := lit "A language" |} ].
Proof.
  apply (parseResults_reads_back (lit "Results ") rust_items 1).
  - apply (bool_decide_unpack _). vm_compute. exact I.
  - repeat (constructor;
            [unfold well_formed_item; cbn [item_url item_title item_snippet item_trailer];
             repeat split;
             first [ discriminate
                   | vm_compute; reflexivity
                   | apply (bool_decide_unpack _); vm_compute; exact I ]|]).
    constructor.
Defined.
